(** * Countries service: ingestion, reconciliation, estimation, report

    A shallow embedding of [src/modules/countries/countries.service.ts]
    and [countries.controller.ts].

    Conventions of the embedding
    - a JavaScript [number] is a rational ([Q]); rounding of doubles is
      not modelled, and numeric results are compared with [==];
    - a [string] is a [String.string]; [toLowerCase] and [toUpperCase]
      act on the ASCII letters;
    - [null] / [undefined] is [None]; an element of the incoming array is
      a record of the declared type [Countries] or [null];
    - an object read from JSON inherits the members of
      [Object.prototype], each of them a function or an object;
    - a rejected promise or a thrown exception is [Throw e];
    - every awaited external call of an item task is one atomic action
      of that task; a schedule chooses which task of the batch performs
      its next action, so that every interleaving the event loop can
      produce is the run of some schedule. *)

From Stdlib Require Import List String Ascii Bool Arith ZArith QArith Qround Lia.
From Stdlib Require Import Sorted Permutation Lqa.
Import ListNotations.

Local Open Scope string_scope.
Local Open Scope list_scope.
Local Open Scope nat_scope.

(** ** JavaScript values *)

Definition truthy (s : option string) : bool :=
  match s with
  | Some EmptyString => false
  | Some _ => true
  | None => false
  end.

(** [x || 0] and [x || null] on numbers: [null], [undefined] and [0] are falsy. *)
Definition or_zero (x : option Q) : Q :=
  match x with
  | Some q => if Qeq_bool q 0 then 0%Q else q
  | None => 0%Q
  end.

Definition or_null (x : option Q) : option Q :=
  match x with
  | Some q => if Qeq_bool q 0 then None else Some q
  | None => None
  end.

Definition toUpperChar (c : ascii) : ascii :=
  let n := nat_of_ascii c in
  if (97 <=? n) && (n <=? 122) then ascii_of_nat (n - 32) else c.

Definition toLowerChar (c : ascii) : ascii :=
  let n := nat_of_ascii c in
  if (65 <=? n) && (n <=? 90) then ascii_of_nat (n + 32) else c.

Fixpoint map_string (f : ascii -> ascii) (s : string) : string :=
  match s with
  | EmptyString => EmptyString
  | String c s' => String (f c) (map_string f s')
  end.

Definition toUpperCase : string -> string := map_string toUpperChar.
Definition toLowerCase : string -> string := map_string toLowerChar.

(** ** Exceptions *)

Inductive HttpStatus :=
| NOT_FOUND
| INTERNAL_SERVER_ERROR
| BAD_GATEWAY
| SERVICE_UNAVAILABLE.

Definition status_code (s : HttpStatus) : nat :=
  match s with
  | NOT_FOUND => 404
  | INTERNAL_SERVER_ERROR => 500
  | BAD_GATEWAY => 502
  | SERVICE_UNAVAILABLE => 503
  end.

(** The awaited external calls of an item task. *)
Inductive Stage := SFind | SRate | SWrite | SCount | STop | SFile.

Inductive Exn :=
| HttpException (response : string) (status : HttpStatus)
| PrismaKnownRequestError (code : string)
| PrismaValidationError (message : string)
| AxiosError (message : string)
| JsError (message : string)
| Fault (at_stage : Stage).

(** [new NotFoundException(body)] is an [HttpException] of status 404. *)
Definition NotFoundException (body : string) : Exn := HttpException body NOT_FOUND.

Definition instanceofHttpException (e : Exn) : bool :=
  match e with
  | HttpException _ _ => true
  | _ => false
  end.

Inductive Result (A : Type) :=
| Ok (a : A)
| Throw (e : Exn).
Arguments Ok {A} a.
Arguments Throw {A} e.

(** The error taxonomy of the specification, read off the HTTP status
    the exception carries. *)
Inductive ErrorKind := SourceUnavailable | SourceError | NotFound | InternalError.

Definition kindOf (e : Exn) : ErrorKind :=
  match e with
  | HttpException _ NOT_FOUND => NotFound
  | HttpException _ BAD_GATEWAY => SourceError
  | HttpException _ SERVICE_UNAVAILABLE => SourceUnavailable
  | _ => InternalError
  end.

(** ** Data model *)

Module CurrencyData.
Record t := mk { code : string; name : string; symbol : string }.
End CurrencyData.

(** [interface Countries]: an item of the incoming dataset. *)
Module Countries.
Record t := mk {
  name : string;
  capital : string;
  region : string;
  population : Q;
  currencies : option (list CurrencyData.t);
  flag : string;
  independent : string
}.
End Countries.

(** A row of the [country] table. *)
Module Country.
Record t := mk {
  name : string;
  capital : string;
  region : string;
  population : Q;
  currency_code : option string;
  exchange_rate : option Q;
  estimated_gdp : option Q;
  flag_url : string
}.
End Country.

(** ** The persisted store *)

Module Prisma.

(** Modelled from the spec: [src/modules/prisma/prisma.service.ts] and
    [prisma/schema.prisma] are not among the sources.  The table is the
    specification's data model (a sequence of rows in which [name] is
    the unique key, compared exactly and case-sensitively as given) and
    the operations are those of the Prisma client the service calls:
    [findFirst] gives the row or [null]; [create] rejects with P2002 on
    a duplicate unique key; [update] and [delete] reject with P2025
    when no row has the key; [findMany] rejects an argument of [where]
    that is not a column.  The position of [null] in an ordered
    [findMany] depends on the database and is the parameter
    [nulls_largest]. *)
Definition Table := list Country.t.

Definition has_name (n : string) (c : Country.t) : bool :=
  String.eqb (Country.name c) n.

Definition findFirst (tb : Table) (n : string) : option Country.t :=
  find (has_name n) tb.

Definition create (tb : Table) (c : Country.t) : Result Table :=
  match findFirst tb (Country.name c) with
  | Some _ => Throw (PrismaKnownRequestError "P2002")
  | None => Ok (tb ++ [c])
  end.

Definition update (tb : Table) (n : string) (data : Country.t -> Country.t)
  : Result Table :=
  match findFirst tb n with
  | Some _ => Ok (map (fun c => if has_name n c then data c else c) tb)
  | None => Throw (PrismaKnownRequestError "P2025")
  end.

Definition delete (tb : Table) (n : string) : Result (Country.t * Table) :=
  match findFirst tb n with
  | Some c => Ok (c, filter (fun c' => negb (has_name n c')) tb)
  | None => Throw (PrismaKnownRequestError "P2025")
  end.

Definition count (tb : Table) : nat := List.length tb.

(** The [filters] object of [getAllCountries], used as [where]. *)
Record Where := mkWhere {
  w_region : option string;
  w_currency_code : option string;
  w_sort : option string
}.

Definition no_filter : Where := mkWhere None None None.

Inductive SortOrder := asc | desc.

Definition opt_equals (f : option string) (v : option string) : bool :=
  match f with
  | None => true
  | Some x => match v with Some y => String.eqb y x | None => false end
  end.

Definition matches (w : Where) (c : Country.t) : bool :=
  opt_equals (w_region w) (Some (Country.region c))
  && opt_equals (w_currency_code w) (Country.currency_code c).

(** [gdp_le nulls_largest a b]: [a] is not after [b] in ascending order. *)
Definition gdp_le (nulls_largest : bool) (a b : option Q) : bool :=
  match a, b with
  | None, None => true
  | None, Some _ => negb nulls_largest
  | Some _, None => nulls_largest
  | Some x, Some y => Qle_bool x y
  end.

Definition before (nulls_largest : bool) (o : SortOrder) (a b : Country.t) : bool :=
  match o with
  | asc => gdp_le nulls_largest (Country.estimated_gdp a) (Country.estimated_gdp b)
  | desc => gdp_le nulls_largest (Country.estimated_gdp b) (Country.estimated_gdp a)
  end.

Fixpoint insert_sorted (le : Country.t -> Country.t -> bool) (c : Country.t)
  (l : list Country.t) : list Country.t :=
  match l with
  | [] => [c]
  | d :: l' => if le c d then c :: l else d :: insert_sorted le c l'
  end.

(** A stable sort: rows that compare equal keep the table's order. *)
Definition sort_rows (le : Country.t -> Country.t -> bool) (l : list Country.t)
  : list Country.t :=
  fold_right (insert_sorted le) [] l.

Definition findMany (nulls_largest : bool) (tb : Table) (w : Where)
  (orderBy : option SortOrder) (take : option nat) : Result (list Country.t) :=
  match w_sort w with
  | Some _ => Throw (PrismaValidationError "Unknown argument sort")
  | None =>
      let rows := filter (matches w) tb in
      let rows :=
        match orderBy with
        | Some o => sort_rows (before nulls_largest o) rows
        | None => rows
        end in
      Ok (match take with Some n => firstn n rows | None => rows end)
  end.

End Prisma.

(** ** The outside world *)

(** What [axios.get(api_exchange_rate, { timeout: 5000 })] does: the
    request times out, fails in transport, or answers with a body whose
    [rates] field is a table (or is missing). *)
Inductive ExchangeOutcome :=
| ExTimeout
| ExTransportError
| ExResponse (rates : option (list (string * Q))).

(** The body of the answer of the ingestion source: an array, whose
    elements are records or [null], or something that is not an array. *)
Inductive Payload :=
| PArray (data : list (option Countries.t))
| PNotArray.

(** What [axios.get(api_countries)] does; with the default
    [validateStatus] the promise rejects unless [200 <= status < 300]. *)
Inductive SourceOutcome :=
| SrcTimeout
| SrcNetworkError
| SrcResponse (status : nat) (body : Payload).

(** The outside world as one item task meets it: which of its awaited
    calls fail, the answer of the exchange-rate source, the value
    [Math.random()] returns and the clock read by [new Date()]. *)
Record ItemEnv := mkEnv {
  fault : Stage -> bool;
  exchange : ExchangeOutcome;
  random : Q;
  clock : nat
}.

(** ** The report *)

(** [interface TopCountries] *)
Module TopCountries.
Record t := mk { name : string; estimated_gdp : option Q }.
End TopCountries.

Record Line := mkLine {
  rank : nat;
  line_y : nat;
  line_name : string;
  gdpBillions : Q
}.

(** The vector description; the raster encoder is a black box, and the
    file [cache/summary.png] is identified with the description it was
    encoded from. *)
Record Svg := mkSvg {
  width : nat;
  height : nat;
  totalCountries : nat;
  countryItems : list Line;
  timestamp : nat
}.

(** [x.toFixed(2)], as the rational with two decimals. *)
Definition toFixed2 (x : Q) : Q :=
  (Qfloor (x * 100 + (1 # 2)) # 100)%Q.

(** [null / 1e9] is [0]. *)
Definition div_1e9 (x : option Q) : Q :=
  match x with
  | Some q => (q / 1000000000)%Q
  | None => 0%Q
  end.

Fixpoint countryItems_from (index : nat) (topCountries : list TopCountries.t)
  : list Line :=
  match topCountries with
  | [] => []
  | country :: rest =>
      mkLine (index + 1) (210 + index * 40) (TopCountries.name country)
             (toFixed2 (div_1e9 (TopCountries.estimated_gdp country)))
        :: countryItems_from (S index) rest
  end.

Definition generateSVG (totalCountries : nat) (topCountries : list TopCountries.t)
  (now : nat) : Svg :=
  let yPos := 210 in
  let lineSpacing := 40 in
  mkSvg 800 (yPos + List.length topCountries * lineSpacing + 100)
        totalCountries (countryItems_from 0 topCountries) now.

(** ** Estimation *)

(** The names of the members that every object inherits from
    [Object.prototype]: its methods and, under [__proto__], the
    prototype itself.  None of them is a number and all are truthy. *)
Definition object_prototype : list string :=
  ["constructor"; "hasOwnProperty"; "isPrototypeOf"; "propertyIsEnumerable";
   "toLocaleString"; "toString"; "valueOf"; "__proto__";
   "__defineGetter__"; "__defineSetter__";
   "__lookupGetter__"; "__lookupSetter__"].

Definition inherited (key : string) : bool :=
  existsb (String.eqb key) object_prototype.

(** What reading a property of the table of rates gives: the number
    under an own key, else the member of [Object.prototype] of that
    name, else [undefined]. *)
Inductive Property :=
| Own (rate : Q)
| FromPrototype (member : string)
| Undefined.

(** [data.rates[currency_code]] *)
Definition lookup_rate (code : string) (rates : list (string * Q)) : Property :=
  match find (fun kv => String.eqb (fst kv) code) rates with
  | Some kv => Own (snd kv)
  | None => if inherited code then FromPrototype code else Undefined
  end.

(** A value [getExchangeRate] returns: one of its declared type
    [number | null], or a member of [Object.prototype], which is
    neither. *)
Inductive RateResult :=
| Rate (value : option Q)
| Member (name : string).

(** [property || null] *)
Definition property_or_null (p : Property) : RateResult :=
  match p with
  | Own rate => Rate (or_null (Some rate))
  | FromPrototype member => Member member
  | Undefined => Rate None
  end.

(** The [try] block of [getExchangeRate]. *)
Definition getExchangeRate_try (currency_code : string) (o : ExchangeOutcome)
  : Result RateResult :=
  match o with
  | ExTimeout => Throw (AxiosError "timeout of 5000ms exceeded")
  | ExTransportError => Throw (AxiosError "Network Error")
  | ExResponse None => Throw (JsError "Cannot read properties of undefined")
  | ExResponse (Some rates) =>
      Ok (property_or_null (lookup_rate currency_code rates))
  end.

Definition getExchangeRate (currency_code : string) (o : ExchangeOutcome)
  : Result RateResult :=
  match getExchangeRate_try currency_code o with
  | Ok r => Ok r
  | Throw _ => Ok (Rate None)
  end.

(** [r] is the value of [Math.random()]. *)
Definition calculateEstimatedGdp (r : Q) (exchangeRate : option Q) (population : Q)
  : option Q :=
  match exchangeRate with
  | None => None
  | Some rate =>
      let multiplier := (r * (2000 - 1000) + 1000)%Q in
      Some (population * multiplier * rate)%Q
  end.

Definition capitalizeFirstWord (str : string) : string :=
  match str with
  | EmptyString => EmptyString
  | String c rest => String (toUpperChar c) rest
  end.

(** ** The reconciliation run *)

Record World := mkWorld {
  db : Prisma.Table;
  summary_png : option Svg
}.

Inductive Status := St_created | St_updated | St_failed.

(** What an item task returns: one of the object literals
    [{ status: 'updated', country }], [{ status: 'created', country }]
    and [{ status: 'failed', country, error }]. *)
Inductive TaskResult :=
| result_updated (country : string)
| result_created (country : string)
| result_failed (country : string) (error : Exn).

Definition status (r : TaskResult) : Status :=
  match r with
  | result_updated _ => St_updated
  | result_created _ => St_created
  | result_failed _ _ => St_failed
  end.

(** Which write of the item task has succeeded when it renders the
    report: the update of an existing row or the creation of a new one. *)
Inductive Written := Was_updated | Was_created.

Definition success (p : Written) (c : string) : TaskResult :=
  match p with
  | Was_updated => result_updated c
  | Was_created => result_created c
  end.

(** An entry of the array [Promise.allSettled] resolves to. *)
Inductive PromiseSettledResult :=
| fulfilled (value : TaskResult)
| rejected (reason : Exn).

(** An item task, suspended at one of its [await]s or settled.
    [AwaitCreateInvalid] is the [create] whose [exchange_rate] is the
    member of [Object.prototype] the resolver has returned: not a
    number, so that the client rejects the data. *)
Inductive Task :=
| AwaitFind (c : Countries.t)
| AwaitUpdate (c : Countries.t) (existing : Country.t) (refetched_estimated_gdp : Q)
| AwaitRate (c : Countries.t) (currencyCode : string)
| AwaitCreate (c : Countries.t) (newCountry : Country.t)
| AwaitCreateInvalid (c : Countries.t) (exchangeRate : string)
| AwaitCount (c : Countries.t) (st : Written)
| AwaitTop (c : Countries.t) (st : Written) (totalCountries : nat)
| AwaitFile (c : Countries.t) (st : Written) (svgContent : Svg)
| Settled (r : PromiseSettledResult).

(** What an observer of the run sees: item [i] performs the awaited call
    of a stage, or the task of item [i] settles. *)
Inductive Event :=
| Call (i : nat) (s : Stage)
| Settle (i : nat).

Definition ev_item (e : Event) : nat :=
  match e with
  | Call i _ => i
  | Settle i => i
  end.

(** The state the tasks of a run share: the store and the cache file,
    the counters [created] and [updated] of [uploadCountry], and the
    events so far (oldest first). *)
Record RunState := mkRun {
  world : World;
  created : nat;
  updated : nat;
  trace : list Event
}.

Definition batchSize : nat := 10.

(** [data.slice(i, j)] *)
Definition slice {A} (i j : nat) (data : list A) : list A :=
  firstn (j - i) (skipn i data).

(** [country.currencies?.[0]?.code ?? null] *)
Definition first_code (c : Countries.t) : option string :=
  match Countries.currencies c with
  | Some (cur :: _) => Some (CurrencyData.code cur)
  | _ => None
  end.

(** The [data] of the update: the incoming capital, region and
    population, the new estimate, and the existing currency code,
    exchange rate and flag. *)
Definition update_data (c : Countries.t) (existing : Country.t)
  (refetched_estimated_gdp : Q) (row : Country.t) : Country.t :=
  Country.mk (Country.name row)
             (Countries.capital c)
             (Countries.region c)
             (Countries.population c)
             (Country.currency_code existing)
             (Country.exchange_rate existing)
             (Some refetched_estimated_gdp)
             (Country.flag_url existing).

Definition newCountry (c : Countries.t) (currencyCode : option string)
  (exchangeRate estimated_gdp : option Q) : Country.t :=
  Country.mk (toLowerCase (Countries.name c))
             (Countries.capital c)
             (Countries.region c)
             (Countries.population c)
             currencyCode
             exchangeRate
             estimated_gdp
             (Countries.flag c).

Definition select_top (c : Country.t) : TopCountries.t :=
  TopCountries.mk (Country.name c) (Country.estimated_gdp c).

(** The [catch (itemErr)] of the item task.  It reads [country.name]
    for the log and for the result, which throws when the item is
    [null]: the task then rejects. *)
Definition caught (country : option Countries.t) (itemErr : Exn) : Task :=
  match country with
  | Some c => Settled (fulfilled (result_failed (Countries.name c) itemErr))
  | None =>
      Settled (rejected (JsError "Cannot read properties of null (reading 'name')"))
  end.

(** The task of an item from its start to its first [await]:
    [country.name.toLowerCase()] throws when the item is [null]. *)
Definition start (country : option Countries.t) : Task :=
  match country with
  | Some c => AwaitFind c
  | None =>
      caught None (JsError "Cannot read properties of null (reading 'name')")
  end.

(** The tasks that have settled when [batch.map] returns, before any
    awaited call of the batch: those of the [null] items. *)
Fixpoint settled_at_start (base : nat) (batch : list (option Countries.t))
  : list Event :=
  match batch with
  | [] => []
  | Some _ :: rest => settled_at_start (S base) rest
  | None :: rest => Settle base :: settled_at_start (S base) rest
  end.

Definition is_settled (t : Task) : bool :=
  match t with
  | Settled _ => true
  | _ => false
  end.

Definition stage_of (t : Task) : option Stage :=
  match t with
  | AwaitFind _ => Some SFind
  | AwaitUpdate _ _ _ => Some SWrite
  | AwaitRate _ _ => Some SRate
  | AwaitCreate _ _ => Some SWrite
  | AwaitCreateInvalid _ _ => Some SWrite
  | AwaitCount _ _ => Some SCount
  | AwaitTop _ _ _ => Some STop
  | AwaitFile _ _ _ => Some SFile
  | Settled _ => None
  end.

Module CountriesService.

Section Service.

(** [COUNTRY_DATA_API] of the configuration. *)
Variable api_countries : option string.
(** Whether the database orders [null] after every number. *)
Variable nulls_largest : bool.
(** The outside world of the task of each item, by its index in the dataset. *)
Variable env : nat -> ItemEnv.
(** The schedule of the batch that starts at index [i]: the positions,
    in the batch, of the tasks that perform their next action. *)
Variable sched : nat -> list nat.

(** The awaited call of the task completes and the task runs to its
    next [await]: the effect on the shared state, without the events. *)
Definition resume (e : ItemEnv) (t : Task) (s : RunState) : Task * RunState :=
  match t with
  | AwaitFind c =>
      if fault e SFind then (caught (Some c) (Fault SFind), s) else
      let nameLower := toLowerCase (Countries.name c) in
      match Prisma.findFirst (db (world s)) nameLower with
      | Some existing =>
          let multiplier :=
            inject_Z (Qfloor (random e * (2000 - 1000 + 1)) + 1000) in
          let refetched_estimated_gdp :=
            (Countries.population c
             * or_zero (Country.exchange_rate existing)
             * multiplier)%Q in
          (AwaitUpdate c existing refetched_estimated_gdp, s)
      | None =>
          let currencyCode := first_code c in
          let unresolved :=
            AwaitCreate c
              (newCountry c currencyCode None
                 (calculateEstimatedGdp (random e) None
                    (Countries.population c))) in
          match currencyCode with
          | Some code =>
              if truthy currencyCode then (AwaitRate c code, s)
              else (unresolved, s)
          | None => (unresolved, s)
          end
      end
  | AwaitUpdate c existing refetched_estimated_gdp =>
      if fault e SWrite then (caught (Some c) (Fault SWrite), s) else
      let nameLower := toLowerCase (Countries.name c) in
      match Prisma.update (db (world s)) nameLower
              (update_data c existing refetched_estimated_gdp) with
      | Ok tb =>
          (AwaitCount c Was_updated,
           mkRun (mkWorld tb (summary_png (world s)))
                 (created s) (S (updated s)) (trace s))
      | Throw itemErr => (caught (Some c) itemErr, s)
      end
  | AwaitRate c currencyCode =>
      match getExchangeRate currencyCode (exchange e) with
      | Ok (Rate exchangeRate) =>
          (AwaitCreate c
             (newCountry c (Some currencyCode) exchangeRate
                (calculateEstimatedGdp (random e) exchangeRate
                   (Countries.population c))), s)
      | Ok (Member exchangeRate) => (AwaitCreateInvalid c exchangeRate, s)
      | Throw itemErr => (caught (Some c) itemErr, s)
      end
  | AwaitCreate c newCountry =>
      if fault e SWrite then (caught (Some c) (Fault SWrite), s) else
      match Prisma.create (db (world s)) newCountry with
      | Ok tb =>
          (AwaitCount c Was_created,
           mkRun (mkWorld tb (summary_png (world s)))
                 (S (created s)) (updated s) (trace s))
      | Throw itemErr => (caught (Some c) itemErr, s)
      end
  | AwaitCreateInvalid c exchangeRate =>
      if fault e SWrite then (caught (Some c) (Fault SWrite), s) else
      (caught (Some c)
         (PrismaValidationError "Invalid value for argument exchange_rate"), s)
  | AwaitCount c st =>
      if fault e SCount then (caught (Some c) (Fault SCount), s) else
      (AwaitTop c st (Prisma.count (db (world s))), s)
  | AwaitTop c st totalCountries =>
      if fault e STop then (caught (Some c) (Fault STop), s) else
      match Prisma.findMany nulls_largest (db (world s)) Prisma.no_filter
              (Some Prisma.desc) (Some 5) with
      | Ok topCountries =>
          (AwaitFile c st
             (generateSVG totalCountries (map select_top topCountries) (clock e)),
           s)
      | Throw itemErr => (caught (Some c) itemErr, s)
      end
  | AwaitFile c st svgContent =>
      if fault e SFile then (caught (Some c) (Fault SFile), s) else
      (Settled (fulfilled (success st (Countries.name c))),
       mkRun (mkWorld (db (world s)) (Some svgContent))
             (created s) (updated s) (trace s))
  | Settled r => (Settled r, s)
  end.

Definition record_events (i : nat) (before after : Task) (s : RunState)
  : RunState :=
  match stage_of before with
  | None => s
  | Some st =>
      mkRun (world s) (created s) (updated s)
            (trace s ++ Call i st
               :: (if is_settled after then [Settle i] else []))
  end.

(** One action of the task of item [i]. *)
Definition step (i : nat) (t : Task) (s : RunState) : Task * RunState :=
  let (t', s') := resume (env i) t s in
  (t', record_events i t t' s').

(** The task at position [k] of the batch, whose first item has index
    [base] in the dataset, performs its next action. *)
Fixpoint step_at (k base : nat) (ts : list Task) (s : RunState) {struct ts}
  : list Task * RunState :=
  match ts with
  | [] => ([], s)
  | t :: rest =>
      match k with
      | 0 => let (t', s') := step base t s in (t' :: rest, s')
      | S k' =>
          let (rest', s') := step_at k' (S base) rest s in (t :: rest', s')
      end
  end.

Fixpoint run_schedule (schedule : list nat) (base : nat) (ts : list Task)
  (s : RunState) : list Task * RunState :=
  match schedule with
  | [] => (ts, s)
  | k :: schedule' =>
      let (ts', s') := step_at k base ts s in
      run_schedule schedule' base ts' s'
  end.

Fixpoint steps (n i : nat) (t : Task) (s : RunState) : Task * RunState :=
  match n with
  | 0 => (t, s)
  | S n' => let (t', s') := step i t s in steps n' i t' s'
  end.

(** A task has at most six awaited calls. *)
Definition max_actions : nat := 6.

(** Whatever the schedule left pending runs to its end, in order. *)
Fixpoint drain (base : nat) (ts : list Task) (s : RunState)
  : list Task * RunState :=
  match ts with
  | [] => ([], s)
  | t :: rest =>
      let (t', s') := steps max_actions base t s in
      let (rest', s'') := drain (S base) rest s' in
      (t' :: rest', s'')
  end.

(** The settled result of a task.  [Promise.allSettled] resolves when
    every task has settled, and [drain] leaves no task pending, so the
    second case does not arise. *)
Definition result_of (t : Task) : PromiseSettledResult :=
  match t with
  | Settled r => r
  | _ => rejected (JsError "pending")
  end.

(** The state when [batch.map] has started the tasks of the batch. *)
Definition launched (base : nat) (batch : list (option Countries.t))
  (s : RunState) : RunState :=
  mkRun (world s) (created s) (updated s)
        (trace s ++ settled_at_start base batch).

(** [await Promise.allSettled(batch.map(async (country) => ...))] for
    the batch whose first item has index [base]. *)
Definition allSettled (base : nat) (batch : list (option Countries.t))
  (s : RunState) : list PromiseSettledResult * RunState :=
  let tasks := map start batch in
  let (ts, s1) := run_schedule (sched base) base tasks (launched base batch s) in
  let (ts', s2) := drain base ts s1 in
  (map result_of ts', s2).

(** [generateSummaryImage] when no other task acts between its three
    awaited calls: the count, the query of the top five and the write
    of the file. *)
Definition generateSummaryImage (now : nat) (w : World) : Result World :=
  let totalCountries := Prisma.count (db w) in
  match Prisma.findMany nulls_largest (db w) Prisma.no_filter
          (Some Prisma.desc) (Some 5) with
  | Ok topCountries =>
      let svgContent :=
        generateSVG totalCountries (map select_top topCountries) now in
      Ok (mkWorld (db w) (Some svgContent))
  | Throw err => Throw err
  end.

(** The line [Batch complete [Created, Updated, Failed]] of the log. *)
Record BatchLog := mkLog {
  batchCreated : nat;
  batchUpdated : nat;
  batchFailed : nat
}.

Definition has_status (st : Status) (r : PromiseSettledResult) : bool :=
  match r with
  | fulfilled value =>
      match status value, st with
      | St_created, St_created => true
      | St_updated, St_updated => true
      | St_failed, St_failed => true
      | _, _ => false
      end
  | rejected _ => false
  end.

Definition is_rejected (r : PromiseSettledResult) : bool :=
  match r with
  | rejected _ => true
  | fulfilled _ => false
  end.

Definition count_if {A} (p : A -> bool) (l : list A) : nat :=
  List.length (filter p l).

(** The variables of the loop of [uploadCountry] and, for the proofs,
    the batches it has sliced, their settled results and log lines. *)
Record LoopState := mkLoop {
  run : RunState;
  processed : nat;
  sliced : list (list (option Countries.t));
  results : list PromiseSettledResult;
  logs : list BatchLog
}.

(** The body of the loop for the batch that starts at index [i]. *)
Definition iteration (i : nat) (data : list (option Countries.t)) (l : LoopState)
  : LoopState :=
  let batch := slice i (i + batchSize) data in
  let (batchResults, s') := allSettled i batch (run l) in
  let log :=
    mkLog (count_if (has_status St_created) batchResults)
          (count_if (has_status St_updated) batchResults)
          (count_if is_rejected batchResults) in
  mkLoop s' (processed l + List.length batch)
         (sliced l ++ [batch])
         (results l ++ batchResults) (logs l ++ [log]).

(** [for (let i = 0; i < data.length; i += batchSize)], from index [i];
    [List.length data] iterations are enough. *)
Fixpoint loop (fuel i : nat) (data : list (option Countries.t)) (l : LoopState)
  : LoopState :=
  match fuel with
  | 0 => l
  | S fuel' =>
      if i <? List.length data then
        loop fuel' (i + batchSize) data (iteration i data l)
      else l
  end.

(** [await this.axios.get(this.api_countries)] *)
Definition fetch (src : SourceOutcome) : Result Payload :=
  match src with
  | SrcTimeout => Throw (AxiosError "timeout of 10000ms exceeded")
  | SrcNetworkError => Throw (AxiosError "Network Error")
  | SrcResponse status body =>
      if (200 <=? status) && (status <? 300) then Ok body
      else Throw (AxiosError "Request failed with status code")
  end.

(** An object literal whose properties are counters. *)
Definition JsObject := list (string * nat).

Definition prop (o : JsObject) (key : string) : option nat :=
  match find (fun kv => String.eqb (fst kv) key) o with
  | Some kv => Some (snd kv)
  | None => None
  end.

(** The [try] block of [uploadCountry]. *)
Definition uploadCountry_try (src : SourceOutcome) (s : RunState)
  : Result JsObject * LoopState :=
  let l0 := mkLoop s 0 [] [] [] in
  if negb (truthy api_countries) then
    (Throw (HttpException "COUNTRY_DATA_API is not defined" INTERNAL_SERVER_ERROR), l0)
  else
    let fetched :=
      match fetch src with
      | Ok data => Ok data
      | Throw apiErr =>
          Throw (HttpException "External data source unavailable"
                               SERVICE_UNAVAILABLE)
      end in
    match fetched with
    | Throw err => (Throw err, l0)
    | Ok PNotArray =>
        (Throw (JsError "Invalid API response: expected array"), l0)
    | Ok (PArray data) =>
        let l := loop (List.length data) 0 data l0 in
        (Ok [("created", created (run l));
             ("updated", updated (run l));
             ("total", processed l)], l)
    end.

(** What a run leaves behind: the value or exception of the call, the
    store and the cache file, and, for the proofs, the events, the
    batches, the settled results of all batches and the logged batch
    counters. *)
Record Outcome := mkOutcome {
  returned : Result JsObject;
  final : World;
  events : list Event;
  batches : list (list (option Countries.t));
  batchResults : list PromiseSettledResult;
  batchLogs : list BatchLog
}.

Definition uploadCountry (src : SourceOutcome) (w : World) : Outcome :=
  let (r, l) := uploadCountry_try src (mkRun w 0 0 []) in
  let r' :=
    match r with
    | Ok o => Ok o
    | Throw err =>
        Throw (HttpException "Failed to upload countries" INTERNAL_SERVER_ERROR)
    end in
  mkOutcome r' (world (run l)) (trace (run l)) (sliced l) (results l) (logs l).

(** The generic [catch] of the read and delete operations. *)
Definition rethrow {A} (error : Exn) : Result A :=
  if instanceofHttpException error then Throw error
  else Throw (HttpException "Internal server Error" INTERNAL_SERVER_ERROR).

Definition getSingleCountry (name : string) (w : World) : Result Country.t :=
  match Prisma.findFirst (db w) name with
  | Some data => Ok data
  | None => rethrow (NotFoundException "Country not Found")
  end.

(** [db.country.delete] resolves to the deleted row. *)
Definition deleteCountry (name : string) (w : World)
  : Result (option Country.t) * World :=
  match Prisma.delete (db w) name with
  | Ok (deleted, tb) => (Ok (Some deleted), mkWorld tb (summary_png w))
  | Throw error => (rethrow error, w)
  end.

Definition sort_filter (sort : option string) : option string :=
  match sort with
  | Some x =>
      if String.eqb x "gdp_asc" then Some "asc"
      else if String.eqb x "gdp_desc" then Some "desc"
      else None
  | None => None
  end.

Definition order_of (sort : option string) : option Prisma.SortOrder :=
  match sort with
  | Some x =>
      if String.eqb x "asc" then Some Prisma.asc
      else if String.eqb x "desc" then Some Prisma.desc
      else None
  | None => None
  end.

Definition getAllCountries (region currency sort : option string) (w : World)
  : Result (list Country.t) :=
  if negb (truthy region) && negb (truthy currency) && negb (truthy sort) then
    match Prisma.findMany nulls_largest (db w) Prisma.no_filter None None with
    | Ok all => Ok all
    | Throw error => rethrow error
    end
  else
    let filters :=
      Prisma.mkWhere
        (match region with
         | Some r => if truthy region then Some (capitalizeFirstWord r) else None
         | None => None
         end)
        (match currency with
         | Some c => if truthy currency then Some (toUpperCase c) else None
         | None => None
         end)
        (sort_filter sort) in
    match Prisma.findMany nulls_largest (db w) filters
            (order_of (Prisma.w_sort filters)) None with
    | Ok [] => rethrow (NotFoundException "Country not found")
    | Ok country => Ok country
    | Throw error => rethrow error
    end.

Definition getStatus (now : nat) (w : World) : nat * nat :=
  (Prisma.count (db w), now).

Definition getSummaryImage (w : World) : Result Svg :=
  match summary_png w with
  | None => rethrow (NotFoundException "Summary image not found")
  | Some image => Ok image
  end.

End Service.

End CountriesService.

Module CountriesController.

Definition uploadCountry := CountriesService.uploadCountry.

Definition getSingleCountry (name : string) (w : World) : Result Country.t :=
  let formattedName := toLowerCase name in
  CountriesService.getSingleCountry formattedName w.

Definition getAllCount := CountriesService.getAllCountries.

Definition deleteCountry (name : string) (w : World) : Result string * World :=
  match CountriesService.deleteCountry name w with
  | (Ok deleted, w') =>
      match deleted with
      | None =>
          (Throw (NotFoundException ("Country with Name " ++ name ++ " not found")%string), w')
      | Some _ => (Ok "Country deleted successfully", w')
      end
  | (Throw error, w') => (Throw error, w')
  end.

End CountriesController.

Import CountriesService.

(** ** Measures and invariants of the proofs *)

(** An upper bound on the awaited calls a task still has to perform. *)
Definition remaining (t : Task) : nat :=
  match t with
  | AwaitFind _ => 6
  | AwaitRate _ _ => 5
  | AwaitUpdate _ _ _ => 4
  | AwaitCreate _ _ => 4
  | AwaitCreateInvalid _ _ => 4
  | AwaitCount _ _ => 3
  | AwaitTop _ _ _ => 2
  | AwaitFile _ _ _ => 1
  | Settled _ => 0
  end.

(** The exceptions of the three awaited calls of [generateSummaryImage]. *)
Definition render_error (e : Exn) : bool :=
  match e with
  | Fault SCount | Fault STop | Fault SFile => true
  | _ => false
  end.

(** Whether the task has incremented [created] or [updated]. *)
Definition counted (t : Task) : nat :=
  match t with
  | AwaitCount _ _ | AwaitTop _ _ _ | AwaitFile _ _ _ => 1
  | Settled (fulfilled (result_failed _ e)) => if render_error e then 1 else 0
  | Settled (fulfilled _) => 1
  | _ => 0
  end.

Definition sum_counted (ts : list Task) : nat := list_sum (map counted ts).

Definition tally (s : RunState) : nat := created s + updated s.

(** The item failed before its counter was incremented: in the lookup
    or in the write, or, a [null] item, when its name was read. *)
Definition failed_before_write (r : PromiseSettledResult) : bool :=
  match r with
  | fulfilled (result_failed _ e) => negb (render_error e)
  | fulfilled _ => false
  | rejected _ => true
  end.

(** Every settled task of the batch has its [Settle] event in the trace. *)
Fixpoint settle_logged (base : nat) (ts : list Task) (tr : list Event) : Prop :=
  match ts with
  | [] => True
  | t :: rest =>
      (is_settled t = true -> In (Settle base) tr)
      /\ settle_logged (S base) rest tr
  end.

(** What the actions of the tasks of a batch, whose items have the
    indices [base .. base + length ts - 1], preserve. *)
Definition progress (base : nat) (ts : list Task) (s : RunState)
  (ts' : list Task) (s' : RunState) : Prop :=
  List.length ts' = List.length ts
  /\ tally s' + sum_counted ts = tally s + sum_counted ts'
  /\ List.length (db (world s')) + created s
     = List.length (db (world s)) + created s'
  /\ (exists evs,
        trace s' = trace s ++ evs
        /\ Forall (fun e => base <= ev_item e < base + List.length ts) evs)
  /\ (settle_logged base ts (trace s) -> settle_logged base ts' (trace s')).

(** The order of the batches: the batch of the item of [a] is not after
    the batch of the item of [b]. *)
Definition batch_le (a b : Event) : Prop :=
  ev_item a / batchSize <= ev_item b / batchSize.

(** What the loop of [uploadCountry] maintains, [s0] being the state at
    its entry and [i] its index. *)
Definition loop_inv (data : list (option Countries.t)) (s0 : RunState) (i : nat)
  (l : LoopState) : Prop :=
  i = batchSize * List.length (sliced l)
  /\ List.concat (sliced l) = firstn i data
  /\ (forall k, k < List.length (sliced l) ->
        k * batchSize < List.length data
        /\ nth k (sliced l) []
           = slice (k * batchSize) (k * batchSize + batchSize) data)
  /\ processed l = List.length (firstn i data)
  /\ List.length (results l) = processed l
  /\ tally (run l) + count_if failed_before_write (results l)
     = tally s0 + processed l
  /\ List.length (db (world (run l))) + created s0
     = List.length (db (world s0)) + created (run l)
  /\ (exists evs,
        trace (run l) = trace s0 ++ evs
        /\ Forall (fun e => ev_item e < i) evs
        /\ StronglySorted batch_le evs)
  /\ (forall k, k < processed l -> In (Settle k) (trace (run l))).

(** The task has written its row and is rendering the report, or has settled. *)
Definition rendering (t : Task) : bool :=
  match t with
  | AwaitCount _ _ | AwaitTop _ _ _ | AwaitFile _ _ _ | Settled _ => true
  | _ => false
  end.

(** The multiplier of the update path, [r] being the value of [Math.random()]. *)
Definition update_multiplier (r : Q) : Z :=
  (Qfloor (r * (2000 - 1000 + 1)) + 1000)%Z.

(** The table after the update of the rows named [n]. *)
Definition overwritten (n : string) (c : Countries.t) (existing : Country.t)
  (gdp : Q) (tb : Prisma.Table) : Prisma.Table :=
  map (fun row => if Prisma.has_name n row
                  then update_data c existing gdp row else row) tb.

(** ** The specification's words *)

(** The resolver as the specification describes it: it never raises; on
    any failure (timeout, transport error, code absent from the
    response) it answers unknown; on success it answers the rate found
    under the requested code. *)
Definition resolves_as_specified (code : string) (o : ExchangeOutcome) : Prop :=
  (exists v, getExchangeRate code o = Ok v)
  /\ (o = ExTimeout \/ o = ExTransportError \/ o = ExResponse None
      \/ (exists rates, o = ExResponse (Some rates)
                        /\ ~ In code (map fst rates)) ->
      getExchangeRate code o = Ok (Rate None))
  /\ (forall rates rate,
        o = ExResponse (Some rates) -> NoDup (map fst rates) ->
        In (code, rate) rates ->
        getExchangeRate code o = Ok (Rate (Some rate))).

(** The region filter as the specification describes it, for every
    region string [r]: every record of the result has the region [r],
    both normalized. *)
Definition region_filter_as_specified (normalize : string -> string)
  (nulls_largest : bool) (r : string) (w : World) : Prop :=
  forall currency sort l,
    getAllCountries nulls_largest (Some r) currency sort w = Ok l ->
    forall c, In c l -> normalize (Country.region c) = normalize r.

(** ** Vocabulary of the further properties *)

(** The counters a run returns; [0] when it throws. *)
Definition created_of (o : Outcome) : nat :=
  match returned o with
  | Ok obj => match prop obj "created" with Some n => n | None => 0 end
  | Throw _ => 0
  end.

Definition updated_of (o : Outcome) : nat :=
  match returned o with
  | Ok obj => match prop obj "updated" with Some n => n | None => 0 end
  | Throw _ => 0
  end.

(** A settled result of a task that keeps the task invariant [I]. *)
Definition kept_result (I : Task -> Prop) (r : PromiseSettledResult) : Prop :=
  exists t, I t /\ is_settled t = true /\ r = result_of t.

(** The settled results of the tasks of a batch, each keeping the
    invariant [I] of the task of its item. *)
Definition kept_results (I : option Countries.t -> Task -> Prop)
  (batch : list (option Countries.t)) (rs : list PromiseSettledResult) : Prop :=
  Forall2 (fun country r => kept_result (I country) r) batch rs.

(** The line of the log computed from such results. *)
Definition kept_log (I : option Countries.t -> Task -> Prop)
  (batch : list (option Countries.t)) (log : BatchLog) : Prop :=
  exists rs, kept_results I batch rs
             /\ log = mkLog (count_if (has_status St_created) rs)
                            (count_if (has_status St_updated) rs)
                            (count_if is_rejected rs).

Definition lower_name (c : Countries.t) : string :=
  toLowerCase (Countries.name c).

Definition names (tb : Prisma.Table) : list string := map Country.name tb.

(** The item a pending task works on. *)
Definition item_of (t : Task) : option Countries.t :=
  match t with
  | AwaitFind c | AwaitUpdate c _ _ | AwaitRate c _ | AwaitCreate c _
  | AwaitCreateInvalid c _
  | AwaitCount c _ | AwaitTop c _ _ | AwaitFile c _ _ => Some c
  | Settled _ => None
  end.

(** The [country] of the object an item task returns. *)
Definition result_country (r : TaskResult) : string :=
  match r with
  | result_updated country | result_created country
  | result_failed country _ => country
  end.

Definition is_null (country : option Countries.t) : bool :=
  match country with
  | None => true
  | Some _ => false
  end.

(** The task of an item: the task of [null] has been rejected; the task
    of a record works on that record and, when it has settled, is
    fulfilled with a result that carries the name of the record. *)
Definition task_of (country : option Countries.t) (t : Task) : Prop :=
  match country with
  | None => exists reason, t = Settled (rejected reason)
  | Some c =>
      match t with
      | Settled (fulfilled value) => result_country value = Countries.name c
      | Settled (rejected _) => False
      | _ => item_of t = Some c
      end
  end.

(** What the entry of an item in the settled results is. *)
Definition entry_of (country : option Countries.t) (r : PromiseSettledResult)
  : Prop :=
  match country with
  | None => exists reason, r = rejected reason
  | Some c =>
      exists value, r = fulfilled value
                    /\ result_country value = Countries.name c
  end.

(** [null] or a number other than [0]. *)
Definition null_or_nonzero (x : option Q) : Prop :=
  match x with
  | Some q => ~ (q == 0)%Q
  | None => True
  end.

(** What every row written by the service satisfies: the name is in
    lower case, a known exchange rate is not [0], and the estimate is
    known whenever the exchange rate is. *)
Definition sound_row (row : Country.t) : Prop :=
  toLowerCase (Country.name row) = Country.name row
  /\ null_or_nonzero (Country.exchange_rate row)
  /\ (Country.estimated_gdp row = None -> Country.exchange_rate row = None).

Definition sound_task (t : Task) : Prop :=
  match t with
  | AwaitUpdate _ existing _ => null_or_nonzero (Country.exchange_rate existing)
  | AwaitCreate _ row => sound_row row
  | _ => True
  end.

(** The pending task does not work on a row named [n]. *)
Definition away_from (n : string) (t : Task) : Prop :=
  forall c, item_of t = Some c -> lower_name c <> n.

(** The task has not passed its lookup: it is about to look its name up,
    or it has failed; the task of a [null] item has been rejected. *)
Definition stopped_at_lookup (country : option Countries.t) (t : Task) : Prop :=
  match country with
  | None => exists reason, t = Settled (rejected reason)
  | Some _ =>
      match t with
      | AwaitFind _ => True
      | Settled (fulfilled (result_failed _ _)) => True
      | _ => False
      end
  end.

(** What the create path gets as exchange rate of an item: the answer
    of the resolver when the item has a first currency with a non-empty
    code, [null] otherwise. *)
Definition resolved (c : Countries.t) (e : ItemEnv) : RateResult :=
  match first_code c with
  | Some code =>
      if truthy (Some code) then
        match getExchangeRate code (exchange e) with
        | Ok rate => rate
        | Throw _ => Rate None
        end
      else Rate None
  | None => Rate None
  end.

(** The row the create path writes for an item whose exchange rate has
    been resolved to [rate]. *)
Definition created_row (c : Countries.t) (e : ItemEnv) (rate : option Q)
  : Country.t :=
  newCountry c (first_code c) rate
             (calculateEstimatedGdp (random e) rate (Countries.population c)).

(** No first currency code of the items is the name of a member of
    [Object.prototype]. *)
Definition plain_codes (data : list Countries.t) : Prop :=
  forall c code, In c data -> first_code c = Some code -> inherited code = false.

(** The rows of the report: the first five in descending order of the
    estimate. *)
Definition top_five (nulls_largest : bool) (tb : Prisma.Table) : list Country.t :=
  firstn 5 (Prisma.sort_rows (Prisma.before nulls_largest Prisma.desc) tb).

(** The report of a store at a time. *)
Definition report_of (nulls_largest : bool) (now : nat) (tb : Prisma.Table) : Svg :=
  generateSVG (Prisma.count tb) (map select_top (top_five nulls_largest tb)) now.

(** The rows a listing with these filters asks for: a filter that is
    absent or the empty string asks for nothing. *)
Definition wanted (region currency : option string) (x : Country.t) : Prop :=
  (forall r, region = Some r -> r <> "" ->
     Country.region x = capitalizeFirstWord r)
  /\ (forall c, currency = Some c -> c <> "" ->
        Country.currency_code x = Some (toUpperCase c)).

(** The lower-cased name of the item has a row in the table. *)
Definition known (tb : Prisma.Table) (c : Countries.t) : bool :=
  match Prisma.findFirst tb (lower_name c) with
  | Some _ => true
  | None => false
  end.

(** The task of item [c] in a run in which nothing fails and no two
    items have the same lower-cased name: [K] tells whether the name had
    a row before the run and [N] are the names of the store now. *)
Definition on_track (K : Countries.t -> bool) (N : list string)
  (c : Countries.t) (t : Task) : Prop :=
  match t with
  | AwaitFind c' =>
      c' = c /\ (In (lower_name c) N <-> K c = true)
  | AwaitUpdate c' _ _ =>
      c' = c /\ K c = true /\ In (lower_name c) N
  | AwaitRate c' code =>
      c' = c /\ K c = false /\ ~ In (lower_name c) N
      /\ first_code c = Some code
  | AwaitCreate c' row =>
      c' = c /\ Country.name row = lower_name c
      /\ K c = false /\ ~ In (lower_name c) N
  | AwaitCreateInvalid _ _ => False
  | AwaitCount c' p | AwaitTop c' p _ | AwaitFile c' p _ =>
      c' = c /\ (p = Was_updated <-> K c = true) /\ In (lower_name c) N
  | Settled r =>
      r = fulfilled (if K c then result_updated (Countries.name c)
                     else result_created (Countries.name c))
      /\ In (lower_name c) N
  end.

(** Whether the task has incremented [created], and [updated]. *)
Definition created_by (t : Task) : nat :=
  match t with
  | AwaitCount _ Was_created | AwaitTop _ Was_created _
  | AwaitFile _ Was_created _ => 1
  | Settled (fulfilled (result_created _)) => 1
  | _ => 0
  end.

Definition updated_by (t : Task) : nat :=
  match t with
  | AwaitCount _ Was_updated | AwaitTop _ Was_updated _
  | AwaitFile _ Was_updated _ => 1
  | Settled (fulfilled (result_updated _)) => 1
  | _ => 0
  end.

(** The tasks [ts] of the items [cs] go from the state [s] to [ts'] and
    [s'] on track: the store gains only names of the items, and the
    counters grow by what the tasks have counted. *)
Definition advance (K : Countries.t -> bool) (cs : list Countries.t)
  (ts : list Task) (s : RunState) (ts' : list Task) (s' : RunState) : Prop :=
  (exists extra,
     names (db (world s')) = names (db (world s)) ++ extra
     /\ Forall (fun n => In n (map lower_name cs)) extra)
  /\ Forall2 (on_track K (names (db (world s')))) cs ts'
  /\ created s' + list_sum (map created_by ts)
     = created s + list_sum (map created_by ts')
  /\ updated s' + list_sum (map updated_by ts)
     = updated s + list_sum (map updated_by ts').

(** What the result of the task of an item is when nothing fails. *)
Definition expected_result (K : Countries.t -> bool) (c : Countries.t)
  : PromiseSettledResult :=
  fulfilled (if K c then result_updated (Countries.name c)
             else result_created (Countries.name c)).

(** What the loop maintains in a run in which nothing fails and no two
    items have the same lower-cased name, [tb0] being the table before
    the run: the store has gained only names of the items processed, the
    results are the expected ones, and the counters count the items that
    were not, and that were, in the table before. *)
Definition loop_on_track (tb0 : Prisma.Table) (data : list Countries.t)
  (i : nat) (l : LoopState) : Prop :=
  (exists extra,
     names (db (world (run l))) = names tb0 ++ extra
     /\ Forall (fun n => In n (map lower_name (firstn i data))) extra)
  /\ results l = map (expected_result (known tb0)) (firstn i data)
  /\ created (run l)
     = count_if (fun c => negb (known tb0 c)) (firstn i data)
  /\ updated (run l) = count_if (known tb0) (firstn i data)
  /\ (forall c, In c (firstn i data) ->
        In (lower_name c) (names (db (world (run l))))).

(** The known exchange rate and the known estimate of the row are not
    negative. *)
Definition nonneg_row (row : Country.t) : Prop :=
  (forall q, Country.exchange_rate row = Some q -> (0 <= q)%Q)
  /\ (forall g, Country.estimated_gdp row = Some g -> (0 <= g)%Q).

Definition nonneg_task (t : Task) : Prop :=
  match t with
  | AwaitFind c | AwaitRate c _ => (0 <= Countries.population c)%Q
  | AwaitUpdate _ existing gdp =>
      (0 <= gdp)%Q
      /\ (forall q, Country.exchange_rate existing = Some q -> (0 <= q)%Q)
  | AwaitCreate _ row => nonneg_row row
  | _ => True
  end.

(** The exchange source answers with rates that are not negative. *)
Definition nonneg_rates (o : ExchangeOutcome) : Prop :=
  match o with
  | ExResponse (Some rates) => Forall (fun kv => (0 <= snd kv)%Q) rates
  | _ => True
  end.

(** ** Vocabulary of the update path *)

(** Every task of a batch, whose first item has index [base], keeps
    [J] in the state [s]. *)
Definition each_task (J : nat -> Task -> RunState -> Prop) (base : nat)
  (ts : list Task) (s : RunState) : Prop :=
  forall k t, nth_error ts k = Some t -> J (base + k) t s.

(** The fields an update leaves as they are. *)
Definition same_kept (a b : Country.t) : Prop :=
  Country.name a = Country.name b
  /\ Country.currency_code a = Country.currency_code b
  /\ Country.exchange_rate a = Country.exchange_rate b
  /\ Country.flag_url a = Country.flag_url b.

(** An estimate of the update path: population x rate x the multiplier
    of the update path drawn by one of the tasks, an unknown rate
    counting as 0. *)
Definition update_estimate (env : nat -> ItemEnv) (population : Q)
  (rate : option Q) (gdp : Q) : Prop :=
  exists j,
    gdp = (population * or_zero rate
           * inject_Z (update_multiplier (random (env j))))%Q.

(** [row] is the row [existing] as the update of an item of the dataset,
    of the name of [existing], leaves it. *)
Definition written_by (env : nat -> ItemEnv)
  (data : list (option Countries.t)) (existing row : Country.t) : Prop :=
  exists (writer : Countries.t) (gdp : Q),
    In (Some writer) data
    /\ lower_name writer = Country.name existing
    /\ update_estimate env (Countries.population writer)
                       (Country.exchange_rate existing) gdp
    /\ row = update_data writer existing gdp existing.

(** The name of [existing] has, in the table, the row [existing] or
    what an update has left of it. *)
Definition reached (env : nat -> ItemEnv) (data : list (option Countries.t))
  (existing : Country.t) (tb : Prisma.Table) : Prop :=
  exists row,
    Prisma.findFirst tb (Country.name existing) = Some row
    /\ (row = existing \/ written_by env data existing row).

Definition written (env : nat -> ItemEnv) (data : list (option Countries.t))
  (existing : Country.t) (tb : Prisma.Table) : Prop :=
  exists row,
    Prisma.findFirst tb (Country.name existing) = Some row
    /\ written_by env data existing row.

(** What every task keeps: its item is an item of the dataset, the row
    it creates has the lower-cased name of its item, and the update it
    is about to write of the name of [existing] carries the kept fields
    of [existing] and an estimate of the update path. *)
Definition updating (env : nat -> ItemEnv) (data : list (option Countries.t))
  (existing : Country.t) (t : Task) : Prop :=
  (forall c, item_of t = Some c -> In (Some c) data)
  /\ match t with
     | AwaitUpdate c ex gdp =>
         lower_name c = Country.name existing ->
         same_kept ex existing
         /\ update_estimate env (Countries.population c)
                            (Country.exchange_rate ex) gdp
     | AwaitCreate c row => Country.name row = lower_name c
     | _ => True
     end.

(** The task of the item [c], of index [i0], whose lower-cased name is
    the name of [existing]: it takes the update path, and once it has
    written, the row is an updated one and the counter of the updates
    has been incremented. *)
Definition update_track (env : nat -> ItemEnv)
  (data : list (option Countries.t)) (i0 : nat)
  (c : Countries.t) (existing : Country.t) (i : nat) (t : Task)
  (s : RunState) : Prop :=
  updating env data existing t
  /\ (i = i0 ->
      match t with
      | AwaitFind c' | AwaitUpdate c' _ _ => c' = c
      | AwaitCount c' p | AwaitTop c' p _ | AwaitFile c' p _ =>
          c' = c /\ p = Was_updated
          /\ written env data existing (db (world s))
          /\ In (Call i0 SWrite) (trace s)
          /\ 1 <= updated s
      | Settled r =>
          (r = fulfilled (result_updated (Countries.name c))
           \/ exists e, render_error e = true
                        /\ r = fulfilled (result_failed (Countries.name c) e))
          /\ written env data existing (db (world s))
          /\ In (Call i0 SWrite) (trace s)
          /\ 1 <= updated s
      | _ => False
      end).

(** The state of such a run: the name of [existing] has its row, and
    the item of index [i0] has not asked for an exchange rate. *)
Definition update_state (env : nat -> ItemEnv)
  (data : list (option Countries.t)) (i0 : nat)
  (existing : Country.t) (s : RunState) : Prop :=
  reached env data existing (db (world s))
  /\ ~ In (Call i0 SRate) (trace s).

(** The row a task creates has the lower-cased name of its item. *)
Definition creates_named (t : Task) : Prop :=
  match t with
  | AwaitCreate c row => Country.name row = lower_name c
  | _ => True
  end.

(** The name [n] has a row of unknown exchange rate whose estimate is
    the number 0. *)
Definition zero_gdp (n : string) (tb : Prisma.Table) : Prop :=
  exists row gdp,
    Prisma.findFirst tb n = Some row
    /\ Country.estimated_gdp row = Some gdp
    /\ (gdp == 0)%Q
    /\ Country.exchange_rate row = None.

(** The update of the name [n] a task is about to write carries the
    unknown rate and the estimate 0. *)
Definition zero_task (n : string) (t : Task) : Prop :=
  match t with
  | AwaitUpdate c ex gdp =>
      lower_name c = n -> Country.exchange_rate ex = None /\ (gdp == 0)%Q
  | _ => True
  end.

(** A later run: its configuration, outside world, schedule and the
    answer of the source. *)
Record Rerun := mkRerun {
  again_api : option string;
  again_env : nat -> ItemEnv;
  again_sched : nat -> list nat;
  again_src : SourceOutcome
}.

(** The world after the runs [later], one after the other. *)
Fixpoint after_runs (nulls_largest : bool) (later : list Rerun) (w : World)
  : World :=
  match later with
  | [] => w
  | r :: rest =>
      after_runs nulls_largest rest
        (final (uploadCountry (again_api r) nulls_largest (again_env r)
                  (again_sched r) (again_src r) w))
  end.

(** ** Sample data *)

Module Sample.

Definition eur : CurrencyData.t := CurrencyData.mk "EUR" "Euro" "E".

(** The item of the scenarios of the specification. *)
Definition aland : Countries.t :=
  Countries.mk "Aland" "Mariehamn" "Europe" (30000 # 1) (Some [eur]) "ax.svg" "false".

Definition nigeria : Country.t :=
  Country.mk "nigeria" "Abuja" "Africa" (206139589 # 1) (Some "NGN")
             (Some (1600 # 1)%Q) (Some (25 # 1)%Q) "ng.svg".

Definition france : Country.t :=
  Country.mk "france" "Paris" "Europe" (67391582 # 1) (Some "EUR")
             (Some (11 # 10)%Q) (Some (90 # 1)%Q) "fr.svg".

(** A row whose exchange rate and estimate are unknown. *)
Definition aland_row : Country.t :=
  Country.mk "aland" "Mariehamn" "Europe" (30000 # 1) (Some "EUR") None None "ax.svg".

Definition ngn : CurrencyData.t := CurrencyData.mk "NGN" "Naira" "N".

(** An item whose lower-cased name is the name of the row [nigeria]. *)
Definition nigeria_item : Countries.t :=
  Countries.mk "Nigeria" "Lagos" "West Africa" (210000000 # 1) (Some [ngn])
               "new.svg" "true".

Definition url : string := "https://restcountries.example/all".

Definition empty : World := mkWorld [] None.

Definition one_unknown : World := mkWorld [aland_row] None.

Definition two_rows : World := mkWorld [nigeria; france] None.

(** An outside world without faults: the exchange source answers [o],
    [Math.random()] gives [r]. *)
Definition calm (o : ExchangeOutcome) (r : Q) : nat -> ItemEnv :=
  fun _ => mkEnv (fun _ => false) o r 0.

(** An outside world in which the awaited call of stage [st] fails. *)
Definition faulty (st : Stage) (o : ExchangeOutcome) (r : Q) : nat -> ItemEnv :=
  fun _ =>
    mkEnv (fun x => match x, st with
                    | SFind, SFind | SRate, SRate | SWrite, SWrite
                    | SCount, SCount | STop, STop | SFile, SFile => true
                    | _, _ => false
                    end) o r 0.

Definition no_schedule : nat -> list nat := fun _ => [].

(** Both tasks of a batch of two look up their name before either writes. *)
Definition lookups_first : nat -> list nat := fun _ => [0; 1].

Definition twelve : list (option Countries.t) := repeat (Some aland) 12.

(** An item whose first currency code is the name of a method of every
    object. *)
Definition oddland : Countries.t :=
  Countries.mk "Oddland" "Odd" "Europe" (1000 # 1)
               (Some [CurrencyData.mk "constructor" "Odd" "O"]) "odd.svg" "true".

End Sample.

(** * Properties *)

(** ** Letter case *)

Lemma toUpperChar_idem (c : ascii) : toUpperChar (toUpperChar c) = toUpperChar c.
Proof. destruct c as [[] [] [] [] [] [] [] []]; reflexivity. Qed.

Lemma toLowerChar_upper (c : ascii) : toLowerChar (toUpperChar c) = toLowerChar c.
Proof. destruct c as [[] [] [] [] [] [] [] []]; reflexivity. Qed.

Lemma capitalizeFirstWord_idem (s : string) :
  capitalizeFirstWord (capitalizeFirstWord s) = capitalizeFirstWord s.
Proof.
  destruct s as [|c rest]; simpl; [reflexivity|].
  now rewrite toUpperChar_idem.
Qed.

Lemma toLowerCase_capitalize (s : string) :
  toLowerCase (capitalizeFirstWord s) = toLowerCase s.
Proof.
  destruct s as [|c rest]; simpl; [reflexivity|].
  unfold toLowerCase; simpl. now rewrite toLowerChar_upper.
Qed.

Lemma truthy_nonempty (r : string) : r <> "" -> truthy (Some r) = true.
Proof. destruct r; [congruence | reflexivity]. Qed.

(** ** The exchange-rate resolver *)

Lemma or_null_nonzero (q : Q) : ~ (q == 0)%Q -> or_null (Some q) = Some q.
Proof.
  intros H. unfold or_null.
  destruct (Qeq_bool q 0) eqn:E; [|reflexivity].
  apply Qeq_bool_iff in E. contradiction.
Qed.

Lemma or_null_zero (q : Q) : (q == 0)%Q -> or_null (Some q) = None.
Proof.
  intros H. unfold or_null. apply Qeq_bool_iff in H. now rewrite H.
Qed.

(** The table of rates is an object: a key has one value. *)
Lemma find_own_key (code : string) (rates : list (string * Q)) (rate : Q) :
  NoDup (map fst rates) -> In (code, rate) rates ->
  find (fun kv => String.eqb (fst kv) code) rates = Some (code, rate).
Proof.
  induction rates as [|[k v] rates IH]; simpl; intros Hnd Hin; [destruct Hin|].
  inversion Hnd as [|? ? Hnotin Hnd']; subst.
  destruct Hin as [[= -> ->] | Hin].
  - now rewrite String.eqb_refl.
  - destruct (String.eqb_spec k code) as [-> | Hne]; [|auto].
    exfalso. apply Hnotin. apply in_map_iff. exists (code, rate). auto.
Qed.

Lemma find_absent_key (code : string) (rates : list (string * Q)) :
  ~ In code (map fst rates) ->
  find (fun kv => String.eqb (fst kv) code) rates = None.
Proof.
  induction rates as [|[k v] rates IH]; simpl; intros Hout; [reflexivity|].
  destruct (String.eqb_spec k code) as [-> | Hne].
  - exfalso. apply Hout. now left.
  - apply IH. intros Hin. apply Hout. now right.
Qed.

(** C8. [getExchangeRate] never raises: whatever the external call does
    it returns a value.  The value is unknown on a timeout, on a
    transport error and on a body without rates.  On a body with rates
    (an object: a key has one value) it is the rate under the requested
    code when that rate is not [0], and unknown when it is [0]; when the
    code is absent from the rates it is unknown, unless the code is the
    name of a member of [Object.prototype]: then it is that member,
    neither unknown nor a number. *)
Theorem getExchangeRate_never_raises (currency_code : string) (o : ExchangeOutcome) :
  (exists v, getExchangeRate currency_code o = Ok v)
  /\ (o = ExTimeout \/ o = ExTransportError \/ o = ExResponse None ->
      getExchangeRate currency_code o = Ok (Rate None))
  /\ (forall rates,
        o = ExResponse (Some rates) -> NoDup (map fst rates) ->
        (forall rate, In (currency_code, rate) rates -> ~ (rate == 0)%Q ->
           getExchangeRate currency_code o = Ok (Rate (Some rate)))
        /\ (forall rate, In (currency_code, rate) rates -> (rate == 0)%Q ->
              getExchangeRate currency_code o = Ok (Rate None))
        /\ (~ In currency_code (map fst rates) ->
            inherited currency_code = false ->
            getExchangeRate currency_code o = Ok (Rate None))
        /\ (~ In currency_code (map fst rates) ->
            inherited currency_code = true ->
            getExchangeRate currency_code o = Ok (Member currency_code))).
Proof.
  split; [|split].
  - unfold getExchangeRate.
    destruct (getExchangeRate_try currency_code o); eauto.
  - intros [-> | [-> | ->]]; reflexivity.
  - intros rates -> Hnd.
    unfold getExchangeRate, getExchangeRate_try, lookup_rate.
    split; [|split; [|split]].
    + intros rate Hin Hnz. rewrite (find_own_key _ _ _ Hnd Hin).
      cbn [property_or_null snd]. now rewrite or_null_nonzero.
    + intros rate Hin Hz. rewrite (find_own_key _ _ _ Hnd Hin).
      cbn [property_or_null snd]. now rewrite or_null_zero.
    + intros Hout Hinh. now rewrite (find_absent_key _ _ Hout), Hinh.
    + intros Hout Hinh. now rewrite (find_absent_key _ _ Hout), Hinh.
Qed.

Lemma getExchangeRate_never_raises_witness :
  getExchangeRate "EUR" (ExResponse (Some [("USD", 1%Q); ("EUR", (11 # 10)%Q)]))
  = Ok (Rate (Some (11 # 10)%Q))
  /\ getExchangeRate "EUR" ExTimeout = Ok (Rate None).
Proof.
  split.
  - apply (proj1 (proj2 (proj2 (getExchangeRate_never_raises "EUR"
             (ExResponse (Some [("USD", 1%Q); ("EUR", (11 # 10)%Q)]))))
             [("USD", 1%Q); ("EUR", (11 # 10)%Q)] eq_refl
             ltac:(repeat constructor; simpl; intuition discriminate))
             (11 # 10)%Q).
    + simpl. right. left. reflexivity.
    + discriminate.
  - apply (proj1 (proj2 (getExchangeRate_never_raises "EUR" ExTimeout))).
    left; reflexivity.
Defined.

(** C8, where the specification's words fail.  A rate of [0] found
    under the requested code is answered as unknown, not as the rate
    found; and for the code [constructor], absent from the response, the
    answer is the method of that name, not unknown. *)
Lemma getExchangeRate_never_raises_counterexample :
  getExchangeRate "EUR" (ExResponse (Some [("EUR", 0%Q)])) = Ok (Rate None)
  /\ ~ resolves_as_specified "EUR" (ExResponse (Some [("EUR", 0%Q)]))
  /\ getExchangeRate "constructor" (ExResponse (Some [("EUR", (11 # 10)%Q)]))
     = Ok (Member "constructor")
  /\ ~ resolves_as_specified "constructor"
        (ExResponse (Some [("EUR", (11 # 10)%Q)])).
Proof.
  split; [reflexivity|]. split; [|split; [reflexivity|]].
  - intros (_ & _ & Hfound).
    specialize (Hfound [("EUR", 0%Q)] 0%Q eq_refl).
    assert (H : getExchangeRate "EUR" (ExResponse (Some [("EUR", 0%Q)]))
                = Ok (Rate (Some 0%Q))).
    { apply Hfound; [repeat constructor; simpl; tauto | now left]. }
    discriminate H.
  - intros (_ & Habsent & _).
    assert (H : getExchangeRate "constructor"
                  (ExResponse (Some [("EUR", (11 # 10)%Q)])) = Ok (Rate None)).
    { apply Habsent. right. right. right. eexists. split; [reflexivity|].
      simpl. intros [H | []]. discriminate H. }
    discriminate H.
Qed.

(** ** Listing and deleting *)

Lemma findMany_unsorted_In (nulls_largest : bool) (tb : Prisma.Table)
  (w : Prisma.Where) (l : list Country.t) (c : Country.t) :
  Prisma.findMany nulls_largest tb w (order_of (Prisma.w_sort w)) None = Ok l ->
  In c l -> Prisma.matches w c = true.
Proof.
  unfold Prisma.findMany. destruct (Prisma.w_sort w) eqn:Hs; [discriminate|].
  simpl. intros [= <-] Hin. now apply filter_In in Hin.
Qed.

Lemma region_unmatched (nulls_largest : bool) (r : string)
  (currency sort : option string) (w : World) :
  r <> "" ->
  (forall row, In row (db w) -> Country.region row <> capitalizeFirstWord r) ->
  sort_filter sort = None ->
  getAllCountries nulls_largest (Some r) currency sort w
  = Throw (NotFoundException "Country not found").
Proof.
  intros Hr Hnone Hsort. unfold getAllCountries.
  rewrite (truthy_nonempty r Hr), Hsort. cbn [negb andb].
  unfold Prisma.findMany. cbn [Prisma.w_sort order_of].
  match goal with
  | |- context [filter ?p (db w)] =>
      assert (Hf : filter p (db w) = [])
  end.
  { induction (db w) as [|row tb IH]; [reflexivity|]. simpl.
    assert (Hrow : Country.region row <> capitalizeFirstWord r)
      by (apply Hnone; now left).
    unfold Prisma.matches at 1. cbn [Prisma.w_region Prisma.opt_equals].
    destruct (String.eqb_spec (Country.region row) (capitalizeFirstWord r));
      [contradiction|].
    simpl. apply IH. intros row' Hin. apply Hnone. now right. }
  rewrite Hf. reflexivity.
Qed.

(** C4. When [getAllCountries] is given a region filter [r] that is
    not the empty string, every record it returns has the region
    [capitalizeFirstWord r]; so its region, normalized by
    [capitalizeFirstWord] or by lower-casing, equals [r] normalized the
    same way.  Only the first letter is normalized: when no row of the
    store has the region [capitalizeFirstWord r] (as for [AFRICA] in a
    store that holds [Africa]), the result is not a list but the
    not-found exception. *)
Theorem getAllCountries_region_filter (nulls_largest : bool) (r : string)
  (currency sort : option string) (w : World) :
  r <> "" ->
  (forall l,
     getAllCountries nulls_largest (Some r) currency sort w = Ok l ->
     forall c, In c l ->
       Country.region c = capitalizeFirstWord r
       /\ capitalizeFirstWord (Country.region c) = capitalizeFirstWord r
       /\ toLowerCase (Country.region c) = toLowerCase r)
  /\ ((forall row, In row (db w) ->
         Country.region row <> capitalizeFirstWord r) ->
      sort_filter sort = None ->
      getAllCountries nulls_largest (Some r) currency sort w
      = Throw (NotFoundException "Country not found")).
Proof.
  intros Hr. split; [|apply region_unmatched; exact Hr].
  intros l Hget c Hin.
  assert (Hreg : Country.region c = capitalizeFirstWord r).
  { unfold getAllCountries in Hget.
    rewrite (truthy_nonempty r Hr) in Hget. simpl negb in Hget.
    cbv beta iota in Hget. simpl andb in Hget. cbv iota in Hget.
    match type of Hget with
    | match Prisma.findMany ?n ?tb ?f ?o None with _ => _ end = _ =>
        destruct (Prisma.findMany n tb f o None) as [rows|e] eqn:Hfm
    end.
    - destruct rows as [|row rows]; [discriminate|].
      injection Hget as <-.
      apply (findMany_unsorted_In _ _ _ _ c) in Hfm; [|exact Hin].
      unfold Prisma.matches in Hfm. apply andb_prop in Hfm as [Hm _].
      simpl in Hm. now apply String.eqb_eq in Hm.
    - unfold rethrow in Hget. destruct (instanceofHttpException e); discriminate. }
  rewrite Hreg. split; [reflexivity|]. split.
  - apply capitalizeFirstWord_idem.
  - apply toLowerCase_capitalize.
Qed.

Lemma getAllCountries_region_filter_witness :
  (Country.region Sample.nigeria = capitalizeFirstWord "africa"
   /\ capitalizeFirstWord (Country.region Sample.nigeria)
      = capitalizeFirstWord "africa"
   /\ toLowerCase (Country.region Sample.nigeria) = toLowerCase "africa")
  /\ getAllCountries true (Some "AFRICA") None None Sample.two_rows
     = Throw (NotFoundException "Country not found").
Proof.
  split.
  - apply (proj1 (getAllCountries_region_filter true "africa" None None
                    Sample.two_rows ltac:(discriminate)) [Sample.nigeria]).
    + reflexivity.
    + left; reflexivity.
  - apply (proj2 (getAllCountries_region_filter true "AFRICA" None None
                    Sample.two_rows ltac:(discriminate))).
    + intros row [<- | [<- | []]]; discriminate.
    + reflexivity.
Defined.

(** C4, at the empty region string.  [GET /countries?region=] gives the
    empty string, which [if (region)] takes as no filter: the listing
    returns the rows of every region, none of which is the empty region
    under either normalization. *)
Lemma getAllCountries_region_filter_counterexample :
  getAllCountries true (Some "") None None Sample.two_rows
  = Ok [Sample.nigeria; Sample.france]
  /\ ~ region_filter_as_specified toLowerCase true "" Sample.two_rows
  /\ ~ region_filter_as_specified capitalizeFirstWord true "" Sample.two_rows.
Proof.
  split; [reflexivity|]. split; intros H.
  - specialize (H None None _ eq_refl Sample.france (or_intror (or_introl eq_refl))).
    discriminate H.
  - specialize (H None None _ eq_refl Sample.france (or_intror (or_introl eq_refl))).
    discriminate H.
Qed.

(** C5. When no row has the name, the
    store rejects the delete, the service turns the rejection into the
    exception of status 500, and the controller passes it on: the
    request fails as an internal error, not as not-found, and the store
    is unchanged. *)
Theorem deleteCountry_missing_internal_error (name : string) (w : World) :
  Prisma.findFirst (db w) name = None ->
  CountriesController.deleteCountry name w
  = (Throw (HttpException "Internal server Error" INTERNAL_SERVER_ERROR), w)
  /\ kindOf (HttpException "Internal server Error" INTERNAL_SERVER_ERROR)
     <> NotFound.
Proof.
  intros Hnone. split; [|discriminate].
  unfold CountriesController.deleteCountry, deleteCountry, Prisma.delete.
  now rewrite Hnone.
Qed.

Lemma deleteCountry_missing_internal_error_witness :
  CountriesController.deleteCountry "atlantis" Sample.two_rows
  = (Throw (HttpException "Internal server Error" INTERNAL_SERVER_ERROR),
     Sample.two_rows)
  /\ kindOf (HttpException "Internal server Error" INTERNAL_SERVER_ERROR)
     <> NotFound.
Proof.
  apply (deleteCountry_missing_internal_error "atlantis" Sample.two_rows).
  reflexivity.
Defined.

(** The other half of the delete: a name that a row has is deleted. *)
Lemma deleteCountry_present (name : string) (w : World) (c : Country.t) :
  Prisma.findFirst (db w) name = Some c ->
  CountriesController.deleteCountry name w
  = (Ok "Country deleted successfully",
     mkWorld (filter (fun c' => negb (Prisma.has_name name c')) (db w))
             (summary_png w))
  /\ Prisma.findFirst
       (filter (fun c' => negb (Prisma.has_name name c')) (db w)) name = None.
Proof.
  intros Hsome. split.
  - unfold CountriesController.deleteCountry, deleteCountry, Prisma.delete.
    now rewrite Hsome.
  - unfold Prisma.findFirst.
    destruct (find (Prisma.has_name name) (filter _ (db w))) as [x|] eqn:Hf;
      [|reflexivity].
    apply find_some in Hf as [Hin Hn].
    apply filter_In in Hin as [_ Hneg]. rewrite Hn in Hneg. discriminate.
Qed.

(** ** The ingestion run *)

(** C2. When the source answers with a
    status outside 200..299 the run throws the exception of status 500
    with the message [Failed to upload countries], an internal error and
    not a source error; the store and the cache file are unchanged and
    no item task has run. *)
Theorem uploadCountry_source_http_error (api_countries : option string)
  (nulls_largest : bool) (env : nat -> ItemEnv) (sched : nat -> list nat)
  (status : nat) (body : Payload) (w : World) :
  status < 200 \/ 300 <= status ->
  returned (uploadCountry api_countries nulls_largest env sched
              (SrcResponse status body) w)
  = Throw (HttpException "Failed to upload countries" INTERNAL_SERVER_ERROR)
  /\ kindOf (HttpException "Failed to upload countries" INTERNAL_SERVER_ERROR)
     = InternalError
  /\ final (uploadCountry api_countries nulls_largest env sched
              (SrcResponse status body) w) = w
  /\ events (uploadCountry api_countries nulls_largest env sched
               (SrcResponse status body) w) = [].
Proof.
  intros Hstatus.
  assert (Hrange : (200 <=? status) && (status <? 300) = false).
  { destruct Hstatus as [H | H].
    - apply andb_false_iff; left. apply Nat.leb_gt. exact H.
    - apply andb_false_iff; right. apply Nat.ltb_ge. exact H. }
  unfold uploadCountry, uploadCountry_try, fetch.
  rewrite Hrange.
  destruct (truthy api_countries); simpl; repeat split; reflexivity.
Qed.

Lemma uploadCountry_source_http_error_witness :
  returned (uploadCountry (Some "https://restcountries.example/all") true
              (Sample.calm ExTimeout 0) Sample.no_schedule
              (SrcResponse 500 PNotArray) Sample.two_rows)
  = Throw (HttpException "Failed to upload countries" INTERNAL_SERVER_ERROR)
  /\ kindOf (HttpException "Failed to upload countries" INTERNAL_SERVER_ERROR)
     = InternalError
  /\ final (uploadCountry (Some "https://restcountries.example/all") true
              (Sample.calm ExTimeout 0) Sample.no_schedule
              (SrcResponse 500 PNotArray) Sample.two_rows) = Sample.two_rows
  /\ events (uploadCountry (Some "https://restcountries.example/all") true
               (Sample.calm ExTimeout 0) Sample.no_schedule
               (SrcResponse 500 PNotArray) Sample.two_rows) = [].
Proof.
  apply (uploadCountry_source_http_error
           (Some "https://restcountries.example/all") true
           (Sample.calm ExTimeout 0) Sample.no_schedule 500 PNotArray
           Sample.two_rows).
  right. lia.
Defined.

(** ** One action of a task *)

Lemma resume_facts (nulls_largest : bool) (e : ItemEnv) (t : Task) (s : RunState) :
  remaining (fst (resume nulls_largest e t s)) <= pred (remaining t)
  /\ tally (snd (resume nulls_largest e t s)) + counted t
     = tally s + counted (fst (resume nulls_largest e t s))
  /\ List.length (db (world (snd (resume nulls_largest e t s)))) + created s
     = List.length (db (world s)) + created (snd (resume nulls_largest e t s))
  /\ trace (snd (resume nulls_largest e t s)) = trace s.
Proof.
  destruct t as [c|c existing gdp|c code|c row|c m|c st|c st n|c st svg|r];
    unfold resume, tally.
  - destruct (fault e SFind); [simpl; repeat split; lia|].
    destruct (Prisma.findFirst _ _); [simpl; repeat split; lia|].
    destruct (first_code c) as [code|]; [|simpl; repeat split; lia].
    destruct (truthy (Some code)); simpl; repeat split; lia.
  - destruct (fault e SWrite); [simpl; repeat split; lia|].
    unfold Prisma.update.
    destruct (Prisma.findFirst _ _); simpl; repeat split; try lia.
    rewrite length_map. lia.
  - unfold getExchangeRate.
    destruct (getExchangeRate_try code (exchange e)) as [[rate|m]|err];
      simpl; repeat split; lia.
  - destruct (fault e SWrite); [simpl; repeat split; lia|].
    unfold Prisma.create.
    destruct (Prisma.findFirst _ _); simpl; repeat split; try lia.
    rewrite length_app. simpl. lia.
  - destruct (fault e SWrite); simpl; repeat split; lia.
  - destruct (fault e SCount); simpl; repeat split; lia.
  - destruct (fault e STop); simpl; repeat split; lia.
  - destruct (fault e SFile); simpl; repeat split; try lia.
    destruct st; simpl; lia.
  - simpl; repeat split; lia.
Qed.

Lemma settle_logged_mono (base : nat) (ts : list Task) (tr evs : list Event) :
  settle_logged base ts tr -> settle_logged base ts (tr ++ evs).
Proof.
  revert base. induction ts as [|t rest IH]; intros base; simpl; [trivial|].
  intros [Hhead Htail]. split.
  - intros Hs. apply in_or_app. left. auto.
  - apply IH. exact Htail.
Qed.

Lemma progress_refl (base : nat) (ts : list Task) (s : RunState) :
  progress base ts s ts s.
Proof.
  unfold progress. split; [|split; [|split; [|split]]]; try lia.
  - exists []. split; [now rewrite app_nil_r | constructor].
  - trivial.
Qed.

Lemma progress_trans (base : nat) (ts ts1 ts2 : list Task) (s s1 s2 : RunState) :
  progress base ts s ts1 s1 -> progress base ts1 s1 ts2 s2 ->
  progress base ts s ts2 s2.
Proof.
  intros (Hl1 & Ht1 & Hd1 & (ev1 & He1 & Hr1) & Hs1)
         (Hl2 & Ht2 & Hd2 & (ev2 & He2 & Hr2) & Hs2).
  unfold progress. split; [|split; [|split; [|split]]]; try lia.
  - exists (ev1 ++ ev2). split.
    + rewrite He2, He1. now rewrite app_assoc.
    + apply Forall_app. split; [exact Hr1|].
      rewrite Hl1 in Hr2. exact Hr2.
  - auto.
Qed.

Lemma progress_cons_tail (base : nat) (t : Task) (rest rest' : list Task)
  (s s' : RunState) :
  progress (S base) rest s rest' s' ->
  progress base (t :: rest) s (t :: rest') s'.
Proof.
  intros (Hl & Ht & Hd & (evs & He & Hr) & Hs).
  unfold progress, sum_counted in *. simpl.
  split; [|split; [|split; [|split]]]; try lia.
  - exists evs. split; [exact He|].
    eapply Forall_impl; [|exact Hr]. simpl. intros a Ha. lia.
  - intros [Hhead Htail]. split.
    + intros Hset. rewrite He. apply in_or_app. left. auto.
    + auto.
Qed.

Lemma progress_cons_head (base : nat) (t t' : Task) (rest : list Task)
  (s s' : RunState) :
  progress base [t] s [t'] s' ->
  progress base (t :: rest) s (t' :: rest) s'.
Proof.
  intros (Hl & Ht & Hd & (evs & He & Hr) & Hs).
  unfold progress, sum_counted in *. simpl in *.
  split; [|split; [|split; [|split]]]; try lia.
  - exists evs. split; [exact He|].
    eapply Forall_impl; [|exact Hr]. simpl. intros a Ha. lia.
  - intros [Hhead Htail]. split.
    + apply Hs. split; [exact Hhead | trivial].
    + rewrite He. apply settle_logged_mono. exact Htail.
Qed.

Lemma stage_of_settled (t : Task) : stage_of t = None <-> is_settled t = true.
Proof. destruct t; simpl; split; intros H; congruence. Qed.

Lemma step_progress (nulls_largest : bool) (env : nat -> ItemEnv) (i : nat)
  (t : Task) (s : RunState) :
  remaining (fst (step nulls_largest env i t s)) <= pred (remaining t)
  /\ progress i [t] s [fst (step nulls_largest env i t s)]
              (snd (step nulls_largest env i t s)).
Proof.
  unfold step.
  pose proof (resume_facts nulls_largest (env i) t s) as (Hrem & Htal & Hdb & Htr).
  destruct (resume nulls_largest (env i) t s) as [t' s'] eqn:Hres.
  simpl in *. split; [exact Hrem|].
  unfold progress, sum_counted, record_events. simpl.
  destruct (stage_of t) as [st|] eqn:Hst.
  - simpl. unfold tally in *. simpl.
    split; [|split; [|split; [|split]]]; try lia.
    + exists (Call i st :: (if is_settled t' then [Settle i] else [])).
      split; [now rewrite Htr|].
      constructor; [simpl; lia|].
      destruct (is_settled t'); repeat constructor; simpl; lia.
    + intros _. split; [|trivial]. intros Hset. rewrite Hset.
      apply in_or_app. right. right. left. reflexivity.
  - split; [|split; [|split; [|split]]]; try lia.
    + exists []. split; [now rewrite app_nil_r | constructor].
    + apply stage_of_settled in Hst. destruct t; try discriminate.
      simpl in Hres. injection Hres as <- <-. trivial.
Qed.

Lemma step_at_progress (nulls_largest : bool) (env : nat -> ItemEnv)
  (ts : list Task) (k base : nat) (s : RunState) :
  progress base ts s (fst (step_at nulls_largest env k base ts s))
           (snd (step_at nulls_largest env k base ts s)).
Proof.
  revert k base s. induction ts as [|t rest IH]; intros k base s.
  - simpl. apply progress_refl.
  - destruct k as [|k']; simpl.
    + pose proof (step_progress nulls_largest env base t s) as [_ Hp].
      destruct (step nulls_largest env base t s) as [t' s'].
      simpl in *. apply progress_cons_head. exact Hp.
    + specialize (IH k' (S base) s).
      destruct (step_at nulls_largest env k' (S base) rest s) as [rest' s'].
      simpl in *. apply progress_cons_tail. exact IH.
Qed.

Lemma run_schedule_progress (nulls_largest : bool) (env : nat -> ItemEnv)
  (schedule : list nat) (base : nat) (ts : list Task) (s : RunState) :
  progress base ts s (fst (run_schedule nulls_largest env schedule base ts s))
           (snd (run_schedule nulls_largest env schedule base ts s)).
Proof.
  revert ts s. induction schedule as [|k rest IH]; intros ts s; simpl.
  - apply progress_refl.
  - pose proof (step_at_progress nulls_largest env ts k base s) as Hp.
    destruct (step_at nulls_largest env k base ts s) as [ts' s'].
    simpl in Hp. eapply progress_trans; [exact Hp | apply IH].
Qed.

Lemma steps_progress (nulls_largest : bool) (env : nat -> ItemEnv) (n i : nat)
  (t : Task) (s : RunState) :
  remaining (fst (steps nulls_largest env n i t s)) <= remaining t - n
  /\ progress i [t] s [fst (steps nulls_largest env n i t s)]
              (snd (steps nulls_largest env n i t s)).
Proof.
  revert t s. induction n as [|n IH]; intros t s; simpl.
  - split; [lia | apply progress_refl].
  - pose proof (step_progress nulls_largest env i t s) as [Hrem Hp].
    destruct (step nulls_largest env i t s) as [t' s']. simpl in *.
    destruct (IH t' s') as [Hrem' Hp']. split; [lia|].
    eapply progress_trans; eassumption.
Qed.

Lemma remaining_bound (t : Task) : remaining t <= max_actions.
Proof. destruct t; unfold max_actions; simpl; lia. Qed.

Lemma remaining_zero (t : Task) : remaining t = 0 -> is_settled t = true.
Proof. destruct t; simpl; intros H; congruence. Qed.

Lemma drain_cons (nulls_largest : bool) (env : nat -> ItemEnv) (base : nat)
  (t : Task) (rest : list Task) (s : RunState) :
  drain nulls_largest env base (t :: rest) s
  = (fst (steps nulls_largest env max_actions base t s)
       :: fst (drain nulls_largest env (S base) rest
                 (snd (steps nulls_largest env max_actions base t s))),
     snd (drain nulls_largest env (S base) rest
            (snd (steps nulls_largest env max_actions base t s)))).
Proof.
  change (drain nulls_largest env base (t :: rest) s)
    with (let (t', s') := steps nulls_largest env max_actions base t s in
          let (rest', s'') := drain nulls_largest env (S base) rest s' in
          (t' :: rest', s'')).
  destruct (steps nulls_largest env max_actions base t s) as [t' s'].
  destruct (drain nulls_largest env (S base) rest s') as [rest' s'']  eqn:E.
  simpl. now rewrite E.
Qed.

Lemma drain_progress (nulls_largest : bool) (env : nat -> ItemEnv)
  (ts : list Task) (base : nat) (s : RunState) :
  progress base ts s (fst (drain nulls_largest env base ts s))
           (snd (drain nulls_largest env base ts s))
  /\ Forall (fun t => is_settled t = true)
            (fst (drain nulls_largest env base ts s)).
Proof.
  revert base s. induction ts as [|t rest IH]; intros base s.
  - simpl. split; [apply progress_refl | constructor].
  - rewrite drain_cons.
    pose proof (steps_progress nulls_largest env max_actions base t s) as [Hrem Hp].
    destruct (steps nulls_largest env max_actions base t s) as [t' s1].
    cbn [fst snd] in *.
    destruct (IH (S base) s1) as [Hp' Hall].
    destruct (drain nulls_largest env (S base) rest s1) as [rest' s2].
    cbn [fst snd] in *. split.
    + apply (progress_trans base (t :: rest) (t' :: rest) (t' :: rest') s s1 s2).
      * apply progress_cons_head. exact Hp.
      * apply progress_cons_tail. exact Hp'.
    + constructor; [|exact Hall].
      apply remaining_zero. pose proof (remaining_bound t). lia.
Qed.

(** ** A batch *)

Lemma sum_counted_pending (batch : list (option Countries.t)) :
  sum_counted (map start batch) = 0.
Proof.
  unfold sum_counted. induction batch as [|[c|] batch IH]; simpl; auto.
Qed.

Lemma settled_at_start_items (batch : list (option Countries.t)) (base : nat) :
  Forall (fun e => base <= ev_item e < base + List.length batch)
         (settled_at_start base batch).
Proof.
  revert base. induction batch as [|[c|] rest IH]; intros base; simpl.
  - constructor.
  - eapply Forall_impl; [|apply IH]. simpl. intros e He. lia.
  - constructor; [simpl; lia|].
    eapply Forall_impl; [|apply IH]. simpl. intros e He. lia.
Qed.

Lemma settle_logged_pending (base : nat) (batch : list (option Countries.t))
  (tr : list Event) :
  settle_logged base (map start batch) (tr ++ settled_at_start base batch).
Proof.
  revert base tr.
  induction batch as [|[c|] rest IH]; intros base tr; simpl; [trivial| |].
  - split; [discriminate | apply IH].
  - split.
    + intros _. apply in_or_app. right. now left.
    + replace (tr ++ Settle base :: settled_at_start (S base) rest)
        with ((tr ++ [Settle base]) ++ settled_at_start (S base) rest)
        by (now rewrite <- app_assoc).
      apply IH.
Qed.

(** The start of the tasks of a batch. *)
Lemma launched_progress (base : nat) (batch : list (option Countries.t))
  (s : RunState) :
  progress base (map start batch) s (map start batch) (launched base batch s)
  /\ settle_logged base (map start batch) (trace (launched base batch s)).
Proof.
  split; [|apply settle_logged_pending].
  unfold progress, launched, tally. cbn [world created updated trace db].
  split; [reflexivity|]. split; [lia|]. split; [lia|]. split.
  - exists (settled_at_start base batch). split; [reflexivity|].
    rewrite length_map. apply settled_at_start_items.
  - intros _. apply settle_logged_pending.
Qed.

Lemma settled_counted (ts : list Task) :
  Forall (fun t => is_settled t = true) ts ->
  sum_counted ts + count_if failed_before_write (map result_of ts)
  = List.length ts.
Proof.
  unfold sum_counted, count_if.
  induction 1 as [|t rest Hs _ IH]; simpl; [reflexivity|].
  destruct t as [| | | | | | | |r]; try discriminate.
  destruct r as [[c|c|c e]|e]; simpl; try lia.
  destruct (render_error e); simpl; lia.
Qed.

Lemma settled_all_logged (ts : list Task) (base : nat) (tr : list Event) :
  Forall (fun t => is_settled t = true) ts ->
  settle_logged base ts tr ->
  forall k, k < List.length ts -> In (Settle (base + k)) tr.
Proof.
  intros Hall. revert base.
  induction Hall as [|t rest Hs _ IH]; intros base Hlog k Hk; simpl in *; [lia|].
  destruct Hlog as [Hhead Htail].
  destruct k as [|k'].
  - rewrite Nat.add_0_r. auto.
  - replace (base + S k') with (S base + k') by lia.
    apply IH; [exact Htail | lia].
Qed.

Lemma allSettled_spec (nulls_largest : bool) (env : nat -> ItemEnv)
  (sched : nat -> list nat) (base : nat) (batch : list (option Countries.t))
  (s : RunState) :
  let rs := fst (allSettled nulls_largest env sched base batch s) in
  let s' := snd (allSettled nulls_largest env sched base batch s) in
  List.length rs = List.length batch
  /\ tally s' + count_if failed_before_write rs = tally s + List.length batch
  /\ List.length (db (world s')) + created s
     = List.length (db (world s)) + created s'
  /\ (exists evs,
        trace s' = trace s ++ evs
        /\ Forall (fun e => base <= ev_item e < base + List.length batch) evs)
  /\ (forall k, k < List.length batch -> In (Settle (base + k)) (trace s')).
Proof.
  unfold allSettled.
  pose proof (launched_progress base batch s) as [Hp0 Hlog0].
  pose proof (run_schedule_progress nulls_largest env (sched base) base
                (map start batch) (launched base batch s)) as Hp1.
  destruct (run_schedule nulls_largest env (sched base) base
              (map start batch) (launched base batch s)) as [ts s1].
  cbn [fst snd] in Hp1.
  pose proof (drain_progress nulls_largest env ts base s1) as [Hp2 Hall].
  destruct (drain nulls_largest env base ts s1) as [ts' s2].
  cbn [fst snd] in *.
  pose proof (progress_trans _ _ _ _ _ _ _ Hp1 Hp2)
    as (Hlen & _ & _ & _ & Hlog).
  pose proof (progress_trans _ _ _ _ _ _ _ Hp0
                (progress_trans _ _ _ _ _ _ _ Hp1 Hp2))
    as (_ & Htal & Hdb & Hev & _).
  rewrite length_map in Hlen, Hev.
  pose proof (settled_counted ts' Hall) as Hcount.
  rewrite sum_counted_pending in Htal.
  split; [now rewrite length_map|].
  split; [lia|]. split; [exact Hdb|]. split; [exact Hev|].
  intros k Hk.
  apply (settled_all_logged ts' base); [exact Hall| |lia].
  apply Hlog. exact Hlog0.
Qed.

(** ** Lists *)

Lemma firstn_add_skipn {A} (i n : nat) (l : list A) :
  firstn (i + n) l = firstn i l ++ firstn n (skipn i l).
Proof.
  revert l. induction i as [|i IH]; intros l; simpl; [reflexivity|].
  destruct l as [|a l]; simpl.
  - now rewrite firstn_nil.
  - now rewrite IH.
Qed.

Lemma slice_eq {A} (i n : nat) (l : list A) :
  slice i (i + n) l = firstn n (skipn i l).
Proof. unfold slice. now replace (i + n - i) with n by lia. Qed.

Lemma slice_length {A} (i n : nat) (l : list A) :
  List.length (slice i (i + n) l) = Nat.min n (List.length l - i).
Proof. rewrite slice_eq, length_firstn, length_skipn. reflexivity. Qed.

Lemma count_if_app {A} (p : A -> bool) (l1 l2 : list A) :
  count_if p (l1 ++ l2) = count_if p l1 + count_if p l2.
Proof. unfold count_if. now rewrite filter_app, length_app. Qed.

Lemma StronglySorted_app {A} (R : A -> A -> Prop) (l1 l2 : list A) :
  StronglySorted R l1 ->
  (forall a b, In a (l1 ++ l2) -> In b l2 -> R a b) ->
  StronglySorted R (l1 ++ l2).
Proof.
  intros Hs1 Hcross. induction Hs1 as [|a l1 Hs1 IH Hall]; simpl.
  - induction l2 as [|b l2 IHl2]; constructor.
    + apply IHl2. intros x y Hx Hy. apply Hcross; simpl; auto.
    + apply Forall_forall. intros y Hy. apply Hcross; simpl; auto.
  - constructor.
    + apply IH. intros x y Hx Hy. apply Hcross; simpl; auto.
    + apply Forall_app. split; [exact Hall|].
      apply Forall_forall. intros y Hy. apply Hcross; simpl; auto.
Qed.

(** ** The loop *)

Lemma iteration_eq (nulls_largest : bool) (env : nat -> ItemEnv)
  (sched : nat -> list nat) (i : nat) (data : list (option Countries.t)) (l : LoopState) :
  let batch := slice i (i + batchSize) data in
  let rs := fst (allSettled nulls_largest env sched i batch (run l)) in
  let s' := snd (allSettled nulls_largest env sched i batch (run l)) in
  iteration nulls_largest env sched i data l
  = mkLoop s' (processed l + List.length batch) (sliced l ++ [batch])
           (results l ++ rs)
           (logs l ++ [mkLog (count_if (has_status St_created) rs)
                             (count_if (has_status St_updated) rs)
                             (count_if is_rejected rs)]).
Proof.
  unfold iteration. cbv zeta.
  destruct (allSettled nulls_largest env sched i
              (slice i (i + batchSize) data) (run l)) as [rs s'].
  reflexivity.
Qed.

Lemma batch_of_old (a n : nat) : a < batchSize * n -> a / batchSize < n.
Proof.
  intros H. apply Nat.Div0.div_lt_upper_bound. exact H.
Qed.

Lemma batch_of_new (a n : nat) :
  batchSize * n <= a < batchSize * n + batchSize -> a / batchSize = n.
Proof.
  intros [Hlo Hhi]. symmetry.
  apply (Nat.div_unique a batchSize n (a - batchSize * n)); lia.
Qed.

Lemma loop_inv_start (data : list (option Countries.t)) (s0 : RunState) :
  loop_inv data s0 0 (mkLoop s0 0 [] [] []).
Proof.
  unfold loop_inv. simpl.
  split; [reflexivity|]. split; [reflexivity|].
  split; [intros k Hk; lia|].
  split; [reflexivity|]. split; [reflexivity|].
  split; [unfold count_if; simpl; lia|]. split; [lia|]. split.
  - exists []. split; [now rewrite app_nil_r|]. split; constructor.
  - intros k Hk. lia.
Qed.

Lemma loop_inv_step (nulls_largest : bool) (env : nat -> ItemEnv)
  (sched : nat -> list nat) (data : list (option Countries.t)) (s0 : RunState)
  (i : nat) (l : LoopState) :
  i < List.length data ->
  loop_inv data s0 i l ->
  loop_inv data s0 (i + batchSize)
           (iteration nulls_largest env sched i data l).
Proof.
  intros Hi (Hidx & Hcat & Hnth & Hproc & Hres & Htal & Hdb
             & (evs & Htr & Hold & Hsorted) & Hset).
  rewrite iteration_eq. cbv zeta.
  pose proof (allSettled_spec nulls_largest env sched i
                (slice i (i + batchSize) data) (run l)) as Hb.
  cbv zeta in Hb.
  destruct Hb as (Hlen & Htal' & Hdb' & (evs' & Htr' & Hnew) & Hset').
  set (batch := slice i (i + batchSize) data) in *.
  set (rs := fst (allSettled nulls_largest env sched i batch (run l))) in *.
  set (s' := snd (allSettled nulls_largest env sched i batch (run l))) in *.
  assert (Hblen : List.length batch
                  = Nat.min batchSize (List.length data - i)).
  { unfold batch. apply slice_length. }
  assert (Hbs : batchSize = 10) by reflexivity.
  assert (Hfi : List.length (firstn i data) = i).
  { rewrite length_firstn. lia. }
  unfold loop_inv. cbn [run processed sliced results logs].
  split; [rewrite length_app; simpl; lia|].
  split.
  { rewrite concat_app. simpl. rewrite app_nil_r, Hcat.
    unfold batch. rewrite slice_eq. symmetry. apply firstn_add_skipn. }
  split.
  { intros k Hk. rewrite length_app in Hk. simpl in Hk.
    destruct (Nat.lt_ge_cases k (List.length (sliced l))) as [Hlt | Hge].
    - rewrite app_nth1 by exact Hlt. apply Hnth. exact Hlt.
    - assert (k = List.length (sliced l)) as -> by lia.
      rewrite app_nth2 by lia. rewrite Nat.sub_diag. simpl.
      replace (List.length (sliced l) * batchSize) with i by lia.
      split; [exact Hi | reflexivity]. }
  split.
  { rewrite firstn_add_skipn, length_app, Hproc. f_equal.
    unfold batch. now rewrite slice_eq. }
  split; [rewrite length_app; lia|].
  split; [rewrite count_if_app; lia|].
  split; [lia|].
  split.
  { exists (evs ++ evs'). split; [|split].
    - rewrite Htr', Htr. now rewrite app_assoc.
    - apply Forall_app. split.
      + eapply Forall_impl; [|exact Hold]. simpl. intros a Ha. lia.
      + eapply Forall_impl; [|exact Hnew]. simpl. intros a Ha. lia.
    - apply StronglySorted_app; [exact Hsorted|].
      intros a b Ha Hb. unfold batch_le.
      rewrite Forall_forall in Hold, Hnew.
      assert (Hbn : ev_item b / batchSize = List.length (sliced l)).
      { apply batch_of_new. specialize (Hnew b Hb). lia. }
      apply in_app_or in Ha as [Ha | Ha].
      + assert (ev_item a / batchSize < List.length (sliced l)).
        { apply batch_of_old. specialize (Hold a Ha). lia. }
        lia.
      + assert (ev_item a / batchSize = List.length (sliced l)).
        { apply batch_of_new. specialize (Hnew a Ha). lia. }
        lia. }
  intros k Hk.
  destruct (Nat.lt_ge_cases k (processed l)) as [Hlt | Hge].
  - rewrite Htr'. apply in_or_app. left. apply Hset. exact Hlt.
  - replace k with (i + (k - i)) by lia. apply Hset'. lia.
Qed.

Lemma loop_inv_loop (nulls_largest : bool) (env : nat -> ItemEnv)
  (sched : nat -> list nat) (data : list (option Countries.t)) (s0 : RunState)
  (fuel i : nat) (l : LoopState) :
  List.length data <= fuel + i ->
  loop_inv data s0 i l ->
  exists i', List.length data <= i'
             /\ loop_inv data s0 i'
                         (loop nulls_largest env sched fuel i data l).
Proof.
  revert i l. induction fuel as [|fuel IH]; intros i l Hfuel Hinv; simpl.
  - exists i. split; [lia | exact Hinv].
  - destruct (i <? List.length data) eqn:Hlt.
    + apply Nat.ltb_lt in Hlt.
      apply IH; [unfold batchSize; lia|].
      apply loop_inv_step; assumption.
    + apply Nat.ltb_ge in Hlt. exists i. split; [exact Hlt | exact Hinv].
Qed.

(** ** The run *)

Lemma fetch_ok (status : nat) (body : Payload) :
  200 <= status < 300 -> fetch (SrcResponse status body) = Ok body.
Proof.
  intros [Hlo Hhi]. unfold fetch.
  apply Nat.leb_le in Hlo. apply Nat.ltb_lt in Hhi.
  now rewrite Hlo, Hhi.
Qed.

(** A run whose fetch succeeds is the loop over the dataset. *)
Lemma uploadCountry_loop (api_countries : option string) (nulls_largest : bool)
  (env : nat -> ItemEnv) (sched : nat -> list nat) (status : nat)
  (data : list (option Countries.t)) (w : World) :
  truthy api_countries = true -> 200 <= status < 300 ->
  exists l i,
    uploadCountry api_countries nulls_largest env sched
                  (SrcResponse status (PArray data)) w
    = mkOutcome (Ok [("created", created (run l));
                     ("updated", updated (run l));
                     ("total", processed l)])
                (world (run l)) (trace (run l)) (sliced l) (results l) (logs l)
    /\ List.length data <= i
    /\ loop_inv data (mkRun w 0 0 []) i l.
Proof.
  intros Hapi Hstatus.
  destruct (loop_inv_loop nulls_largest env sched data (mkRun w 0 0 [])
              (List.length data) 0 (mkLoop (mkRun w 0 0 []) 0 [] [] []))
    as (i & Hi & Hinv); [lia | apply loop_inv_start |].
  eexists. exists i. split; [|split; [exact Hi | exact Hinv]].
  unfold uploadCountry, uploadCountry_try.
  rewrite Hapi, (fetch_ok status _ Hstatus). reflexivity.
Qed.

(** A run returns a value only when the fetch has given an array. *)
Lemma uploadCountry_returns (api_countries : option string) (nulls_largest : bool)
  (env : nat -> ItemEnv) (sched : nat -> list nat) (src : SourceOutcome)
  (w : World) (obj : JsObject) :
  returned (uploadCountry api_countries nulls_largest env sched src w) = Ok obj ->
  truthy api_countries = true
  /\ exists status data,
       src = SrcResponse status (PArray data) /\ 200 <= status < 300.
Proof.
  unfold uploadCountry, uploadCountry_try, fetch.
  destruct (truthy api_countries); [|simpl; discriminate].
  destruct src as [| |status body]; try (simpl; discriminate).
  destruct ((200 <=? status) && (status <? 300)) eqn:Hs; [|simpl; discriminate].
  destruct body as [data|]; [|simpl; discriminate].
  intros _. split; [reflexivity|]. exists status, data.
  apply andb_prop in Hs as [Hlo Hhi].
  apply Nat.leb_le in Hlo. apply Nat.ltb_lt in Hhi. auto.
Qed.

(** C1. A run that completes returns exactly the
    counters [created], [updated] and [total], and no [failed] counter.
    [total] is the size of the dataset; [created + updated + f = total]
    where [f] is the number of items whose task failed in the lookup or
    in the write, before its counter was incremented (a [null] item
    among them); every item has a settled result; and the store has
    grown by [created] rows. *)
Theorem uploadCountry_counters (api_countries : option string)
  (nulls_largest : bool) (env : nat -> ItemEnv) (sched : nat -> list nat)
  (src : SourceOutcome) (w : World) (obj : JsObject) :
  returned (uploadCountry api_countries nulls_largest env sched src w) = Ok obj ->
  exists status data c u,
    src = SrcResponse status (PArray data)
    /\ obj = [("created", c); ("updated", u); ("total", List.length data)]
    /\ prop obj "failed" = None
    /\ c + u
       + count_if failed_before_write
           (batchResults (uploadCountry api_countries nulls_largest env sched src w))
       = List.length data
    /\ List.length
         (batchResults (uploadCountry api_countries nulls_largest env sched src w))
       = List.length data
    /\ List.length
         (db (final (uploadCountry api_countries nulls_largest env sched src w)))
       = List.length (db w) + c.
Proof.
  intros Hret.
  destruct (uploadCountry_returns _ _ _ _ _ _ _ Hret)
    as (Hapi & status & data & -> & Hstatus).
  destruct (uploadCountry_loop api_countries nulls_largest env sched status
              data w Hapi Hstatus) as (l & i & Hrun & Hi & Hinv).
  rewrite Hrun in *. cbn [returned batchResults final] in *.
  destruct Hinv as (_ & _ & _ & Hproc & Hres & Htal & Hdb & _ & _).
  rewrite firstn_all2 in Hproc by exact Hi.
  unfold tally in Htal. cbn [created updated world db] in *.
  exists status, data, (created (run l)), (updated (run l)).
  injection Hret as <-. rewrite Hproc.
  split; [reflexivity|]. split; [reflexivity|]. split; [reflexivity|].
  split; [lia|]. split; [lia|]. lia.
Qed.

Lemma StronglySorted_suffix {A} (R : A -> A -> Prop) (l1 l2 : list A) :
  StronglySorted R (l1 ++ l2) -> StronglySorted R l2.
Proof.
  induction l1 as [|a l1 IH]; simpl; [trivial|].
  intros H. apply IH. now inversion H.
Qed.

(** C9. The run slices the dataset into consecutive batches of
    [batchSize = 10] items, the last one possibly shorter, whose
    concatenation is the dataset; the task of every item settles; the
    events of the run are ordered by batch; and when an item of a batch
    performs any awaited call, every item of every earlier batch has
    already settled.  This holds for every schedule of the tasks inside
    the batches. *)
Theorem uploadCountry_batches (api_countries : option string)
  (nulls_largest : bool) (env : nat -> ItemEnv) (sched : nat -> list nat)
  (status : nat) (data : list (option Countries.t)) (w : World) :
  truthy api_countries = true -> 200 <= status < 300 ->
  batchSize = 10
  /\ List.concat
       (batches (uploadCountry api_countries nulls_largest env sched
                   (SrcResponse status (PArray data)) w)) = data
  /\ (forall k b,
        nth_error
          (batches (uploadCountry api_countries nulls_largest env sched
                      (SrcResponse status (PArray data)) w)) k = Some b ->
        b = slice (k * batchSize) (k * batchSize + batchSize) data
        /\ 1 <= List.length b <= batchSize
        /\ (S k < List.length
                    (batches (uploadCountry api_countries nulls_largest env sched
                                (SrcResponse status (PArray data)) w)) ->
            List.length b = batchSize))
  /\ (forall i, i < List.length data ->
        In (Settle i)
           (events (uploadCountry api_countries nulls_largest env sched
                      (SrcResponse status (PArray data)) w)))
  /\ StronglySorted batch_le
       (events (uploadCountry api_countries nulls_largest env sched
                  (SrcResponse status (PArray data)) w))
  /\ (forall before after i j st,
        events (uploadCountry api_countries nulls_largest env sched
                  (SrcResponse status (PArray data)) w)
        = before ++ Call j st :: after ->
        i < List.length data ->
        i / batchSize < j / batchSize ->
        In (Settle i) before).
Proof.
  intros Hapi Hstatus.
  destruct (uploadCountry_loop api_countries nulls_largest env sched status
              data w Hapi Hstatus) as (l & i & -> & Hi & Hinv).
  cbn [batches events].
  destruct Hinv as (Hidx & Hcat & Hnth & Hproc & _ & _ & _
                    & (evs & Htr & _ & Hsorted) & Hset).
  rewrite firstn_all2 in Hcat, Hproc by exact Hi.
  simpl in Htr. rewrite Htr in *.
  assert (Hsettle : forall k, k < List.length data -> In (Settle k) evs).
  { intros k Hk. apply Hset. lia. }
  split; [reflexivity|]. split; [exact Hcat|]. split; [|split; [|split]].
  - intros k b Hb.
    assert (Hk : k < List.length (sliced l)).
    { apply nth_error_Some. congruence. }
    destruct (Hnth k Hk) as [Hstart Hslice].
    apply (nth_error_nth _ _ []) in Hb. rewrite Hslice in Hb. subst b.
    rewrite slice_length.
    split; [reflexivity|]. split; [unfold batchSize in *; lia|].
    intros Hnext. destruct (Hnth (S k) Hnext) as [Hstart' _].
    unfold batchSize in *. lia.
  - exact Hsettle.
  - exact Hsorted.
  - intros before after a j st Hev Ha Hlt.
    specialize (Hsettle a Ha). rewrite Hev in Hsettle.
    apply in_app_or in Hsettle as [Hin | [Heq | Hin]];
      [exact Hin | discriminate |].
    exfalso. rewrite Hev in Hsorted.
    apply StronglySorted_suffix in Hsorted.
    inversion Hsorted as [|x xs _ Hall]; subst.
    rewrite Forall_forall in Hall. specialize (Hall _ Hin).
    unfold batch_le in Hall. cbn [ev_item] in Hall. lia.
Qed.

(** ** A dataset of one item *)

Lemma steps_add (nulls_largest : bool) (env : nat -> ItemEnv) (a b i : nat)
  (t : Task) (s : RunState) :
  steps nulls_largest env (a + b) i t s
  = steps nulls_largest env b i (fst (steps nulls_largest env a i t s))
          (snd (steps nulls_largest env a i t s)).
Proof.
  revert t s. induction a as [|a IH]; intros t s; simpl; [reflexivity|].
  destruct (step nulls_largest env i t s) as [t' s']. apply IH.
Qed.

Lemma steps_settled (nulls_largest : bool) (env : nat -> ItemEnv) (n i : nat)
  (t : Task) (s : RunState) :
  is_settled t = true -> steps nulls_largest env n i t s = (t, s).
Proof.
  intros Hs. destruct t; try discriminate.
  induction n as [|n IH]; simpl; [reflexivity | exact IH].
Qed.

Lemma steps_saturated (nulls_largest : bool) (env : nat -> ItemEnv) (n i : nat)
  (t : Task) (s : RunState) :
  steps nulls_largest env max_actions i
        (fst (steps nulls_largest env n i t s))
        (snd (steps nulls_largest env n i t s))
  = steps nulls_largest env max_actions i t s.
Proof.
  rewrite <- steps_add. rewrite Nat.add_comm, steps_add.
  rewrite steps_settled; [now destruct (steps nulls_largest env max_actions i t s)|].
  apply remaining_zero.
  pose proof (steps_progress nulls_largest env max_actions i t s) as [H _].
  pose proof (remaining_bound t). lia.
Qed.

Lemma run_schedule_single (nulls_largest : bool) (env : nat -> ItemEnv)
  (schedule : list nat) (base : nat) (t : Task) (s : RunState) :
  exists n,
    run_schedule nulls_largest env schedule base [t] s
    = ([fst (steps nulls_largest env n base t s)],
       snd (steps nulls_largest env n base t s)).
Proof.
  revert t s. induction schedule as [|k rest IH]; intros t s.
  - exists 0. reflexivity.
  - destruct k as [|k'].
    + cbn [run_schedule step_at].
      destruct (step nulls_largest env base t s) as [t' s'] eqn:Hstep.
      destruct (IH t' s') as [n Hn]. exists (S n).
      rewrite Hn. cbn [steps]. now rewrite Hstep.
    + cbn [run_schedule step_at]. destruct (IH t s) as [n Hn].
      exists n. exact Hn.
Qed.

Lemma allSettled_single (nulls_largest : bool) (env : nat -> ItemEnv)
  (sched : nat -> list nat) (base : nat) (c : Countries.t) (s : RunState) :
  allSettled nulls_largest env sched base [Some c] s
  = ([result_of (fst (steps nulls_largest env max_actions base (AwaitFind c)
                        (launched base [Some c] s)))],
     snd (steps nulls_largest env max_actions base (AwaitFind c)
            (launched base [Some c] s))).
Proof.
  unfold allSettled. cbn [map start].
  destruct (run_schedule_single nulls_largest env (sched base) base
              (AwaitFind c) (launched base [Some c] s)) as [n ->].
  rewrite drain_cons. cbn [drain fst snd map].
  now rewrite steps_saturated.
Qed.

(** The run over a dataset of one item is the task of that item, run to
    its end: the schedule has nothing to interleave. *)
Lemma uploadCountry_single (api_countries : option string) (nulls_largest : bool)
  (env : nat -> ItemEnv) (sched : nat -> list nat) (status : nat)
  (c : Countries.t) (w : World) :
  truthy api_countries = true -> 200 <= status < 300 ->
  let t := fst (steps nulls_largest env max_actions 0 (AwaitFind c)
                      (mkRun w 0 0 [])) in
  let s := snd (steps nulls_largest env max_actions 0 (AwaitFind c)
                      (mkRun w 0 0 [])) in
  uploadCountry api_countries nulls_largest env sched
                (SrcResponse status (PArray [Some c])) w
  = mkOutcome (Ok [("created", created s); ("updated", updated s); ("total", 1)])
              (world s) (trace s) [[Some c]] [result_of t]
              [mkLog (count_if (has_status St_created) [result_of t])
                     (count_if (has_status St_updated) [result_of t])
                     (count_if is_rejected [result_of t])].
Proof.
  intros Hapi Hstatus. cbv zeta.
  unfold uploadCountry, uploadCountry_try.
  rewrite Hapi, (fetch_ok status _ Hstatus).
  cbn [negb List.length loop Nat.ltb Nat.leb].
  rewrite iteration_eq. cbv zeta.
  change (slice 0 (0 + batchSize) [Some c]) with [Some c].
  rewrite allSettled_single. reflexivity.
Qed.

(** ** The update path *)

Lemma step_rendering (nulls_largest : bool) (env : nat -> ItemEnv) (i : nat)
  (t : Task) (s : RunState) :
  rendering t = true ->
  rendering (fst (step nulls_largest env i t s)) = true
  /\ db (world (snd (step nulls_largest env i t s))) = db (world s)
  /\ created (snd (step nulls_largest env i t s)) = created s
  /\ updated (snd (step nulls_largest env i t s)) = updated s
  /\ (forall j, In (Call j SRate) (trace (snd (step nulls_largest env i t s))) ->
                In (Call j SRate) (trace s)).
Proof.
  intros Hr. destruct t as [| | | | |c st|c st n|c st svg|r]; try discriminate;
    unfold step, resume.
  - destruct (fault (env i) SCount); simpl; repeat split; auto;
      intros j Hin; apply in_app_or in Hin as [Hin | Hin]; auto;
      simpl in Hin; intuition discriminate.
  - destruct (fault (env i) STop); simpl; repeat split; auto;
      intros j Hin; apply in_app_or in Hin as [Hin | Hin]; auto;
      simpl in Hin; intuition discriminate.
  - destruct (fault (env i) SFile); simpl; repeat split; auto;
      intros j Hin; apply in_app_or in Hin as [Hin | Hin]; auto;
      simpl in Hin; intuition discriminate.
  - simpl. repeat split; auto.
Qed.

Lemma steps_rendering (nulls_largest : bool) (env : nat -> ItemEnv) (n i : nat)
  (t : Task) (s : RunState) :
  rendering t = true ->
  db (world (snd (steps nulls_largest env n i t s))) = db (world s)
  /\ created (snd (steps nulls_largest env n i t s)) = created s
  /\ updated (snd (steps nulls_largest env n i t s)) = updated s
  /\ (forall j, In (Call j SRate) (trace (snd (steps nulls_largest env n i t s))) ->
                In (Call j SRate) (trace s)).
Proof.
  revert t s. induction n as [|n IH]; intros t s Hr; simpl.
  - repeat split; auto.
  - destruct (step_rendering nulls_largest env i t s Hr)
      as (Hr' & Hdb & Hc & Hu & Hrate).
    destruct (step nulls_largest env i t s) as [t' s']. simpl in *.
    destruct (IH t' s' Hr') as (Hdb' & Hc' & Hu' & Hrate').
    repeat split; try congruence. auto.
Qed.

Lemma update_two_steps (nulls_largest : bool) (env : nat -> ItemEnv) (i : nat)
  (c : Countries.t) (existing : Country.t) (s : RunState) :
  fault (env i) SFind = false ->
  fault (env i) SWrite = false ->
  Prisma.findFirst (db (world s)) (toLowerCase (Countries.name c)) = Some existing ->
  let gdp := (Countries.population c
              * or_zero (Country.exchange_rate existing)
              * inject_Z (update_multiplier (random (env i))))%Q in
  steps nulls_largest env 2 i (AwaitFind c) s
  = (AwaitCount c Was_updated,
     mkRun (mkWorld (overwritten (toLowerCase (Countries.name c)) c existing gdp
                                 (db (world s)))
                    (summary_png (world s)))
           (created s) (S (updated s))
           ((trace s ++ [Call i SFind]) ++ [Call i SWrite])).
Proof.
  intros Hfind Hwrite Hex. cbv zeta.
  unfold steps, step, resume. rewrite Hfind, Hex.
  cbn [record_events stage_of is_settled world db trace created updated].
  rewrite Hwrite. unfold Prisma.update. cbn [world db]. rewrite Hex.
  reflexivity.
Qed.

Lemma findFirst_overwritten (n : string) (c : Countries.t)
  (existing found : Country.t) (gdp : Q) (tb : Prisma.Table) :
  Prisma.findFirst tb n = Some found ->
  Prisma.findFirst (overwritten n c existing gdp tb) n
  = Some (update_data c existing gdp found).
Proof.
  unfold Prisma.findFirst, overwritten.
  induction tb as [|row tb IH]; simpl; [discriminate|].
  destruct (Prisma.has_name n row) eqn:Hn.
  - intros [= <-].
    assert (Hn' : Prisma.has_name n (update_data c existing gdp row) = true)
      by exact Hn.
    now rewrite Hn'.
  - intros Hf. rewrite Hn. auto.
Qed.

Lemma findFirst_overwritten_other (n n' : string) (c : Countries.t)
  (existing : Country.t) (gdp : Q) (tb : Prisma.Table) :
  n' <> n ->
  Prisma.findFirst (overwritten n c existing gdp tb) n'
  = Prisma.findFirst tb n'.
Proof.
  intros Hne. unfold Prisma.findFirst, overwritten.
  induction tb as [|row tb IH]; simpl; [reflexivity|].
  destruct (Prisma.has_name n row) eqn:Hn.
  - assert (Hrow : Prisma.has_name n' row = false).
    { unfold Prisma.has_name in *. apply String.eqb_eq in Hn.
      apply String.eqb_neq. congruence. }
    assert (Hrow' : Prisma.has_name n' (update_data c existing gdp row) = false)
      by exact Hrow.
    now rewrite Hrow, Hrow'.
  - destruct (Prisma.has_name n' row); [reflexivity | exact IH].
Qed.

(** The run over one item whose lower-cased name has a row. *)
Lemma uploadCountry_update_path (api_countries : option string)
  (nulls_largest : bool) (env : nat -> ItemEnv) (sched : nat -> list nat)
  (status : nat) (c : Countries.t) (existing : Country.t) (w : World) :
  truthy api_countries = true -> 200 <= status < 300 ->
  fault (env 0) SFind = false ->
  fault (env 0) SWrite = false ->
  Prisma.findFirst (db w) (toLowerCase (Countries.name c)) = Some existing ->
  let gdp := (Countries.population c
              * or_zero (Country.exchange_rate existing)
              * inject_Z (update_multiplier (random (env 0%nat))))%Q in
  let o := uploadCountry api_countries nulls_largest env sched
                         (SrcResponse status (PArray [Some c])) w in
  returned o = Ok [("created", 0); ("updated", 1); ("total", 1)]
  /\ db (final o)
     = overwritten (toLowerCase (Countries.name c)) c existing gdp (db w)
  /\ ~ In (Call 0 SRate) (events o).
Proof.
  intros Hapi Hstatus Hfind Hwrite Hex. cbv zeta.
  rewrite (uploadCountry_single _ _ _ _ _ _ _ Hapi Hstatus). cbv zeta.
  cbn [returned final events].
  change max_actions with (2 + 4).
  rewrite steps_add.
  rewrite (update_two_steps nulls_largest env 0 c existing (mkRun w 0 0 [])
             Hfind Hwrite Hex).
  cbv zeta. cbn [fst snd].
  match goal with
  | |- context [steps nulls_largest env 4 0 ?t ?s] =>
      destruct (steps_rendering nulls_largest env 4 0 t s eq_refl)
        as (Hdb & Hc & Hu & Hrate)
  end.
  rewrite Hdb, Hc, Hu. cbn [world db created updated].
  split; [reflexivity|]. split; [reflexivity|].
  intros Hin. apply Hrate in Hin. cbn [trace] in Hin. simpl in Hin.
  intuition discriminate.
Qed.

Lemma update_multiplier_range (r : Q) :
  (0 <= r)%Q -> (r < 1)%Q -> (1000 <= update_multiplier r <= 2000)%Z.
Proof.
  intros Hlo Hhi. unfold update_multiplier.
  assert (H0 : (0 <= Qfloor (r * (2000 - 1000 + 1)))%Z).
  { change 0%Z with (Qfloor 0). apply Qfloor_resp_le. lra. }
  assert (H1 : (Qfloor (r * (2000 - 1000 + 1)) < 1001)%Z).
  { rewrite Zlt_Qlt.
    apply Qle_lt_trans with (r * (2000 - 1000 + 1))%Q; [apply Qfloor_le|].
    change (inject_Z 1001) with (1001 # 1)%Q. lra. }
  lia.
Qed.

Lemma gdp_of_existing_rate (population : Q) (rate : option Q) (m : Z) :
  match rate with
  | Some x => (population * or_zero rate * inject_Z m == population * x * inject_Z m)%Q
  | None => (population * or_zero rate * inject_Z m == 0)%Q
  end.
Proof.
  destruct rate as [x|]; simpl.
  - destruct (Qeq_bool x 0) eqn:E; [|reflexivity].
    apply Qeq_bool_iff in E. rewrite E. reflexivity.
  - ring.
Qed.

(** ** Estimation *)

(** C7. When the rate is unknown the estimate is unknown; otherwise the
    estimate is population x rate x multiplier for a multiplier between
    1000 and 2000.  So in the run over the single item Aland of
    population 30000 with currency EUR, the exchange source answering
    1.1 for EUR and the store empty, the created row has the currency
    code EUR, the rate 1.1 and an estimate between 30000 x 1.1 x 1000
    and 30000 x 1.1 x 2000, and the counters are created 1, updated 0,
    total 1.  [r] is the value of [Math.random()], a number in [0, 1). *)
Theorem calculateEstimatedGdp_range (r rate population : Q) :
  (0 <= r)%Q -> (r < 1)%Q ->
  calculateEstimatedGdp r None population = None
  /\ (exists multiplier v,
        calculateEstimatedGdp r (Some rate) population = Some v
        /\ (1000 <= multiplier)%Q /\ (multiplier <= 2000)%Q
        /\ (v == population * rate * multiplier)%Q)
  /\ (forall (nulls_largest : bool) (sched : nat -> list nat),
        exists v,
          returned (uploadCountry (Some Sample.url) nulls_largest
                      (Sample.calm (ExResponse (Some [("EUR", (11 # 10)%Q)])) r)
                      sched (SrcResponse 200 (PArray [Some Sample.aland])) Sample.empty)
          = Ok [("created", 1); ("updated", 0); ("total", 1)]
          /\ db (final (uploadCountry (Some Sample.url) nulls_largest
                          (Sample.calm (ExResponse (Some [("EUR", (11 # 10)%Q)])) r)
                          sched (SrcResponse 200 (PArray [Some Sample.aland]))
                          Sample.empty))
             = [Country.mk "aland" "Mariehamn" "Europe" (30000 # 1) (Some "EUR")
                           (Some (11 # 10)%Q) (Some v) "ax.svg"]
          /\ ((30000 # 1) * (11 # 10) * 1000 <= v)%Q
          /\ (v <= (30000 # 1) * (11 # 10) * 2000)%Q).
Proof.
  intros Hlo Hhi. split; [reflexivity|]. split.
  - exists (r * (2000 - 1000) + 1000)%Q. eexists. split; [reflexivity|].
    split; [lra|]. split; [lra|]. ring.
  - intros nulls_largest sched.
    assert (Hs : 200 <= 200 < 300) by lia.
    rewrite (uploadCountry_single (Some Sample.url) nulls_largest _ sched 200
               Sample.aland Sample.empty eq_refl Hs).
    exists ((30000 # 1) * (r * (2000 - 1000) + 1000) * (11 # 10))%Q.
    split; [reflexivity|]. split; [reflexivity|]. split; lra.
Qed.

Lemma calculateEstimatedGdp_range_witness :
  calculateEstimatedGdp (1 # 2) None (30000 # 1) = None
  /\ (exists multiplier v,
        calculateEstimatedGdp (1 # 2) (Some (11 # 10)) (30000 # 1) = Some v
        /\ (1000 <= multiplier)%Q /\ (multiplier <= 2000)%Q
        /\ (v == (30000 # 1) * (11 # 10) * multiplier)%Q).
Proof.
  split.
  - apply (calculateEstimatedGdp_range (1 # 2) (11 # 10) (30000 # 1));
      [discriminate | reflexivity].
  - apply (calculateEstimatedGdp_range (1 # 2) (11 # 10) (30000 # 1));
      [discriminate | reflexivity].
Defined.

(** ** The report *)

(** C3. The query of the report has no
    filter on the estimate.  The run over the single item Aland, whose
    exchange-rate request times out, on the empty store creates the row
    with unknown rate and unknown estimate, and the report it renders
    lists that row, as 0.00.  Rendering on a store that holds only that
    row lists it too; and when the database orders unknown above every
    number, rendering on a store that also holds France lists the row of
    unknown estimate first. *)
Theorem report_lists_unknown_gdp (nulls_largest : bool)
  (sched : nat -> list nat) (r : Q) (now : nat) :
  db (final (uploadCountry (Some Sample.url) nulls_largest
               (Sample.calm ExTimeout r) sched
               (SrcResponse 200 (PArray [Some Sample.aland])) Sample.empty))
  = [Sample.aland_row]
  /\ option_map countryItems
       (summary_png
          (final (uploadCountry (Some Sample.url) nulls_largest
                    (Sample.calm ExTimeout r) sched
                    (SrcResponse 200 (PArray [Some Sample.aland])) Sample.empty)))
     = Some [mkLine 1 210 "aland" (toFixed2 0)]
  /\ generateSummaryImage nulls_largest now Sample.one_unknown
     = Ok (mkWorld [Sample.aland_row]
             (Some (mkSvg 800 350 1 [mkLine 1 210 "aland" (toFixed2 0)] now)))
  /\ generateSummaryImage true now
       (mkWorld [Sample.france; Sample.aland_row] None)
     = Ok (mkWorld [Sample.france; Sample.aland_row]
             (Some (mkSvg 800 390 2
                      [mkLine 1 210 "aland" (toFixed2 0);
                       mkLine 2 250 "france" (toFixed2 (90 / 1000000000))]
                      now))).
Proof.
  assert (Hs : 200 <= 200 < 300) by lia.
  rewrite (uploadCountry_single (Some Sample.url) nulls_largest _ sched 200
             Sample.aland Sample.empty eq_refl Hs).
  repeat split; reflexivity.
Qed.

(** ** Concrete runs *)

(** C1, a run with a failed item. The run over the single item Aland whose write
    fails returns created 0, updated 0, total 1: the item task resolved
    with status failed, the returned object has no [failed] property,
    and the counters it has do not add up to the total. *)
Lemma uploadCountry_counters_counterexample :
  returned (uploadCountry (Some Sample.url) true
              (Sample.faulty SWrite ExTimeout 0) Sample.no_schedule
              (SrcResponse 200 (PArray [Some Sample.aland])) Sample.empty)
  = Ok [("created", 0); ("updated", 0); ("total", 1)]
  /\ batchResults (uploadCountry (Some Sample.url) true
                     (Sample.faulty SWrite ExTimeout 0) Sample.no_schedule
                     (SrcResponse 200 (PArray [Some Sample.aland])) Sample.empty)
     = [fulfilled (result_failed "Aland" (Fault SWrite))]
  /\ ~ (exists obj c u f,
          returned (uploadCountry (Some Sample.url) true
                      (Sample.faulty SWrite ExTimeout 0) Sample.no_schedule
                      (SrcResponse 200 (PArray [Some Sample.aland])) Sample.empty)
          = Ok obj
          /\ prop obj "created" = Some c
          /\ prop obj "updated" = Some u
          /\ prop obj "failed" = Some f
          /\ prop obj "total" = Some 1
          /\ c + u + f = 1).
Proof.
  split; [reflexivity|]. split; [reflexivity|].
  intros (obj & c & u & f & Hret & _ & _ & Hf & _).
  vm_compute in Hret. injection Hret as <-. discriminate Hf.
Qed.

Lemma uploadCountry_counters_witness :
  exists status data c u,
    SrcResponse 200 (PArray [Some Sample.aland; Some Sample.aland])
    = SrcResponse status (PArray data)
    /\ [("created", 1); ("updated", 0); ("total", 2)]
       = [("created", c); ("updated", u); ("total", List.length data)]
    /\ prop [("created", 1); ("updated", 0); ("total", 2)] "failed" = None
    /\ c + u
       + count_if failed_before_write
           (batchResults
              (uploadCountry (Some Sample.url) true (Sample.calm ExTimeout 0)
                 Sample.lookups_first
                 (SrcResponse 200 (PArray [Some Sample.aland; Some Sample.aland]))
                 Sample.empty))
       = List.length data
    /\ List.length
         (batchResults
            (uploadCountry (Some Sample.url) true (Sample.calm ExTimeout 0)
               Sample.lookups_first
               (SrcResponse 200 (PArray [Some Sample.aland; Some Sample.aland]))
               Sample.empty))
       = List.length data
    /\ List.length
         (db (final
                (uploadCountry (Some Sample.url) true (Sample.calm ExTimeout 0)
                   Sample.lookups_first
                   (SrcResponse 200 (PArray [Some Sample.aland; Some Sample.aland]))
                   Sample.empty)))
       = List.length (db Sample.empty) + c.
Proof.
  apply (uploadCountry_counters (Some Sample.url) true (Sample.calm ExTimeout 0)
           Sample.lookups_first
           (SrcResponse 200 (PArray [Some Sample.aland; Some Sample.aland]))
           Sample.empty [("created", 1); ("updated", 0); ("total", 2)]).
  reflexivity.
Defined.

Lemma uploadCountry_batches_witness :
  batchSize = 10
  /\ List.concat
       (batches (uploadCountry (Some Sample.url) true (Sample.calm ExTimeout 0)
                   Sample.lookups_first
                   (SrcResponse 200 (PArray Sample.twelve)) Sample.empty))
     = Sample.twelve
  /\ StronglySorted batch_le
       (events (uploadCountry (Some Sample.url) true (Sample.calm ExTimeout 0)
                  Sample.lookups_first
                  (SrcResponse 200 (PArray Sample.twelve)) Sample.empty)).
Proof.
  destruct (uploadCountry_batches (Some Sample.url) true
              (Sample.calm ExTimeout 0) Sample.lookups_first 200
              Sample.twelve Sample.empty)
    as (Hsize & Hcat & _ & _ & Hsorted & _).
  - reflexivity.
  - lia.
  - split; [exact Hsize|]. split; [exact Hcat | exact Hsorted].
Defined.

(** ** Invariants of every run *)

Lemma slice_incl {A} (i j : nat) (data : list A) (x : A) :
  In x (slice i j data) -> In x data.
Proof.
  unfold slice. intros H.
  rewrite <- (firstn_skipn i data). apply in_or_app. right.
  rewrite <- (firstn_skipn (j - i) (skipn i data)). apply in_or_app. left.
  exact H.
Qed.

Section RunInvariant.

Variable nulls_largest : bool.
Variable env : nat -> ItemEnv.
Variable sched : nat -> list nat.

(** [I country] is kept by the task of the item [country], [P] by the
    shared state. *)
Variable I : option Countries.t -> Task -> Prop.
Variable P : RunState -> Prop.

Hypothesis resume_keeps :
  forall i country t s, I country t -> P s ->
    I country (fst (resume nulls_largest (env i) t s))
    /\ P (snd (resume nulls_largest (env i) t s)).

Hypothesis trace_free :
  forall s tr, P s -> P (mkRun (world s) (created s) (updated s) tr).

Lemma step_keeps (i : nat) (country : option Countries.t) (t : Task)
  (s : RunState) :
  I country t -> P s ->
  I country (fst (step nulls_largest env i t s))
  /\ P (snd (step nulls_largest env i t s)).
Proof.
  intros Ht Hs. unfold step.
  destruct (resume_keeps i country t s Ht Hs) as [Ht' Hs'].
  destruct (resume nulls_largest (env i) t s) as [t' s']. simpl in *.
  split; [exact Ht'|].
  unfold record_events. destruct (stage_of t); [|exact Hs'].
  apply trace_free. exact Hs'.
Qed.

Lemma step_at_keeps (batch : list (option Countries.t)) (ts : list Task)
  (k base : nat) (s : RunState) :
  Forall2 I batch ts -> P s ->
  Forall2 I batch (fst (step_at nulls_largest env k base ts s))
  /\ P (snd (step_at nulls_largest env k base ts s)).
Proof.
  intros Hts. revert k base s.
  induction Hts as [|country t batch ts Ht Hrest IH]; intros k base s Hs.
  - simpl. auto.
  - destruct k as [|k']; simpl.
    + destruct (step_keeps base country t s Ht Hs) as [Ht' Hs'].
      destruct (step nulls_largest env base t s) as [t' s']. simpl in *.
      split; [constructor; assumption | exact Hs'].
    + destruct (IH k' (S base) s Hs) as [Hrest' Hs'].
      destruct (step_at nulls_largest env k' (S base) ts s) as [rest' s'].
      simpl in *. split; [constructor; assumption | exact Hs'].
Qed.

Lemma run_schedule_keeps (batch : list (option Countries.t))
  (schedule : list nat) (base : nat) (ts : list Task) (s : RunState) :
  Forall2 I batch ts -> P s ->
  Forall2 I batch (fst (run_schedule nulls_largest env schedule base ts s))
  /\ P (snd (run_schedule nulls_largest env schedule base ts s)).
Proof.
  revert ts s. induction schedule as [|k rest IH]; intros ts s Hts Hs; simpl.
  - auto.
  - destruct (step_at_keeps batch ts k base s Hts Hs) as [Hts' Hs'].
    destruct (step_at nulls_largest env k base ts s) as [ts' s']. simpl in *.
    apply IH; assumption.
Qed.

Lemma steps_keeps (n i : nat) (country : option Countries.t) (t : Task)
  (s : RunState) :
  I country t -> P s ->
  I country (fst (steps nulls_largest env n i t s))
  /\ P (snd (steps nulls_largest env n i t s)).
Proof.
  revert t s. induction n as [|n IH]; intros t s Ht Hs; simpl.
  - auto.
  - destruct (step_keeps i country t s Ht Hs) as [Ht' Hs'].
    destruct (step nulls_largest env i t s) as [t' s']. simpl in *.
    apply IH; assumption.
Qed.

Lemma drain_keeps (batch : list (option Countries.t)) (ts : list Task)
  (base : nat) (s : RunState) :
  Forall2 I batch ts -> P s ->
  Forall2 I batch (fst (drain nulls_largest env base ts s))
  /\ P (snd (drain nulls_largest env base ts s)).
Proof.
  intros Hts. revert base s.
  induction Hts as [|country t batch ts Ht Hrest IH]; intros base s Hs.
  - simpl. auto.
  - rewrite drain_cons. cbn [fst snd].
    destruct (steps_keeps max_actions base country t s Ht Hs) as [Ht' Hs'].
    destruct (IH (S base) _ Hs') as [Hrest' Hs''].
    split; [constructor; assumption | exact Hs''].
Qed.

Lemma allSettled_keeps (base : nat) (batch : list (option Countries.t))
  (s : RunState) :
  (forall country, In country batch -> I country (start country)) -> P s ->
  kept_results I batch (fst (allSettled nulls_largest env sched base batch s))
  /\ P (snd (allSettled nulls_largest env sched base batch s)).
Proof.
  intros Hstart Hs. unfold allSettled.
  assert (Hts : Forall2 I batch (map start batch)).
  { clear Hs. induction batch as [|country batch IH]; simpl; constructor.
    - apply Hstart. now left.
    - apply IH. intros c Hc. apply Hstart. now right. }
  assert (Hs0 : P (launched base batch s)) by (apply trace_free; exact Hs).
  destruct (run_schedule_keeps batch (sched base) base _ _ Hts Hs0)
    as [Hts1 Hs1].
  destruct (run_schedule nulls_largest env (sched base) base
              (map start batch) (launched base batch s)) as [ts s1].
  cbn [fst snd] in *.
  destruct (drain_keeps batch ts base s1 Hts1 Hs1) as [Hts2 Hs2].
  pose proof (drain_progress nulls_largest env ts base s1) as [_ Hall].
  destruct (drain nulls_largest env base ts s1) as [ts' s2].
  cbn [fst snd] in *. split; [|exact Hs2].
  unfold kept_results. clear - Hts2 Hall.
  induction Hts2 as [|country t batch ts' Ht _ IH]; simpl; constructor.
  - exists t. inversion Hall; subst. auto.
  - apply IH. now inversion Hall.
Qed.

Lemma loop_keeps (data : list (option Countries.t)) (fuel i : nat)
  (l : LoopState) :
  (forall country, In country data -> I country (start country)) ->
  P (run l) ->
  kept_results I (List.concat (sliced l)) (results l) ->
  Forall2 (kept_log I) (sliced l) (logs l) ->
  P (run (loop nulls_largest env sched fuel i data l))
  /\ kept_results I
       (List.concat (sliced (loop nulls_largest env sched fuel i data l)))
       (results (loop nulls_largest env sched fuel i data l))
  /\ Forall2 (kept_log I)
       (sliced (loop nulls_largest env sched fuel i data l))
       (logs (loop nulls_largest env sched fuel i data l)).
Proof.
  intros Hstart. revert i l.
  induction fuel as [|fuel IH]; intros i l Hs Hres Hlogs; simpl; [auto|].
  destruct (i <? List.length data); [|auto].
  rewrite iteration_eq. cbv zeta.
  destruct (allSettled_keeps i (slice i (i + batchSize) data) (run l))
    as [Hrs Hs']; [|exact Hs|].
  { intros c Hc. apply Hstart. eapply slice_incl. exact Hc. }
  apply IH; cbn [run results logs sliced].
  - exact Hs'.
  - rewrite concat_app. cbn [List.concat]. rewrite app_nil_r.
    apply Forall2_app; assumption.
  - apply Forall2_app; [exact Hlogs|].
    constructor; [|constructor]. eexists. split; [exact Hrs | reflexivity].
Qed.

Lemma uploadCountry_keeps (api_countries : option string) (src : SourceOutcome)
  (w : World) :
  (forall status data, src = SrcResponse status (PArray data) ->
     forall country, In country data -> I country (start country)) ->
  P (mkRun w 0 0 []) ->
  exists s,
    world s = final (uploadCountry api_countries nulls_largest env sched src w)
    /\ trace s = events (uploadCountry api_countries nulls_largest env sched src w)
    /\ (forall obj,
          returned (uploadCountry api_countries nulls_largest env sched src w)
          = Ok obj ->
          prop obj "created" = Some (created s)
          /\ prop obj "updated" = Some (updated s))
    /\ P s
    /\ kept_results I
         (List.concat
            (batches (uploadCountry api_countries nulls_largest env sched src w)))
         (batchResults (uploadCountry api_countries nulls_largest env sched src w))
    /\ Forall2 (kept_log I)
         (batches (uploadCountry api_countries nulls_largest env sched src w))
         (batchLogs (uploadCountry api_countries nulls_largest env sched src w)).
Proof.
  intros Hstart Hs.
  unfold uploadCountry, uploadCountry_try.
  destruct (truthy api_countries); cbn [negb];
    [|exists (mkRun w 0 0 []); simpl; repeat split; auto;
      try discriminate; constructor].
  destruct (fetch src) as [[data|]|e] eqn:Hfetch;
    try (exists (mkRun w 0 0 []); simpl; repeat split; auto;
         try discriminate; constructor).
  assert (Hsrc : exists status, src = SrcResponse status (PArray data)).
  { unfold fetch in Hfetch. destruct src as [| |status body]; try discriminate.
    destruct ((200 <=? status) && (status <? 300)); [|discriminate].
    injection Hfetch as ->. eauto. }
  destruct Hsrc as [status Hsrc].
  destruct (loop_keeps data (List.length data) 0
              (mkLoop (mkRun w 0 0 []) 0 [] [] []))
    as (Hp & Hr & Hl); cbn [run results logs sliced List.concat]; auto;
    try constructor.
  { intros c Hc. eapply Hstart; eauto. }
  eexists. cbn [final events batchResults batchLogs batches returned].
  split; [reflexivity|]. split; [reflexivity|].
  split; [intros obj [= <-]; split; reflexivity|]. auto.
Qed.

End RunInvariant.

(** The batches of a run that returns make up the dataset. *)
Lemma uploadCountry_dataset (api_countries : option string)
  (nulls_largest : bool) (env : nat -> ItemEnv) (sched : nat -> list nat)
  (status : nat) (data : list (option Countries.t)) (w : World) :
  truthy api_countries = true -> 200 <= status < 300 ->
  List.concat (batches (uploadCountry api_countries nulls_largest env sched
                          (SrcResponse status (PArray data)) w)) = data
  /\ List.length (batchResults (uploadCountry api_countries nulls_largest env
                                  sched (SrcResponse status (PArray data)) w))
     = List.length data
  /\ returned (uploadCountry api_countries nulls_largest env sched
                 (SrcResponse status (PArray data)) w)
     = Ok [("created",
            created_of (uploadCountry api_countries nulls_largest env sched
                          (SrcResponse status (PArray data)) w));
           ("updated",
            updated_of (uploadCountry api_countries nulls_largest env sched
                          (SrcResponse status (PArray data)) w));
           ("total", List.length data)].
Proof.
  intros Hapi Hstatus.
  destruct (uploadCountry_loop api_countries nulls_largest env sched status
              data w Hapi Hstatus) as (l & i & -> & Hi & Hinv).
  destruct Hinv as (_ & Hcat & _ & Hproc & Hres & _).
  rewrite firstn_all2 in Hcat, Hproc by exact Hi.
  cbn [batches batchResults returned]. unfold created_of, updated_of.
  cbn [returned prop find fst snd String.eqb Ascii.eqb Bool.eqb].
  split; [exact Hcat|]. split; [lia|]. now rewrite Hproc.
Qed.

Lemma toLowerChar_idem (c : ascii) : toLowerChar (toLowerChar c) = toLowerChar c.
Proof. destruct c as [[] [] [] [] [] [] [] []]; reflexivity. Qed.

Lemma toLowerCase_idem (s : string) : toLowerCase (toLowerCase s) = toLowerCase s.
Proof.
  unfold toLowerCase. induction s as [|c s IH]; simpl; [reflexivity|].
  now rewrite toLowerChar_idem, IH.
Qed.

Lemma findFirst_none_names (tb : Prisma.Table) (n : string) :
  Prisma.findFirst tb n = None <-> ~ In n (names tb).
Proof.
  unfold Prisma.findFirst, names. induction tb as [|row tb IH]; simpl.
  - split; auto.
  - unfold Prisma.has_name at 1. destruct (String.eqb_spec (Country.name row) n).
    + split; [discriminate | intros H; exfalso; apply H; auto].
    + rewrite IH. split; [intros H [Heq | Hin]; auto | intros H Hin; auto].
Qed.

Lemma findFirst_some_named (tb : Prisma.Table) (n : string) (row : Country.t) :
  Prisma.findFirst tb n = Some row -> In row tb /\ Country.name row = n.
Proof.
  unfold Prisma.findFirst. intros H. apply find_some in H as [Hin Hn].
  split; [exact Hin|]. now apply String.eqb_eq in Hn.
Qed.

Lemma names_overwritten (n : string) (c : Countries.t) (existing : Country.t)
  (gdp : Q) (tb : Prisma.Table) :
  names (overwritten n c existing gdp tb) = names tb.
Proof.
  unfold names, overwritten. induction tb as [|row tb IH]; simpl; [reflexivity|].
  rewrite IH. now destruct (Prisma.has_name n row).
Qed.

(** How one action changes the table: not at all, by the update of the
    rows of the item's name, or by one new row of a name not yet there. *)
Lemma resume_db (nulls_largest : bool) (e : ItemEnv) (t : Task) (s : RunState) :
  db (world (snd (resume nulls_largest e t s))) = db (world s)
  \/ (exists c existing gdp,
        t = AwaitUpdate c existing gdp
        /\ db (world (snd (resume nulls_largest e t s)))
           = overwritten (lower_name c) c existing gdp (db (world s)))
  \/ (exists c row,
        t = AwaitCreate c row
        /\ Prisma.findFirst (db (world s)) (Country.name row) = None
        /\ db (world (snd (resume nulls_largest e t s))) = db (world s) ++ [row]).
Proof.
  destruct t as [c|c existing gdp|c code|c row|c m|c st|c st n|c st svg|r];
    unfold resume.
  - destruct (fault e SFind); [left; reflexivity|].
    destruct (Prisma.findFirst _ _); [left; reflexivity|].
    destruct (first_code c) as [code|]; [|left; reflexivity].
    destruct (truthy (Some code)); left; reflexivity.
  - destruct (fault e SWrite); [left; reflexivity|].
    unfold Prisma.update.
    destruct (Prisma.findFirst _ _); [|left; reflexivity].
    right. left. exists c, existing, gdp. split; reflexivity.
  - destruct (getExchangeRate code (exchange e)) as [[rate|m]|err];
      left; reflexivity.
  - destruct (fault e SWrite); [left; reflexivity|].
    unfold Prisma.create.
    destruct (Prisma.findFirst _ _) eqn:Hf; [left; reflexivity|].
    right. right. exists c, row. repeat split; auto.
  - destruct (fault e SWrite); left; reflexivity.
  - destruct (fault e SCount); left; reflexivity.
  - destruct (fault e STop); [left; reflexivity|].
    destruct (Prisma.findMany _ _ _ _ _); left; reflexivity.
  - destruct (fault e SFile); left; reflexivity.
  - left; reflexivity.
Qed.

(** The item of a task stays the same until the task settles. *)
Lemma resume_item (nulls_largest : bool) (e : ItemEnv) (t : Task) (s : RunState)
  (c : Countries.t) :
  item_of (fst (resume nulls_largest e t s)) = Some c -> item_of t = Some c.
Proof.
  destruct t as [c0|c0 existing gdp|c0 code|c0 row|c0 m|c0 st|c0 st n
                 |c0 st svg|r];
    unfold resume.
  - destruct (fault e SFind); [discriminate|].
    destruct (Prisma.findFirst _ _); [auto|].
    destruct (first_code c0) as [code|]; [|auto].
    destruct (truthy (Some code)); auto.
  - destruct (fault e SWrite); [discriminate|].
    destruct (Prisma.update _ _ _); [auto | discriminate].
  - destruct (getExchangeRate code (exchange e)) as [[rate|m]|err];
      [auto | auto | discriminate].
  - destruct (fault e SWrite); [discriminate|].
    destruct (Prisma.create _ _); [auto | discriminate].
  - destruct (fault e SWrite); discriminate.
  - destruct (fault e SCount); [discriminate | auto].
  - destruct (fault e STop); [discriminate|].
    destruct (Prisma.findMany _ _ _ _ _); [auto | discriminate].
  - destruct (fault e SFile); discriminate.
  - discriminate.
Qed.

Lemma filter_no_filter (tb : Prisma.Table) :
  filter (Prisma.matches Prisma.no_filter) tb = tb.
Proof. induction tb as [|row tb IH]; simpl; [reflexivity | now rewrite IH]. Qed.

Lemma findMany_top_five (nulls_largest : bool) (tb : Prisma.Table) :
  Prisma.findMany nulls_largest tb Prisma.no_filter (Some Prisma.desc) (Some 5)
  = Ok (top_five nulls_largest tb).
Proof.
  unfold Prisma.findMany, top_five. cbn [Prisma.w_sort Prisma.no_filter].
  now rewrite filter_no_filter.
Qed.

Lemma away_from_kept (nulls_largest : bool) (e : ItemEnv) (n : string)
  (t : Task) (s : RunState) :
  away_from n t -> away_from n (fst (resume nulls_largest e t s)).
Proof.
  unfold away_from. intros Ht c Hc. apply Ht.
  eapply resume_item. exact Hc.
Qed.

(** ** Invariants that tie a task to the shared state *)

Lemma step_at_head (nulls_largest : bool) (env : nat -> ItemEnv) (base : nat)
  (t : Task) (rest : list Task) (s : RunState) :
  step_at nulls_largest env 0 base (t :: rest) s
  = (fst (step nulls_largest env base t s) :: rest,
     snd (step nulls_largest env base t s)).
Proof. simpl. now destruct (step nulls_largest env base t s). Qed.

Lemma step_at_tail (nulls_largest : bool) (env : nat -> ItemEnv) (k base : nat)
  (t : Task) (rest : list Task) (s : RunState) :
  step_at nulls_largest env (S k) base (t :: rest) s
  = (t :: fst (step_at nulls_largest env k (S base) rest s),
     snd (step_at nulls_largest env k (S base) rest s)).
Proof. simpl. now destruct (step_at nulls_largest env k (S base) rest s). Qed.

Lemma steps_S (nulls_largest : bool) (env : nat -> ItemEnv) (n i : nat)
  (t : Task) (s : RunState) :
  steps nulls_largest env (S n) i t s
  = steps nulls_largest env n i (fst (step nulls_largest env i t s))
          (snd (step nulls_largest env i t s)).
Proof. simpl. now destruct (step nulls_largest env i t s). Qed.

Lemma run_schedule_cons (nulls_largest : bool) (env : nat -> ItemEnv)
  (k : nat) (schedule : list nat) (base : nat) (ts : list Task) (s : RunState) :
  run_schedule nulls_largest env (k :: schedule) base ts s
  = run_schedule nulls_largest env schedule base
      (fst (step_at nulls_largest env k base ts s))
      (snd (step_at nulls_largest env k base ts s)).
Proof. simpl. now destruct (step_at nulls_largest env k base ts s). Qed.

Lemma each_task_cons (J : nat -> Task -> RunState -> Prop) (base : nat)
  (t : Task) (rest : list Task) (s : RunState) :
  each_task J base (t :: rest) s
  <-> J base t s /\ each_task J (S base) rest s.
Proof.
  unfold each_task. split.
  - intros H. split.
    + rewrite <- (Nat.add_0_r base). apply H. reflexivity.
    + intros k u Hk. replace (S base + k) with (base + S k) by lia.
      apply H. exact Hk.
  - intros [Ht Hrest] [|k] u Hk; simpl in Hk.
    + injection Hk as <-. now rewrite Nat.add_0_r.
    + replace (base + S k) with (S base + k) by lia. apply Hrest. exact Hk.
Qed.

Lemma each_task_app (J : nat -> Task -> RunState -> Prop) (base : nat)
  (l1 l2 : list Task) (s : RunState) :
  each_task J base (l1 ++ l2) s
  <-> each_task J base l1 s /\ each_task J (base + List.length l1) l2 s.
Proof.
  revert base. induction l1 as [|t l1 IH]; intros base; simpl.
  - rewrite Nat.add_0_r. split; [intros H; split; [|exact H] | tauto].
    intros k u Hk. destruct k; discriminate.
  - rewrite !each_task_cons, IH.
    replace (S base + List.length l1) with (base + S (List.length l1)) by lia.
    tauto.
Qed.

Lemma step_at_length (nulls_largest : bool) (env : nat -> ItemEnv)
  (ts : list Task) (k base : nat) (s : RunState) :
  List.length (fst (step_at nulls_largest env k base ts s)) = List.length ts.
Proof.
  destruct (step_at_progress nulls_largest env ts k base s) as [H _]. exact H.
Qed.

Section JointInvariant.

Variable nulls_largest : bool.
Variable env : nat -> ItemEnv.
Variable sched : nat -> list nat.

(** [P] is kept by the shared state; [J i] by the task of the item of
    index [i] together with the shared state, whichever task acts. *)
Variable P : RunState -> Prop.
Variable J : nat -> Task -> RunState -> Prop.

Hypothesis step_self :
  forall i t s, P s -> J i t s ->
    P (snd (step nulls_largest env i t s))
    /\ J i (fst (step nulls_largest env i t s))
         (snd (step nulls_largest env i t s)).

Hypothesis step_other :
  forall i t s j u, j <> i -> P s -> J i t s -> J j u s ->
    J j u (snd (step nulls_largest env i t s)).

Hypothesis launch_free :
  forall base batch s,
    (P s -> P (launched base batch s))
    /\ (forall j u, J j u s -> J j u (launched base batch s)).

(** The tasks outside the batch that acts are those of [F]. *)
Lemma step_at_joint (ts : list Task) (k base : nat) (s : RunState)
  (F : nat -> Task -> Prop) :
  (forall j u, F j u -> j < base \/ base + List.length ts <= j) ->
  P s -> each_task J base ts s -> (forall j u, F j u -> J j u s) ->
  P (snd (step_at nulls_largest env k base ts s))
  /\ each_task J base (fst (step_at nulls_largest env k base ts s))
       (snd (step_at nulls_largest env k base ts s))
  /\ (forall j u, F j u -> J j u (snd (step_at nulls_largest env k base ts s))).
Proof.
  revert k base s F.
  induction ts as [|t rest IH]; intros k base s F Hout Hs Hts HF.
  - simpl. auto.
  - apply each_task_cons in Hts as [Ht Hrest].
    destruct k as [|k'].
    + rewrite step_at_head. cbn [fst snd].
      destruct (step_self base t s Hs Ht) as [Hs' Ht'].
      split; [exact Hs'|]. split.
      * apply each_task_cons. split; [exact Ht'|].
        intros k u Hk.
        apply step_other; [lia | exact Hs | exact Ht | apply Hrest; exact Hk].
      * intros j u Hj.
        apply step_other; [|exact Hs | exact Ht | apply HF; exact Hj].
        specialize (Hout j u Hj). simpl in Hout. lia.
    + rewrite step_at_tail. cbn [fst snd].
      destruct (IH k' (S base) s (fun j u => F j u \/ (j = base /\ u = t)))
        as (Hs' & Hrest' & HF'); auto.
      * intros j u [Hj | [-> ->]]; [|lia].
        specialize (Hout j u Hj). simpl in Hout. lia.
      * intros j u [Hj | [-> ->]]; auto.
      * split; [exact Hs'|]. split.
        -- apply each_task_cons. split; [apply HF'; right; auto | exact Hrest'].
        -- intros j u Hj. apply HF'. left. exact Hj.
Qed.

Lemma run_schedule_joint (schedule : list nat) (base : nat) (ts : list Task)
  (s : RunState) (F : nat -> Task -> Prop) :
  (forall j u, F j u -> j < base \/ base + List.length ts <= j) ->
  P s -> each_task J base ts s -> (forall j u, F j u -> J j u s) ->
  P (snd (run_schedule nulls_largest env schedule base ts s))
  /\ each_task J base (fst (run_schedule nulls_largest env schedule base ts s))
       (snd (run_schedule nulls_largest env schedule base ts s))
  /\ (forall j u, F j u ->
        J j u (snd (run_schedule nulls_largest env schedule base ts s))).
Proof.
  revert ts s. induction schedule as [|k rest IH]; intros ts s Hout Hs Hts HF.
  - simpl. auto.
  - rewrite run_schedule_cons.
    destruct (step_at_joint ts k base s F Hout Hs Hts HF) as (Hs' & Hts' & HF').
    apply IH; auto. now rewrite step_at_length.
Qed.

Lemma steps_joint (n i : nat) (t : Task) (s : RunState)
  (F : nat -> Task -> Prop) :
  (forall j u, F j u -> j <> i) ->
  P s -> J i t s -> (forall j u, F j u -> J j u s) ->
  P (snd (steps nulls_largest env n i t s))
  /\ J i (fst (steps nulls_largest env n i t s))
       (snd (steps nulls_largest env n i t s))
  /\ (forall j u, F j u -> J j u (snd (steps nulls_largest env n i t s))).
Proof.
  intros Hout. revert t s. induction n as [|n IH]; intros t s Hs Ht HF.
  - simpl. auto.
  - rewrite steps_S. destruct (step_self i t s Hs Ht) as [Hs' Ht'].
    apply IH; auto. intros j u Hj.
    apply step_other; [eapply Hout; exact Hj | exact Hs | exact Ht | auto].
Qed.

Lemma drain_joint (ts : list Task) (base : nat) (s : RunState)
  (F : nat -> Task -> Prop) :
  (forall j u, F j u -> j < base \/ base + List.length ts <= j) ->
  P s -> each_task J base ts s -> (forall j u, F j u -> J j u s) ->
  P (snd (drain nulls_largest env base ts s))
  /\ each_task J base (fst (drain nulls_largest env base ts s))
       (snd (drain nulls_largest env base ts s))
  /\ (forall j u, F j u -> J j u (snd (drain nulls_largest env base ts s))).
Proof.
  revert base s F.
  induction ts as [|t rest IH]; intros base s F Hout Hs Hts HF.
  - simpl. auto.
  - apply each_task_cons in Hts as [Ht Hrest].
    rewrite drain_cons. cbn [fst snd].
    destruct (steps_joint max_actions base t s
                (fun j u => F j u
                            \/ exists k, nth_error rest k = Some u
                                         /\ j = S base + k))
      as (Hs1 & Ht1 & HF1); auto.
    { intros j u [Hj | (k & _ & ->)]; [|lia].
      specialize (Hout j u Hj). simpl in Hout. lia. }
    { intros j u [Hj | (k & Hk & ->)]; auto. }
    destruct (IH (S base) (snd (steps nulls_largest env max_actions base t s))
                (fun j u => F j u
                            \/ (j = base
                                /\ u = fst (steps nulls_largest env max_actions
                                              base t s))))
      as (Hs2 & Hrest2 & HF2); auto.
    { intros j u [Hj | [-> ->]]; [|lia].
      specialize (Hout j u Hj). simpl in Hout. lia. }
    { intros k u Hk. apply HF1. right. eauto. }
    { intros j u [Hj | [-> ->]]; auto. }
    split; [exact Hs2|]. split.
    + apply each_task_cons. split; [apply HF2; right; auto | exact Hrest2].
    + intros j u Hj. apply HF2. left. exact Hj.
Qed.

Lemma settled_results (ts : list Task) :
  Forall (fun t => is_settled t = true) ts ->
  map Settled (map result_of ts) = ts.
Proof.
  induction 1 as [|t ts Ht _ IH]; simpl; [reflexivity|].
  rewrite IH. destruct t; try discriminate. reflexivity.
Qed.

Lemma allSettled_joint (base : nat) (batch : list (option Countries.t))
  (s : RunState) (F : nat -> Task -> Prop) :
  (forall j u, F j u -> j < base \/ base + List.length batch <= j) ->
  (forall k country s', nth_error batch k = Some country -> P s' ->
     J (base + k) (start country) s') ->
  P s -> (forall j u, F j u -> J j u s) ->
  P (snd (allSettled nulls_largest env sched base batch s))
  /\ each_task J base
       (map Settled (fst (allSettled nulls_largest env sched base batch s)))
       (snd (allSettled nulls_largest env sched base batch s))
  /\ (forall j u, F j u ->
        J j u (snd (allSettled nulls_largest env sched base batch s))).
Proof.
  intros Hout Hstart Hs HF. unfold allSettled.
  destruct (launch_free base batch s) as [HP0 HJ0].
  assert (Hs0 : P (launched base batch s)) by auto.
  assert (Hts0 : each_task J base (map start batch) (launched base batch s)).
  { intros k t Hk. rewrite nth_error_map in Hk.
    destruct (nth_error batch k) as [country|] eqn:Hc; [|discriminate].
    injection Hk as <-. apply Hstart; assumption. }
  assert (Hout0 : forall j u, F j u ->
                    j < base \/ base + List.length (map start batch) <= j).
  { intros j u Hj. rewrite length_map. eapply Hout. exact Hj. }
  destruct (run_schedule_joint (sched base) base (map start batch)
              (launched base batch s) F Hout0 Hs0 Hts0
              (fun j u Hj => HJ0 j u (HF j u Hj)))
    as (Hs1 & Hts1 & HF1).
  pose proof (run_schedule_progress nulls_largest env (sched base) base
                (map start batch) (launched base batch s)) as [Hlen _].
  destruct (run_schedule nulls_largest env (sched base) base
              (map start batch) (launched base batch s)) as [ts s1].
  cbn [fst snd] in *.
  assert (Hout1 : forall j u, F j u ->
                    j < base \/ base + List.length ts <= j).
  { intros j u Hj. rewrite Hlen. exact (Hout0 j u Hj). }
  destruct (drain_joint ts base s1 F Hout1 Hs1 Hts1 HF1) as (Hs2 & Hts2 & HF2).
  pose proof (drain_progress nulls_largest env ts base s1) as [_ Hall].
  destruct (drain nulls_largest env base ts s1) as [ts' s2].
  cbn [fst snd] in *.
  rewrite (settled_results ts' Hall). auto.
Qed.

Lemma nth_error_slice {A} (i n k : nat) (l : list A) (x : A) :
  nth_error (slice i (i + n) l) k = Some x -> nth_error l (i + k) = Some x.
Proof.
  rewrite slice_eq, nth_error_firstn.
  destruct (k <? n); [|discriminate].
  now rewrite nth_error_skipn.
Qed.

Lemma loop_joint (data : list (option Countries.t)) (fuel i : nat)
  (l : LoopState) :
  (forall k country s, nth_error data k = Some country -> P s ->
     J k (start country) s) ->
  List.length (results l) = Nat.min i (List.length data) ->
  P (run l) -> each_task J 0 (map Settled (results l)) (run l) ->
  P (run (loop nulls_largest env sched fuel i data l))
  /\ each_task J 0
       (map Settled (results (loop nulls_largest env sched fuel i data l)))
       (run (loop nulls_largest env sched fuel i data l)).
Proof.
  intros Hstart. revert i l.
  induction fuel as [|fuel IH]; intros i l Hlen Hs Hts; simpl; [auto|].
  destruct (i <? List.length data) eqn:Hlt; [|auto].
  apply Nat.ltb_lt in Hlt.
  rewrite iteration_eq. cbv zeta.
  set (batch := slice i (i + batchSize) data).
  destruct (allSettled_spec nulls_largest env sched i batch (run l))
    as (Hrs & _).
  assert (Hout : forall j u,
             nth_error (map Settled (results l)) j = Some u ->
             j < i \/ i + List.length batch <= j).
  { intros j u Hj. left.
    assert (H : j < List.length (map Settled (results l))).
    { apply nth_error_Some. congruence. }
    rewrite length_map in H. lia. }
  assert (Hstart' : forall k country s',
             nth_error batch k = Some country -> P s' ->
             J (i + k) (start country) s').
  { intros k country s' Hk Hs'. apply Hstart; [|exact Hs'].
    eapply nth_error_slice. exact Hk. }
  destruct (allSettled_joint i batch (run l)
              (fun j u => nth_error (map Settled (results l)) j = Some u)
              Hout Hstart' Hs (fun j u Hj => Hts j u Hj))
    as (Hs' & Hnew & Hold).
  apply IH; cbn [run results].
  - rewrite length_app, Hrs. unfold batch. rewrite slice_length.
    unfold batchSize. lia.
  - exact Hs'.
  - rewrite map_app. apply each_task_app. split.
    + intros k u Hk. apply Hold. exact Hk.
    + rewrite length_map. replace (0 + List.length (results l)) with i by lia.
      exact Hnew.
Qed.

(** A run whose fetch succeeds keeps [P], and the settled result of
    every item keeps [J] with the state the run leaves. *)
Lemma uploadCountry_joint (api_countries : option string) (status : nat)
  (data : list (option Countries.t)) (w : World) :
  truthy api_countries = true -> 200 <= status < 300 ->
  (forall k country s, nth_error data k = Some country -> P s ->
     J k (start country) s) ->
  P (mkRun w 0 0 []) ->
  exists s,
    world s = final (uploadCountry api_countries nulls_largest env sched
                       (SrcResponse status (PArray data)) w)
    /\ trace s = events (uploadCountry api_countries nulls_largest env sched
                           (SrcResponse status (PArray data)) w)
    /\ (forall obj,
          returned (uploadCountry api_countries nulls_largest env sched
                      (SrcResponse status (PArray data)) w) = Ok obj ->
          prop obj "created" = Some (created s)
          /\ prop obj "updated" = Some (updated s))
    /\ P s
    /\ each_task J 0
         (map Settled
            (batchResults (uploadCountry api_countries nulls_largest env sched
                             (SrcResponse status (PArray data)) w))) s.
Proof.
  intros Hapi Hstatus Hstart Hs.
  unfold uploadCountry, uploadCountry_try.
  rewrite Hapi, (fetch_ok status _ Hstatus). cbn [negb].
  destruct (loop_joint data (List.length data) 0
              (mkLoop (mkRun w 0 0 []) 0 [] [] []) Hstart)
    as [Hp Hr]; cbn [run results]; auto.
  { intros k u Hk. destruct k; discriminate. }
  eexists. cbn [final events batchResults returned].
  split; [reflexivity|]. split; [reflexivity|].
  split; [intros obj [= <-]; split; reflexivity|]. split; assumption.
Qed.

End JointInvariant.


(** ** The update path in every run *)

Lemma findFirst_app_found (tb tb' : Prisma.Table) (n : string) (row : Country.t) :
  Prisma.findFirst tb n = Some row -> Prisma.findFirst (tb ++ tb') n = Some row.
Proof.
  unfold Prisma.findFirst. induction tb as [|r tb IH]; simpl; [discriminate|].
  destruct (Prisma.has_name n r); auto.
Qed.

Lemma findFirst_app_other (tb : Prisma.Table) (row : Country.t) (n : string) :
  Country.name row <> n ->
  Prisma.findFirst (tb ++ [row]) n = Prisma.findFirst tb n.
Proof.
  intros Hne. unfold Prisma.findFirst. induction tb as [|r tb IH]; simpl.
  - unfold Prisma.has_name.
    destruct (String.eqb_spec (Country.name row) n); [contradiction|reflexivity].
  - destruct (Prisma.has_name n r); auto.
Qed.

Lemma written_kept (env : nat -> ItemEnv) (data : list (option Countries.t))
  (existing row : Country.t) :
  row = existing \/ written_by env data existing row -> same_kept row existing.
Proof.
  intros [-> | (writer & gdp & _ & _ & _ & ->)]; repeat split; reflexivity.
Qed.

(** The update of the name of [existing] leaves an updated row. *)
Lemma update_writes (env : nat -> ItemEnv) (data : list (option Countries.t))
  (existing : Country.t) (c : Countries.t) (ex : Country.t) (gdp : Q)
  (tb : Prisma.Table) :
  reached env data existing tb ->
  updating env data existing (AwaitUpdate c ex gdp) ->
  lower_name c = Country.name existing ->
  written env data existing (overwritten (lower_name c) c ex gdp tb).
Proof.
  intros (row & Hf & Hrow) [Hin Hup] Hn.
  destruct (Hup Hn) as [(Hname & Hcur & Hrate & Hflag) Hest].
  exists (update_data c ex gdp row). split.
  - rewrite Hn. apply findFirst_overwritten. exact Hf.
  - exists c, gdp. split; [apply Hin; reflexivity|]. split; [exact Hn|].
    split; [now rewrite <- Hrate|].
    apply findFirst_some_named in Hf as [_ Hrn].
    unfold update_data. now rewrite Hrn, Hcur, Hrate, Hflag.
Qed.

(** What an action of any task does to the row of the name of
    [existing]: nothing, or it leaves an updated row. *)
Lemma update_effect (nulls_largest : bool) (env : nat -> ItemEnv) (e : ItemEnv)
  (data : list (option Countries.t)) (existing : Country.t) (t : Task)
  (s : RunState) :
  reached env data existing (db (world s)) -> updating env data existing t ->
  Prisma.findFirst (db (world (snd (resume nulls_largest e t s))))
                   (Country.name existing)
  = Prisma.findFirst (db (world s)) (Country.name existing)
  \/ written env data existing (db (world (snd (resume nulls_largest e t s)))).
Proof.
  intros Hs Ht.
  destruct (resume_db nulls_largest e t s)
    as [-> | [(c & ex & gdp & -> & ->) | (c & row & -> & _ & ->)]].
  - now left.
  - destruct (string_dec (lower_name c) (Country.name existing)) as [Hn | Hn].
    + right. apply update_writes; assumption.
    + left. apply findFirst_overwritten_other. congruence.
  - left. destruct Hs as (r & Hf & _). rewrite Hf.
    apply findFirst_app_found. exact Hf.
Qed.

Lemma reached_kept (nulls_largest : bool) (env : nat -> ItemEnv) (e : ItemEnv)
  (data : list (option Countries.t)) (existing : Country.t) (t : Task)
  (s : RunState) :
  reached env data existing (db (world s)) -> updating env data existing t ->
  reached env data existing (db (world (snd (resume nulls_largest e t s)))).
Proof.
  intros Hs Ht.
  destruct (update_effect nulls_largest env e data existing t s Hs Ht)
    as [Heq | (row & Hf & Hw)].
  - destruct Hs as (row & Hf & Hrow). exists row. now rewrite Heq.
  - exists row. auto.
Qed.

Lemma written_stable (nulls_largest : bool) (env : nat -> ItemEnv) (e : ItemEnv)
  (data : list (option Countries.t)) (existing : Country.t) (t : Task)
  (s : RunState) :
  reached env data existing (db (world s)) -> updating env data existing t ->
  written env data existing (db (world s)) ->
  written env data existing (db (world (snd (resume nulls_largest e t s)))).
Proof.
  intros Hs Ht (row & Hf & Hw).
  destruct (update_effect nulls_largest env e data existing t s Hs Ht)
    as [Heq | H]; [|exact H].
  exists row. now rewrite Heq.
Qed.

Lemma updating_kept (nulls_largest : bool) (env : nat -> ItemEnv) (i : nat)
  (data : list (option Countries.t)) (existing : Country.t) (t : Task)
  (s : RunState) :
  reached env data existing (db (world s)) -> updating env data existing t ->
  updating env data existing (fst (resume nulls_largest (env i) t s)).
Proof.
  intros Hs [Hitem Ht]. split.
  { intros c Hc. apply Hitem. eapply resume_item. exact Hc. }
  destruct t as [c|c ex gdp|c code|c row|c m|c st|c st n|c st svg|r];
    unfold resume.
  - destruct (fault (env i) SFind); [exact Logic.I|].
    destruct (Prisma.findFirst _ _) as [found|] eqn:Hf.
    + intros Hn. destruct Hs as (row & Hrow & Hkept).
      fold (lower_name c) in Hf. rewrite Hn, Hrow in Hf. injection Hf as <-.
      split; [eapply written_kept; exact Hkept|].
      exists i. reflexivity.
    + destruct (first_code c) as [code|]; [|reflexivity].
      destruct (truthy (Some code)); [exact Logic.I | reflexivity].
  - destruct (fault (env i) SWrite); [exact Logic.I|].
    destruct (Prisma.update _ _ _); exact Logic.I.
  - destruct (getExchangeRate code (exchange (env i))) as [[rate|m]|err];
      [reflexivity | exact Logic.I | exact Logic.I].
  - destruct (fault (env i) SWrite); [exact Logic.I|].
    destruct (Prisma.create _ _); exact Logic.I.
  - destruct (fault (env i) SWrite); exact Logic.I.
  - destruct (fault (env i) SCount); exact Logic.I.
  - destruct (fault (env i) STop); [exact Logic.I|].
    destruct (Prisma.findMany _ _ _ _ _); exact Logic.I.
  - destruct (fault (env i) SFile); exact Logic.I.
  - exact Logic.I.
Qed.

(** An action, with the events it records. *)
Lemma step_facts (nulls_largest : bool) (env : nat -> ItemEnv) (i : nat)
  (t : Task) (s : RunState) :
  fst (step nulls_largest env i t s) = fst (resume nulls_largest (env i) t s)
  /\ world (snd (step nulls_largest env i t s))
     = world (snd (resume nulls_largest (env i) t s))
  /\ exists evs,
       trace (snd (step nulls_largest env i t s)) = trace s ++ evs
       /\ (forall e, In e evs ->
             e = Settle i \/ exists st, stage_of t = Some st /\ e = Call i st)
       /\ (forall st, stage_of t = Some st -> In (Call i st) evs).
Proof.
  unfold step.
  pose proof (resume_facts nulls_largest (env i) t s) as (_ & _ & _ & Htr).
  destruct (resume nulls_largest (env i) t s) as [t' s']. cbn [fst snd] in *.
  split; [reflexivity|]. unfold record_events.
  destruct (stage_of t) as [st|].
  - cbn [world trace]. split; [reflexivity|].
    exists (Call i st :: (if is_settled t' then [Settle i] else [])).
    split; [now rewrite Htr|]. split.
    + intros e [<- | He]; [right; eauto|].
      destruct (is_settled t'); [|destruct He].
      destruct He as [<- | []]. now left.
    + intros st' [= <-]. now left.
  - split; [reflexivity|]. exists []. split; [now rewrite Htr, app_nil_r|].
    split; [intros e [] | discriminate].
Qed.

(** The events of an action leave the counter of the updates alone,
    and its effect never lowers it. *)
Lemma step_updated (nulls_largest : bool) (env : nat -> ItemEnv) (i : nat)
  (t : Task) (s : RunState) :
  updated (snd (step nulls_largest env i t s))
  = updated (snd (resume nulls_largest (env i) t s))
  /\ updated s <= updated (snd (resume nulls_largest (env i) t s)).
Proof.
  split.
  - unfold step.
    destruct (resume nulls_largest (env i) t s) as [t' s']. cbn [fst snd].
    unfold record_events. destruct (stage_of t); reflexivity.
  - destruct t as [c|c ex gdp|c code|c row|c m|c st|c st n|c st svg|r];
      unfold resume.
    + destruct (fault (env i) SFind); [cbn [snd]; lia|].
      destruct (Prisma.findFirst _ _); [cbn [snd]; lia|].
      destruct (first_code c) as [code|]; [|cbn [snd]; lia].
      destruct (truthy (Some code)); cbn [snd]; lia.
    + destruct (fault (env i) SWrite); [cbn [snd]; lia|].
      destruct (Prisma.update _ _ _); cbn [snd updated]; lia.
    + destruct (getExchangeRate code (exchange (env i))) as [[rate|m]|err];
        cbn [snd]; lia.
    + destruct (fault (env i) SWrite); [cbn [snd]; lia|].
      destruct (Prisma.create _ _); cbn [snd updated]; lia.
    + destruct (fault (env i) SWrite); cbn [snd]; lia.
    + destruct (fault (env i) SCount); cbn [snd]; lia.
    + destruct (fault (env i) STop); [cbn [snd]; lia|].
      destruct (Prisma.findMany _ _ _ _ _); cbn [snd]; lia.
    + destruct (fault (env i) SFile); cbn [snd updated]; lia.
    + cbn [snd]. lia.
Qed.

Lemma settled_at_start_settle (base : nat) (batch : list (option Countries.t))
  (e : Event) :
  In e (settled_at_start base batch) -> exists i, e = Settle i.
Proof.
  revert base. induction batch as [|[c|] batch IH]; intros base; simpl.
  - intros [].
  - apply IH.
  - intros [<- | H]; eauto.
Qed.

Section UpdatePath.

Variable nulls_largest : bool.
Variable env : nat -> ItemEnv.
Variable data : list (option Countries.t).
Variable i0 : nat.
Variable c : Countries.t.
Variable existing : Country.t.

Hypothesis item_i0 : nth_error data i0 = Some (Some c).
Hypothesis named : lower_name c = Country.name existing.
Hypothesis finds : fault (env i0) SFind = false.
Hypothesis writes : fault (env i0) SWrite = false.

Lemma update_track_self (i : nat) (t : Task) (s : RunState) :
  update_state env data i0 existing s ->
  update_track env data i0 c existing i t s ->
  update_state env data i0 existing (snd (step nulls_largest env i t s))
  /\ update_track env data i0 c existing i (fst (step nulls_largest env i t s))
       (snd (step nulls_largest env i t s)).
Proof.
  intros [Hreach Hnorate] [Hup Htrack].
  destruct (step_facts nulls_largest env i t s)
    as (Hfst & Hworld & evs & Htr & Hevs & Hcall).
  destruct (step_updated nulls_largest env i t s) as [Hupd Hmono].
  unfold update_state, update_track. rewrite Hfst, Hworld, Htr, Hupd.
  split; [split|split].
  - apply reached_kept; assumption.
  - intros Hin. apply in_app_or in Hin as [Hin | Hin]; [contradiction|].
    destruct (Hevs _ Hin) as [H | (st & Hst & H)]; [discriminate|].
    injection H as <- <-. specialize (Htrack eq_refl).
    destruct t; try discriminate. exact Htrack.
  - apply updating_kept; assumption.
  - intros ->. specialize (Htrack eq_refl).
    assert (Hkeep : written env data existing (db (world s)) ->
                    written env data existing
                      (db (world (snd (resume nulls_largest (env i0) t s))))).
    { apply written_stable; assumption. }
    assert (Hgrow : forall e, In e (trace s) -> In e (trace s ++ evs)).
    { intros e He. apply in_or_app. now left. }
    destruct t as [c'|c' ex gdp|c' code|c' row|c' m|c' p|c' p n|c' p svg|r];
      try contradiction.
    + subst c'. unfold resume. rewrite finds.
      destruct Hreach as (row & Hrow & _).
      fold (lower_name c). rewrite named, Hrow. reflexivity.
    + subst c'.
      assert (Hw : written env data existing
                     (overwritten (lower_name c) c ex gdp (db (world s)))).
      { apply update_writes; assumption. }
      assert (Hin : In (Call i0 SWrite) (trace s ++ evs)).
      { apply in_or_app. right. apply Hcall. reflexivity. }
      clear Hmono. revert Hin. unfold resume. rewrite writes.
      unfold Prisma.update.
      destruct Hreach as (row & Hrow & _).
      fold (lower_name c). rewrite named, Hrow. rewrite named in Hw.
      cbn [fst snd world db updated]. intros Hin.
      repeat (split; [auto; fail|]). lia.
    + destruct Htrack as (-> & -> & Hw & Hin & Hone).
      specialize (Hkeep Hw).
      assert (Hone' : 1 <= updated (snd (resume nulls_largest (env i0)
                                            (AwaitCount c Was_updated) s)))
        by lia.
      clear Hmono. revert Hkeep Hone'. unfold resume.
      destruct (fault (env i0) SCount); cbn [fst snd caught];
        intros Hkeep Hone'.
      * split; [right; exists (Fault SCount); auto | auto].
      * auto 6.
    + destruct Htrack as (-> & -> & Hw & Hin & Hone).
      specialize (Hkeep Hw).
      assert (Hone' : 1 <= updated (snd (resume nulls_largest (env i0)
                                            (AwaitTop c Was_updated n) s)))
        by lia.
      clear Hmono. revert Hkeep Hone'. unfold resume.
      rewrite findMany_top_five.
      destruct (fault (env i0) STop); cbn [fst snd caught];
        intros Hkeep Hone'.
      * split; [right; exists (Fault STop); auto | auto].
      * auto 6.
    + destruct Htrack as (-> & -> & Hw & Hin & Hone).
      specialize (Hkeep Hw).
      assert (Hone' : 1 <= updated (snd (resume nulls_largest (env i0)
                                            (AwaitFile c Was_updated svg) s)))
        by lia.
      clear Hmono. revert Hkeep Hone'. unfold resume.
      destruct (fault (env i0) SFile); cbn [fst snd caught];
        intros Hkeep Hone'.
      * split; [right; exists (Fault SFile); auto | auto].
      * split; [left; reflexivity | auto].
    + destruct Htrack as (Hr & Hw & Hin & Hone). specialize (Hkeep Hw).
      cbn [resume fst snd] in *. auto.
Qed.

Lemma update_track_other (i : nat) (t : Task) (s : RunState) (j : nat)
  (u : Task) :
  j <> i ->
  update_state env data i0 existing s ->
  update_track env data i0 c existing i t s ->
  update_track env data i0 c existing j u s ->
  update_track env data i0 c existing j u (snd (step nulls_largest env i t s)).
Proof.
  intros Hne [Hreach _] [Hup _] [Hu Htrack].
  destruct (step_facts nulls_largest env i t s)
    as (_ & Hworld & evs & Htr & _ & _).
  destruct (step_updated nulls_largest env i t s) as [Hupd Hmono].
  unfold update_track. rewrite Hworld, Htr, Hupd. split; [exact Hu|].
  intros Hj. specialize (Htrack Hj).
  assert (Hone : 1 <= updated s ->
                 1 <= updated (snd (resume nulls_largest (env i) t s)))
    by lia.
  assert (Hkeep : written env data existing (db (world s)) ->
                  written env data existing
                    (db (world (snd (resume nulls_largest (env i) t s))))).
  { apply written_stable; assumption. }
  assert (Hgrow : forall e, In e (trace s) -> In e (trace s ++ evs)).
  { intros e He. apply in_or_app. now left. }
  destruct u as [c'|c' ex gdp|c' code|c' row|c' m|c' p|c' p n|c' p svg|r];
    try exact Htrack;
    repeat match goal with
           | H : _ /\ _ |- _ => destruct H
           end; auto 6.
Qed.

Lemma update_track_launch (base : nat) (batch : list (option Countries.t))
  (s : RunState) :
  (update_state env data i0 existing s ->
   update_state env data i0 existing (launched base batch s))
  /\ (forall j u, update_track env data i0 c existing j u s ->
                  update_track env data i0 c existing j u (launched base batch s)).
Proof.
  split.
  - intros [Hreach Hnorate]. split; [exact Hreach|].
    cbn [launched trace]. intros Hin.
    apply in_app_or in Hin as [Hin | Hin]; [contradiction|].
    apply settled_at_start_settle in Hin as [k Hk]. discriminate Hk.
  - intros j u [Hu Htrack]. split; [exact Hu|].
    intros Hj. specialize (Htrack Hj). cbn [launched trace world].
    assert (Hgrow : forall e, In e (trace s) ->
                      In e (trace s ++ settled_at_start base batch)).
    { intros e He. apply in_or_app. now left. }
    destruct u as [c'|c' ex gdp|c' code|c' row|c' m|c' p|c' p n|c' p svg|r];
      try exact Htrack;
      repeat match goal with
             | H : _ /\ _ |- _ => destruct H
             end; auto 6.
Qed.

Lemma update_track_start (k : nat) (country : option Countries.t)
  (s : RunState) :
  nth_error data k = Some country ->
  update_track env data i0 c existing k (start country) s.
Proof.
  intros Hk. split.
  - destruct country as [c'|]; simpl; split; auto; try discriminate.
    intros c'' [= <-]. eapply nth_error_In. exact Hk.
  - intros ->. rewrite item_i0 in Hk. injection Hk as <-. reflexivity.
Qed.

Lemma update_path_run (api_countries : option string)
  (sched : nat -> list nat) (status : nat) (w : World) :
  truthy api_countries = true -> 200 <= status < 300 ->
  Prisma.findFirst (db w) (Country.name existing) = Some existing ->
  written env data existing
    (db (final (uploadCountry api_countries nulls_largest env sched
                  (SrcResponse status (PArray data)) w)))
  /\ ~ In (Call i0 SRate)
          (events (uploadCountry api_countries nulls_largest env sched
                     (SrcResponse status (PArray data)) w))
  /\ In (Call i0 SWrite)
        (events (uploadCountry api_countries nulls_largest env sched
                   (SrcResponse status (PArray data)) w))
  /\ exists r,
       nth_error (batchResults (uploadCountry api_countries nulls_largest env
                                  sched (SrcResponse status (PArray data)) w)) i0
       = Some r
       /\ (r = fulfilled (result_updated (Countries.name c))
           \/ exists e, render_error e = true
                        /\ r = fulfilled (result_failed (Countries.name c) e))
       /\ exists created updated,
            returned (uploadCountry api_countries nulls_largest env sched
                        (SrcResponse status (PArray data)) w)
            = Ok [("created", created); ("updated", updated);
                  ("total", List.length data)]
            /\ 1 <= updated.
Proof.
  intros Hapi Hstatus Hex.
  destruct (uploadCountry_joint nulls_largest env sched
              (update_state env data i0 existing)
              (update_track env data i0 c existing)
              update_track_self update_track_other update_track_launch
              api_countries status data w Hapi Hstatus)
    as (s & Hworld & Htrace & Hobj & [_ Hnorate] & Hall).
  { intros k country s Hk _. apply update_track_start; assumption. }
  { split; [|intros []]. exists existing. cbn [world db]. auto. }
  destruct (uploadCountry_dataset api_countries nulls_largest env sched status
              data w Hapi Hstatus) as (_ & Hlen & Hret).
  destruct (Hobj _ Hret) as [_ Hup].
  cbn [prop find fst snd String.eqb Ascii.eqb Bool.eqb] in Hup.
  injection Hup as Hup.
  rewrite <- Hworld, <- Htrace.
  destruct (nth_error (batchResults _) i0) as [r|] eqn:Hr.
  - assert (Hj : update_track env data i0 c existing (0 + i0) (Settled r) s).
    { apply Hall. rewrite nth_error_map, Hr. reflexivity. }
    destruct Hj as [_ Hj]. destruct (Hj eq_refl) as (Hres & Hw & Hin & Hone).
    split; [exact Hw|]. split; [exact Hnorate|]. split; [exact Hin|].
    exists r. split; [reflexivity|]. split; [exact Hres|].
    eexists. eexists. split; [exact Hret|]. rewrite Hup. exact Hone.
  - exfalso. apply nth_error_None in Hr.
    assert (i0 < List.length data) by (apply nth_error_Some; congruence).
    lia.
Qed.

End UpdatePath.

(** The update path of an item in a run over any dataset, under any
    schedule: the item of index [i], whose lower-cased name has the row
    [existing] before the run and whose lookup and write do not fail,
    writes its update and is counted as updated; the run leaves, under
    that name, the row as an update of an item of that name leaves it;
    and the item does not ask for an exchange rate. *)
Lemma update_path_general (api_countries : option string)
  (nulls_largest : bool) (env : nat -> ItemEnv) (sched : nat -> list nat)
  (status : nat) (data : list (option Countries.t)) (w : World) (i : nat)
  (c : Countries.t) (existing : Country.t) :
  truthy api_countries = true -> 200 <= status < 300 ->
  nth_error data i = Some (Some c) ->
  Prisma.findFirst (db w) (lower_name c) = Some existing ->
  fault (env i) SFind = false ->
  fault (env i) SWrite = false ->
  written env data existing
    (db (final (uploadCountry api_countries nulls_largest env sched
                  (SrcResponse status (PArray data)) w)))
  /\ ~ In (Call i SRate)
          (events (uploadCountry api_countries nulls_largest env sched
                     (SrcResponse status (PArray data)) w))
  /\ In (Call i SWrite)
        (events (uploadCountry api_countries nulls_largest env sched
                   (SrcResponse status (PArray data)) w))
  /\ exists r,
       nth_error (batchResults (uploadCountry api_countries nulls_largest env
                                  sched (SrcResponse status (PArray data)) w)) i
       = Some r
       /\ (r = fulfilled (result_updated (Countries.name c))
           \/ exists e, render_error e = true
                        /\ r = fulfilled (result_failed (Countries.name c) e))
       /\ exists created updated,
            returned (uploadCountry api_countries nulls_largest env sched
                        (SrcResponse status (PArray data)) w)
            = Ok [("created", created); ("updated", updated);
                  ("total", List.length data)]
            /\ 1 <= updated.
Proof.
  intros Hapi Hstatus Hitem Hex Hfind Hwrite.
  assert (Hnamed : lower_name c = Country.name existing).
  { apply findFirst_some_named in Hex as [_ Hn]. now symmetry. }
  rewrite Hnamed in Hex.
  eapply update_path_run; eassumption.
Qed.

(** The row a task is about to create bears the lower-cased name of its
    item, whatever the task was before. *)
Lemma creates_named_resume (nulls_largest : bool) (e : ItemEnv) (t : Task)
  (s : RunState) :
  creates_named (fst (resume nulls_largest e t s)).
Proof.
  destruct t as [c|c ex gdp|c code|c row|c m|c st|c st n|c st svg|r];
    unfold resume.
  - destruct (fault e SFind); [exact Logic.I|].
    destruct (Prisma.findFirst _ _); [exact Logic.I|].
    destruct (first_code c) as [code|]; [|reflexivity].
    destruct (truthy (Some code)); [exact Logic.I | reflexivity].
  - destruct (fault e SWrite); [exact Logic.I|].
    destruct (Prisma.update _ _ _); exact Logic.I.
  - destruct (getExchangeRate code (exchange e)) as [[rate|m]|err];
      [reflexivity | exact Logic.I | exact Logic.I].
  - destruct (fault e SWrite); [exact Logic.I|].
    destruct (Prisma.create _ _); exact Logic.I.
  - destruct (fault e SWrite); exact Logic.I.
  - destruct (fault e SCount); exact Logic.I.
  - destruct (fault e STop); [exact Logic.I|].
    destruct (Prisma.findMany _ _ _ _ _); exact Logic.I.
  - destruct (fault e SFile); exact Logic.I.
  - exact Logic.I.
Qed.

(** A run leaves the lookup of every name that is the lower-cased name
    of no item of the dataset as it was. *)
Lemma other_names_kept (api_countries : option string)
  (nulls_largest : bool) (env : nat -> ItemEnv) (sched : nat -> list nat)
  (status : nat) (data : list (option Countries.t)) (w : World) (n : string) :
  (forall c, In (Some c) data -> lower_name c <> n) ->
  Prisma.findFirst
    (db (final (uploadCountry api_countries nulls_largest env sched
                  (SrcResponse status (PArray data)) w))) n
  = Prisma.findFirst (db w) n.
Proof.
  intros Hdata.
  destruct (uploadCountry_keeps nulls_largest env sched
              (fun _ t => away_from n t /\ creates_named t)
              (fun s => Prisma.findFirst (db (world s)) n
                        = Prisma.findFirst (db w) n)) with
    (api_countries := api_countries)
    (src := SrcResponse status (PArray data)) (w := w)
    as (s & <- & _ & _ & Hs & _); auto.
  - intros i country t s [Ht Hnamed] Hs.
    split; [split; [apply away_from_kept; exact Ht
                   | apply creates_named_resume]|].
    destruct (resume_db nulls_largest (env i) t s)
      as [-> | [(c & existing & gdp & -> & ->) | (c & r & -> & Hnone & ->)]].
    + exact Hs.
    + rewrite findFirst_overwritten_other; [exact Hs|].
      intros Heq. apply (Ht c eq_refl). symmetry. exact Heq.
    + rewrite findFirst_app_other; [exact Hs|].
      simpl in Hnamed. rewrite Hnamed. apply (Ht c eq_refl).
  - intros st d [= _ <-] [c|] Hc; (split; [|exact Logic.I]);
      unfold away_from; simpl; [|discriminate].
    intros c' [= <-]. apply Hdata. exact Hc.
Qed.

(** C6. An item whose lower-cased name matches an existing record is
    updated, whatever the dataset and the order in which the tasks of a
    batch take their turns: when its lookup and its write do not fail,
    the run leaves under that name a row written by the update of an item
    of that name (the item itself when no other item of the dataset bears
    its name). Capital, region and population of the row are those of the
    writing item; its estimate is population x stored rate x an integer
    multiplier between 1000 and 2000 (the number 0 when the stored rate
    is unknown); name, currency code, exchange rate and flag URL are
    those of the record found before the run. The lookup of every name
    that no item of the dataset bears is as before the run; the item asks
    for no exchange rate, writes its update, and its result is the
    updated one, or a failure of the rendering of the summary image; the
    write increments the counter of the updates, so that the returned
    [updated] is at least one. When the item is the whole dataset the
    counters are one update and no creation. *)
Theorem uploadCountry_update_frame (api_countries : option string)
  (nulls_largest : bool) (env : nat -> ItemEnv) (sched : nat -> list nat)
  (status : nat) (data : list (option Countries.t)) (w : World) (i : nat)
  (c : Countries.t) (existing : Country.t) :
  truthy api_countries = true -> 200 <= status < 300 ->
  nth_error data i = Some (Some c) ->
  Prisma.findFirst (db w) (toLowerCase (Countries.name c)) = Some existing ->
  fault (env i) SFind = false ->
  fault (env i) SWrite = false ->
  (forall j, (0 <= random (env j))%Q /\ (random (env j) < 1)%Q) ->
  let o := uploadCountry api_countries nulls_largest env sched
                         (SrcResponse status (PArray data)) w in
  exists (row : Country.t) (writer : Countries.t) (multiplier : Z) (gdp : Q),
    Prisma.findFirst (db (final o)) (toLowerCase (Countries.name c)) = Some row
    /\ In (Some writer) data
    /\ toLowerCase (Countries.name writer) = toLowerCase (Countries.name c)
    /\ ((forall c', In (Some c') data ->
           toLowerCase (Countries.name c') = toLowerCase (Countries.name c) ->
           c' = c) ->
        writer = c)
    /\ Country.capital row = Countries.capital writer
    /\ Country.region row = Countries.region writer
    /\ Country.population row = Countries.population writer
    /\ Country.estimated_gdp row = Some gdp
    /\ (1000 <= multiplier <= 2000)%Z
    /\ match Country.exchange_rate existing with
       | Some rate =>
           (gdp == Countries.population writer * rate * inject_Z multiplier)%Q
       | None => (gdp == 0)%Q
       end
    /\ Country.name row = Country.name existing
    /\ Country.currency_code row = Country.currency_code existing
    /\ Country.exchange_rate row = Country.exchange_rate existing
    /\ Country.flag_url row = Country.flag_url existing
    /\ (forall n,
          (forall c', In (Some c') data ->
             toLowerCase (Countries.name c') <> n) ->
          Prisma.findFirst (db (final o)) n = Prisma.findFirst (db w) n)
    /\ ~ In (Call i SRate) (events o)
    /\ In (Call i SWrite) (events o)
    /\ (exists r,
          nth_error (batchResults o) i = Some r
          /\ (r = fulfilled (result_updated (Countries.name c))
              \/ exists e, render_error e = true
                           /\ r = fulfilled
                                    (result_failed (Countries.name c) e)))
    /\ (exists created updated,
          returned o = Ok [("created", created); ("updated", updated);
                           ("total", List.length data)]
          /\ 1 <= updated)
    /\ (data = [Some c] ->
        returned o = Ok [("created", 0); ("updated", 1); ("total", 1)]).
Proof.
  intros Hapi Hstatus Hitem Hex Hfind Hwrite Hrandom. cbv zeta.
  destruct (update_path_general api_countries nulls_largest env sched status
              data w i c existing Hapi Hstatus Hitem Hex Hfind Hwrite)
    as ((row & Hrow & writer & gdp & Hin & Hname & (j & Hgdp) & ->)
        & Hrate & Hcall & r & Hr & Hres & Hcount).
  assert (Hnamed : toLowerCase (Countries.name c) = Country.name existing).
  { apply findFirst_some_named in Hex as [_ Hn]. now symmetry. }
  exists (update_data writer existing gdp existing), writer,
         (update_multiplier (random (env j))), gdp.
  split; [rewrite Hnamed; exact Hrow|].
  split; [exact Hin|].
  split; [rewrite Hnamed; exact Hname|].
  split.
  { intros Huniq. apply Huniq; [exact Hin|].
    rewrite Hnamed. exact Hname. }
  split; [reflexivity|]. split; [reflexivity|]. split; [reflexivity|].
  split; [reflexivity|].
  split; [apply update_multiplier_range; apply Hrandom|].
  split.
  { rewrite Hgdp.
    exact (gdp_of_existing_rate (Countries.population writer)
             (Country.exchange_rate existing)
             (update_multiplier (random (env j)))). }
  split; [reflexivity|]. split; [reflexivity|]. split; [reflexivity|].
  split; [reflexivity|].
  split.
  { intros n Hn. apply other_names_kept. exact Hn. }
  split; [exact Hrate|]. split; [exact Hcall|].
  split; [exists r; split; [exact Hr | exact Hres]|].
  split; [exact Hcount|].
  intros ->.
  assert (i = 0) as ->.
  { destruct i as [|[|i]]; [reflexivity | discriminate | discriminate]. }
  apply (uploadCountry_update_path api_countries nulls_largest env sched
           status c existing w Hapi Hstatus Hfind Hwrite Hex).
Qed.

Lemma uploadCountry_update_frame_witness :
  let o := uploadCountry (Some Sample.url) true
             (Sample.calm ExTimeout (1 # 2)) Sample.lookups_first
             (SrcResponse 200
                (PArray [Some Sample.aland; Some Sample.nigeria_item]))
             Sample.two_rows in
  exists (row : Country.t) (multiplier : Z) (gdp : Q),
    Prisma.findFirst (db (final o)) "nigeria" = Some row
    /\ Country.capital row = "Lagos"
    /\ Country.region row = "West Africa"
    /\ Country.population row = (210000000 # 1)%Q
    /\ Country.estimated_gdp row = Some gdp
    /\ (1000 <= multiplier <= 2000)%Z
    /\ (gdp == (210000000 # 1) * (1600 # 1) * inject_Z multiplier)%Q
    /\ Country.name row = "nigeria"
    /\ Country.currency_code row = Some "NGN"
    /\ Country.exchange_rate row = Some (1600 # 1)%Q
    /\ Country.flag_url row = "ng.svg"
    /\ Prisma.findFirst (db (final o)) "france" = Some Sample.france
    /\ ~ In (Call 1 SRate) (events o)
    /\ In (Call 1 SWrite) (events o)
    /\ exists created updated,
         returned o = Ok [("created", created); ("updated", updated);
                          ("total", 2)]
         /\ 1 <= updated.
Proof.
  cbv zeta.
  destruct (uploadCountry_update_frame (Some Sample.url) true
              (Sample.calm ExTimeout (1 # 2)) Sample.lookups_first 200
              [Some Sample.aland; Some Sample.nigeria_item] Sample.two_rows
              1 Sample.nigeria_item Sample.nigeria)
    as (row & writer & m & gdp & H1 & H2 & H3 & H4 & H5 & H6 & H7 & H8 & H9
        & H10 & H11 & H12 & H13 & H14 & H15 & H16 & H17 & _ & H19 & _).
  - reflexivity.
  - lia.
  - reflexivity.
  - reflexivity.
  - reflexivity.
  - reflexivity.
  - intros j. split; [discriminate | reflexivity].
  - assert (Hw : writer = Sample.nigeria_item).
    { apply H4. intros c' [[= <-] | [[= <-] | []]];
        [discriminate | reflexivity]. }
    subst writer. exists row, m, gdp.
    repeat (split; [assumption|]).
    split; [|split; [assumption | split; [assumption | exact H19]]].
    rewrite H15; [reflexivity|].
    intros c' [[= <-] | [[= <-] | []]]; discriminate.
Defined.

(** ** The estimate of a row of unknown rate *)

(** A task that finds the row of [n] while it has the unknown rate
    prepares the estimate 0. *)
Lemma zero_task_resume (nulls_largest : bool) (e : ItemEnv) (n : string)
  (t : Task) (s : RunState) :
  zero_gdp n (db (world s)) -> zero_task n t ->
  zero_task n (fst (resume nulls_largest e t s)).
Proof.
  intros (row & g & Hrow & _ & _ & Hnone) Ht.
  destruct t as [c|c ex gdp|c code|c r|c m|c st|c st k|c st svg|r];
    unfold resume.
  - destruct (fault e SFind); [exact Logic.I|].
    destruct (Prisma.findFirst (db (world s)) (toLowerCase (Countries.name c)))
      as [found|] eqn:Hf.
    + cbv zeta. cbn [fst zero_task]. intros Hn.
      fold (lower_name c) in Hf. rewrite Hn, Hrow in Hf.
      injection Hf as <-. split; [exact Hnone|].
      rewrite Hnone. cbn [or_zero]. ring.
    + destruct (first_code c) as [code|]; [|exact Logic.I].
      destruct (truthy (Some code)); exact Logic.I.
  - destruct (fault e SWrite); [exact Logic.I|].
    destruct (Prisma.update _ _ _); exact Logic.I.
  - destruct (getExchangeRate code (exchange e)) as [[rate|m]|err];
      exact Logic.I.
  - destruct (fault e SWrite); [exact Logic.I|].
    destruct (Prisma.create _ _); exact Logic.I.
  - destruct (fault e SWrite); exact Logic.I.
  - destruct (fault e SCount); exact Logic.I.
  - destruct (fault e STop); [exact Logic.I|].
    destruct (Prisma.findMany _ _ _ _ _); exact Logic.I.
  - destruct (fault e SFile); exact Logic.I.
  - exact Logic.I.
Qed.

(** An action leaves the row of [n] with the unknown rate and a known
    estimate 0. *)
Lemma zero_gdp_resume (nulls_largest : bool) (e : ItemEnv) (n : string)
  (t : Task) (s : RunState) :
  zero_gdp n (db (world s)) -> zero_task n t ->
  zero_gdp n (db (world (snd (resume nulls_largest e t s)))).
Proof.
  intros Hs Ht.
  destruct (resume_db nulls_largest e t s)
    as [-> | [(c & ex & gdp & -> & ->) | (c & r & _ & _ & ->)]].
  - exact Hs.
  - destruct Hs as (row & g & Hrow & Hg & Hzero & Hnone).
    destruct (string_dec (lower_name c) n) as [Heq | Hne].
    + destruct (Ht Heq) as [Hex Hgdp].
      exists (update_data c ex gdp row), gdp.
      split; [rewrite Heq; apply findFirst_overwritten; exact Hrow|].
      split; [reflexivity|]. split; [exact Hgdp | exact Hex].
    + exists row, g.
      split; [|auto].
      rewrite findFirst_overwritten_other; [exact Hrow|].
      intros Heq. apply Hne. symmetry. exact Heq.
  - destruct Hs as (row & g & Hrow & Hrest).
    exists row, g. split; [apply findFirst_app_found; exact Hrow | exact Hrest].
Qed.

(** A run, whatever its configuration, source, dataset and schedule,
    leaves a row of unknown rate and estimate 0 such a row. *)
Lemma zero_gdp_run (api_countries : option string) (nulls_largest : bool)
  (env : nat -> ItemEnv) (sched : nat -> list nat) (src : SourceOutcome)
  (w : World) (n : string) :
  zero_gdp n (db w) ->
  zero_gdp n (db (final (uploadCountry api_countries nulls_largest env sched
                           src w))).
Proof.
  intros Hw.
  destruct (uploadCountry_keeps nulls_largest env sched
              (fun _ => zero_task n)
              (fun s => zero_gdp n (db (world s)))) with
    (api_countries := api_countries) (src := src) (w := w)
    as (s & <- & _ & _ & Hs & _); auto.
  - intros i country t s Ht Hs.
    split; [apply zero_task_resume | apply zero_gdp_resume]; assumption.
  - intros st d _ [c|] _; exact Logic.I.
Qed.

Lemma zero_gdp_after_runs (nulls_largest : bool) (later : list Rerun)
  (w : World) (n : string) :
  zero_gdp n (db w) -> zero_gdp n (db (after_runs nulls_largest later w)).
Proof.
  revert w. induction later as [|r later IH]; intros w Hw; simpl;
    [exact Hw|].
  apply IH. apply zero_gdp_run. exact Hw.
Qed.

(** C10. An item whose lower-cased name matches an existing record of
    unknown exchange rate is updated with the estimate 0, a known number
    (the unknown rate counts as 0 in the product), and the rate stays
    unknown: whatever the dataset and the order in which the tasks take
    their turns, when the lookup and the write of the item do not fail
    the run leaves under that name a row of unknown rate whose estimate
    is the number 0, and so does every sequence of later runs, whatever
    their configurations, sources, datasets, outside worlds and
    schedules. *)
Theorem uploadCountry_update_unknown_rate (api_countries : option string)
  (nulls_largest : bool) (env : nat -> ItemEnv) (sched : nat -> list nat)
  (status : nat) (data : list (option Countries.t)) (w : World) (i : nat)
  (c : Countries.t) (existing : Country.t) :
  truthy api_countries = true -> 200 <= status < 300 ->
  nth_error data i = Some (Some c) ->
  Prisma.findFirst (db w) (toLowerCase (Countries.name c)) = Some existing ->
  Country.exchange_rate existing = None ->
  fault (env i) SFind = false ->
  fault (env i) SWrite = false ->
  let o := uploadCountry api_countries nulls_largest env sched
                         (SrcResponse status (PArray data)) w in
  In (Call i SWrite) (events o)
  /\ ~ In (Call i SRate) (events o)
  /\ (exists (row : Country.t) (gdp : Q),
        Prisma.findFirst (db (final o)) (toLowerCase (Countries.name c))
        = Some row
        /\ Country.estimated_gdp row = Some gdp
        /\ (gdp == 0)%Q
        /\ Country.exchange_rate row = None)
  /\ (forall later : list Rerun,
      exists (row : Country.t) (gdp : Q),
        Prisma.findFirst (db (after_runs nulls_largest later (final o)))
                         (toLowerCase (Countries.name c))
        = Some row
        /\ Country.estimated_gdp row = Some gdp
        /\ (gdp == 0)%Q
        /\ Country.exchange_rate row = None).
Proof.
  intros Hapi Hstatus Hitem Hex Hnone Hfind Hwrite. cbv zeta.
  destruct (update_path_general api_countries nulls_largest env sched status
              data w i c existing Hapi Hstatus Hitem Hex Hfind Hwrite)
    as ((row & Hrow & writer & gdp & Hin & Hname & (j & Hgdp) & ->)
        & Hrate & Hcall & _).
  assert (Hnamed : toLowerCase (Countries.name c) = Country.name existing).
  { apply findFirst_some_named in Hex as [_ Hn]. now symmetry. }
  assert (Hzero : zero_gdp (toLowerCase (Countries.name c))
                    (db (final (uploadCountry api_countries nulls_largest env
                                  sched (SrcResponse status (PArray data)) w)))).
  { exists (update_data writer existing gdp existing), gdp.
    split; [rewrite Hnamed; exact Hrow|].
    split; [reflexivity|].
    split; [|exact Hnone].
    rewrite Hgdp, Hnone. cbn [or_zero]. ring. }
  split; [exact Hcall|]. split; [exact Hrate|]. split; [exact Hzero|].
  intros later. apply zero_gdp_after_runs. exact Hzero.
Qed.

Lemma uploadCountry_update_unknown_rate_witness :
  let o := uploadCountry (Some Sample.url) true
             (Sample.calm ExTimeout (1 # 2)) Sample.lookups_first
             (SrcResponse 200
                (PArray [Some Sample.nigeria_item; Some Sample.aland]))
             Sample.one_unknown in
  (exists (row : Country.t) (gdp : Q),
     Prisma.findFirst (db (final o)) "aland" = Some row
     /\ Country.estimated_gdp row = Some gdp
     /\ (gdp == 0)%Q
     /\ Country.exchange_rate row = None)
  /\ (exists (row : Country.t) (gdp : Q),
        Prisma.findFirst
          (db (after_runs true
                 [mkRerun (Some Sample.url) (Sample.calm ExTimeout (1 # 3))
                          Sample.no_schedule
                          (SrcResponse 200 (PArray [Some Sample.aland]));
                  mkRerun (Some Sample.url) (Sample.calm ExTimeout 0)
                          Sample.no_schedule SrcTimeout]
                 (final o)))
          "aland" = Some row
        /\ Country.estimated_gdp row = Some gdp
        /\ (gdp == 0)%Q
        /\ Country.exchange_rate row = None).
Proof.
  cbv zeta.
  destruct (uploadCountry_update_unknown_rate (Some Sample.url) true
              (Sample.calm ExTimeout (1 # 2)) Sample.lookups_first 200
              [Some Sample.nigeria_item; Some Sample.aland] Sample.one_unknown
              1 Sample.aland Sample.aland_row)
    as (_ & _ & Hrun & Hlater).
  - reflexivity.
  - lia.
  - reflexivity.
  - reflexivity.
  - reflexivity.
  - reflexivity.
  - reflexivity.
  - split; [exact Hrun | apply Hlater].
Defined.

(** * Further properties *)

(** ** What every run keeps *)

(** X1. Unique names: when no two rows of the store have the same name,
    no two rows have the same name after a run, whatever the dataset
    (also with repeated names), the outside world and the schedule. *)
Theorem uploadCountry_keeps_names_unique (api_countries : option string)
  (nulls_largest : bool) (env : nat -> ItemEnv) (sched : nat -> list nat)
  (src : SourceOutcome) (w : World) :
  NoDup (names (db w)) ->
  NoDup (names (db (final (uploadCountry api_countries nulls_largest env sched
                             src w)))).
Proof.
  intros Hw.
  destruct (uploadCountry_keeps nulls_largest env sched (fun _ _ => True)
              (fun s => NoDup (names (db (world s))))) with
    (api_countries := api_countries) (src := src) (w := w)
    as (s & <- & _ & _ & Hs & _); auto.
  intros i country t s _ Hs. split; [exact Logic.I|].
  destruct (resume_db nulls_largest (env i) t s)
    as [-> | [(c & existing & gdp & _ & ->) | (c & row & _ & Hnone & ->)]].
  - exact Hs.
  - now rewrite names_overwritten.
  - unfold names in *. rewrite map_app. simpl.
    apply findFirst_none_names in Hnone. unfold names in Hnone.
    apply Permutation_NoDup
      with (l := Country.name row :: map Country.name (db (world s))).
    + apply Permutation_cons_append.
    + constructor; assumption.
Qed.

Lemma uploadCountry_keeps_names_unique_witness :
  NoDup (names (db (final (uploadCountry (Some Sample.url) true
                             (Sample.calm ExTimeout 0) Sample.lookups_first
                             (SrcResponse 200
                                (PArray [Some Sample.aland; None;
                                         Some Sample.aland;
                                         Some Sample.nigeria_item]))
                             Sample.two_rows)))).
Proof.
  apply (uploadCountry_keeps_names_unique (Some Sample.url) true
           (Sample.calm ExTimeout 0) Sample.lookups_first
           (SrcResponse 200
              (PArray [Some Sample.aland; None; Some Sample.aland;
                       Some Sample.nigeria_item]))
           Sample.two_rows).
  repeat constructor; simpl; intuition discriminate.
Defined.

(** X2. A run removes no name from the store. *)
Theorem uploadCountry_never_removes_a_name (api_countries : option string)
  (nulls_largest : bool) (env : nat -> ItemEnv) (sched : nat -> list nat)
  (src : SourceOutcome) (w : World) (n : string) :
  In n (names (db w)) ->
  In n (names (db (final (uploadCountry api_countries nulls_largest env sched
                            src w)))).
Proof.
  intros Hw.
  destruct (uploadCountry_keeps nulls_largest env sched (fun _ _ => True)
              (fun s => In n (names (db (world s))))) with
    (api_countries := api_countries) (src := src) (w := w)
    as (s & <- & _ & _ & Hs & _); auto.
  intros i country t s _ Hs. split; [exact Logic.I|].
  destruct (resume_db nulls_largest (env i) t s)
    as [-> | [(c & existing & gdp & _ & ->) | (c & row & _ & Hnone & ->)]].
  - exact Hs.
  - now rewrite names_overwritten.
  - unfold names in *. rewrite map_app. apply in_or_app. left. exact Hs.
Qed.

Lemma uploadCountry_never_removes_a_name_witness :
  In "france"
     (names (db (final (uploadCountry (Some Sample.url) true
                          (Sample.calm ExTimeout 0) Sample.no_schedule
                          (SrcResponse 200 (PArray [Some Sample.nigeria_item]))
                          Sample.two_rows)))).
Proof.
  apply (uploadCountry_never_removes_a_name (Some Sample.url) true
           (Sample.calm ExTimeout 0) Sample.no_schedule
           (SrcResponse 200 (PArray [Some Sample.nigeria_item]))
           Sample.two_rows "france").
  simpl. right. left. reflexivity.
Defined.

Lemma In_overwritten_other (n : string) (c : Countries.t)
  (existing row : Country.t) (gdp : Q) (tb : Prisma.Table) :
  Country.name row <> n -> In row tb ->
  In row (overwritten n c existing gdp tb).
Proof.
  intros Hne Hin. unfold overwritten. apply in_map_iff. exists row.
  split; [|exact Hin].
  unfold Prisma.has_name. destruct (String.eqb_spec (Country.name row) n);
    [contradiction | reflexivity].
Qed.

(** X3. A run leaves alone every row whose name is not the lower-cased
    name of an item of the dataset. *)
Theorem uploadCountry_leaves_other_rows (api_countries : option string)
  (nulls_largest : bool) (env : nat -> ItemEnv) (sched : nat -> list nat)
  (status : nat) (data : list (option Countries.t)) (w : World)
  (row : Country.t) :
  In row (db w) ->
  (forall c, In (Some c) data -> lower_name c <> Country.name row) ->
  In row (db (final (uploadCountry api_countries nulls_largest env sched
                       (SrcResponse status (PArray data)) w))).
Proof.
  intros Hw Hdata.
  destruct (uploadCountry_keeps nulls_largest env sched
              (fun _ => away_from (Country.name row))
              (fun s => In row (db (world s)))) with
    (api_countries := api_countries)
    (src := SrcResponse status (PArray data)) (w := w)
    as (s & <- & _ & _ & Hs & _); auto.
  - intros i country t s Ht Hs. split; [apply away_from_kept; exact Ht|].
    destruct (resume_db nulls_largest (env i) t s)
      as [-> | [(c & existing & gdp & -> & ->) | (c & r & _ & Hnone & ->)]].
    + exact Hs.
    + apply In_overwritten_other; [|exact Hs].
      intros Heq. apply (Ht c eq_refl). symmetry. exact Heq.
    + apply in_or_app. left. exact Hs.
  - intros st d [= _ <-] [c|] Hc; unfold away_from; simpl;
      [|discriminate].
    intros c' [= <-]. apply Hdata. exact Hc.
Qed.

Lemma uploadCountry_leaves_other_rows_witness :
  In Sample.france
     (db (final (uploadCountry (Some Sample.url) true
                   (Sample.calm ExTimeout 0) Sample.lookups_first
                   (SrcResponse 200
                      (PArray [Some Sample.aland; Some Sample.nigeria_item]))
                   Sample.two_rows))).
Proof.
  apply (uploadCountry_leaves_other_rows (Some Sample.url) true
           (Sample.calm ExTimeout 0) Sample.lookups_first 200
           [Some Sample.aland; Some Sample.nigeria_item] Sample.two_rows
           Sample.france).
  - simpl. right. left. reflexivity.
  - intros c [[= <-] | [[= <-] | []]]; discriminate.
Defined.

Lemma getExchangeRate_nonzero (code : string) (o : ExchangeOutcome)
  (r : option Q) :
  getExchangeRate code o = Ok (Rate r) -> null_or_nonzero r.
Proof.
  unfold getExchangeRate, getExchangeRate_try.
  destruct o as [| |[rates|]]; try (intros [= <-]; exact Logic.I).
  unfold lookup_rate.
  destruct (find (fun kv => String.eqb (fst kv) code) rates) as [kv|].
  - cbn [property_or_null]. intros [= <-]. unfold or_null.
    destruct (Qeq_bool (snd kv) 0) eqn:E; [exact Logic.I|].
    simpl. intros Hq. apply Qeq_bool_iff in Hq. congruence.
  - destruct (inherited code); simpl; intros [= <-]. exact Logic.I.
Qed.

Lemma sound_newCountry (c : Countries.t) (code : option string) (r : Q)
  (rate : option Q) :
  null_or_nonzero rate ->
  sound_row (newCountry c code rate
               (calculateEstimatedGdp r rate (Countries.population c))).
Proof.
  intros Hrate. unfold sound_row, newCountry. simpl.
  split; [apply toLowerCase_idem|]. split; [exact Hrate|].
  destruct rate; [discriminate | reflexivity].
Qed.

Lemma sound_task_kept (nulls_largest : bool) (e : ItemEnv) (t : Task)
  (s : RunState) :
  Forall sound_row (db (world s)) -> sound_task t ->
  sound_task (fst (resume nulls_largest e t s)).
Proof.
  intros Hs Ht.
  destruct t as [c|c existing gdp|c code|c row|c m|c st|c st n|c st svg|r];
    unfold resume.
  - destruct (fault e SFind); [exact Logic.I|].
    destruct (Prisma.findFirst _ _) as [existing|] eqn:Hf.
    + simpl. apply findFirst_some_named in Hf as [Hin _].
      rewrite Forall_forall in Hs. apply (Hs existing Hin).
    + destruct (first_code c) as [code|].
      * destruct (truthy (Some code)); [exact Logic.I|].
        simpl. apply (sound_newCountry c (Some code) (random e) None).
        exact Logic.I.
      * simpl. apply (sound_newCountry c None (random e) None). exact Logic.I.
  - destruct (fault e SWrite); [exact Logic.I|].
    destruct (Prisma.update _ _ _); exact Logic.I.
  - destruct (getExchangeRate code (exchange e)) as [[rate|m]|err] eqn:Hr;
      [|exact Logic.I|exact Logic.I].
    simpl. apply sound_newCountry. eapply getExchangeRate_nonzero. exact Hr.
  - destruct (fault e SWrite); [exact Logic.I|].
    destruct (Prisma.create _ _); exact Logic.I.
  - destruct (fault e SWrite); exact Logic.I.
  - destruct (fault e SCount); exact Logic.I.
  - destruct (fault e STop); [exact Logic.I|].
    destruct (Prisma.findMany _ _ _ _ _); exact Logic.I.
  - destruct (fault e SFile); exact Logic.I.
  - exact Logic.I.
Qed.

(** X4. Sound rows: when every row of the store has a lower-case name,
    an exchange rate that is unknown or not zero, and a known estimate
    whenever the rate is known, the same holds after a run. *)
Theorem uploadCountry_keeps_rows_sound (api_countries : option string)
  (nulls_largest : bool) (env : nat -> ItemEnv) (sched : nat -> list nat)
  (src : SourceOutcome) (w : World) :
  Forall sound_row (db w) ->
  Forall sound_row
    (db (final (uploadCountry api_countries nulls_largest env sched src w))).
Proof.
  intros Hw.
  destruct (uploadCountry_keeps nulls_largest env sched (fun _ => sound_task)
              (fun s => Forall sound_row (db (world s)))) with
    (api_countries := api_countries) (src := src) (w := w)
    as (s & <- & _ & _ & Hs & _); auto.
  - intros i country t s Ht Hs. split; [apply sound_task_kept; assumption|].
    destruct (resume_db nulls_largest (env i) t s)
      as [-> | [(c & existing & gdp & -> & ->) | (c & row & -> & _ & ->)]].
    + exact Hs.
    + unfold overwritten. apply Forall_forall. intros r Hr.
      apply in_map_iff in Hr as (r0 & <- & Hr0).
      rewrite Forall_forall in Hs. specialize (Hs r0 Hr0).
      destruct (Prisma.has_name (lower_name c) r0); [|exact Hs].
      destruct Hs as (Hname & _ & _). unfold sound_row, update_data. simpl.
      split; [exact Hname|]. split; [exact Ht | discriminate].
    + apply Forall_app. split; [exact Hs|]. constructor; [exact Ht|constructor].
  - intros status data _ [c|] _; exact Logic.I.
Qed.

Lemma uploadCountry_keeps_rows_sound_witness :
  Forall sound_row
    (db (final (uploadCountry (Some Sample.url) true
                  (Sample.calm (ExResponse (Some [("EUR", 0%Q)])) (1 # 2))
                  Sample.no_schedule
                  (SrcResponse 200
                     (PArray [Some Sample.aland; Some Sample.nigeria_item]))
                  Sample.two_rows))).
Proof.
  apply (uploadCountry_keeps_rows_sound (Some Sample.url) true
           (Sample.calm (ExResponse (Some [("EUR", 0%Q)])) (1 # 2))
           Sample.no_schedule
           (SrcResponse 200
              (PArray [Some Sample.aland; Some Sample.nigeria_item]))
           Sample.two_rows).
  repeat constructor; simpl; discriminate.
Defined.

(** ** Rejected and fulfilled tasks *)

Lemma task_of_kept (nulls_largest : bool) (e : ItemEnv)
  (country : option Countries.t) (t : Task) (s : RunState) :
  task_of country t -> task_of country (fst (resume nulls_largest e t s)).
Proof.
  destruct country as [c0|]; [|intros [reason ->]; simpl; eauto].
  intros Ht.
  destruct t as [c|c existing gdp|c code|c row|c m|c st|c st n|c st svg|r];
    simpl in Ht; try (injection Ht as ->); unfold resume.
  - destruct (fault e SFind); [reflexivity|].
    destruct (Prisma.findFirst _ _); [reflexivity|].
    destruct (first_code c0) as [code|]; [|reflexivity].
    destruct (truthy (Some code)); reflexivity.
  - destruct (fault e SWrite); [reflexivity|].
    destruct (Prisma.update _ _ _); reflexivity.
  - destruct (getExchangeRate code (exchange e)) as [[rate|m]|err]; reflexivity.
  - destruct (fault e SWrite); [reflexivity|].
    destruct (Prisma.create _ _); reflexivity.
  - destruct (fault e SWrite); reflexivity.
  - destruct (fault e SCount); reflexivity.
  - destruct (fault e STop); [reflexivity|].
    destruct (Prisma.findMany _ _ _ _ _); reflexivity.
  - destruct (fault e SFile); [reflexivity|]. destruct st; reflexivity.
  - exact Ht.
Qed.

Lemma task_of_start (country : option Countries.t) :
  task_of country (start country).
Proof. destruct country as [c|]; simpl; eauto. Qed.

Lemma kept_entry (country : option Countries.t) (r : PromiseSettledResult) :
  kept_result (task_of country) r -> entry_of country r.
Proof.
  intros (t & Ht & Hset & ->).
  destruct country as [c|].
  - destruct t as [| | | | | | | |[value|reason]]; try discriminate.
    + exists value. split; [reflexivity | exact Ht].
    + destruct Ht.
  - destruct Ht as [reason ->]. exists reason. reflexivity.
Qed.

Lemma kept_entries (batch : list (option Countries.t))
  (rs : list PromiseSettledResult) :
  kept_results task_of batch rs -> Forall2 entry_of batch rs.
Proof.
  intros H. eapply Forall2_impl; [|exact H]. apply kept_entry.
Qed.

(** The rejected entries are those of the [null] items, and every other
    entry has one of the three statuses. *)
Lemma entries_counted (batch : list (option Countries.t))
  (rs : list PromiseSettledResult) :
  Forall2 entry_of batch rs ->
  count_if is_rejected rs = count_if is_null batch
  /\ count_if (has_status St_created) rs + count_if (has_status St_updated) rs
     + count_if (has_status St_failed) rs + count_if is_rejected rs
     = List.length batch.
Proof.
  unfold count_if.
  induction 1 as [|country r batch rs Hr _ [IH1 IH2]]; simpl; [auto|].
  destruct country as [c|].
  - destruct Hr as ([c'|c'|c' e] & -> & _); simpl; split; lia.
  - destruct Hr as [reason ->]. simpl. split; lia.
Qed.

(** X5. An item task rejects exactly when its item is [null]: the entry
    of a [null] item in the settled results is rejected, and the entry
    of a record is fulfilled with a result that carries the name of the
    record, also when the item has failed.  So the [Failed] number of
    every [Batch complete] line of the log, which counts the rejected
    entries, is the number of [null] items of its batch, and the four
    kinds of entries (created, updated, failed, rejected) add up to the
    size of the dataset. *)
Theorem uploadCountry_rejects_null_items (api_countries : option string)
  (nulls_largest : bool) (env : nat -> ItemEnv) (sched : nat -> list nat)
  (status : nat) (data : list (option Countries.t)) (w : World) :
  truthy api_countries = true -> 200 <= status < 300 ->
  Forall2
    (fun country r =>
       match country with
       | None => exists reason, r = rejected reason
       | Some c =>
           exists value, r = fulfilled value
                         /\ result_country value = Countries.name c
       end)
    data
    (batchResults (uploadCountry api_countries nulls_largest env sched
                     (SrcResponse status (PArray data)) w))
  /\ Forall2 (fun batch log => batchFailed log = count_if is_null batch)
       (batches (uploadCountry api_countries nulls_largest env sched
                   (SrcResponse status (PArray data)) w))
       (batchLogs (uploadCountry api_countries nulls_largest env sched
                     (SrcResponse status (PArray data)) w))
  /\ count_if is_rejected
       (batchResults (uploadCountry api_countries nulls_largest env sched
                        (SrcResponse status (PArray data)) w))
     = count_if is_null data
  /\ count_if (has_status St_created)
       (batchResults (uploadCountry api_countries nulls_largest env sched
                        (SrcResponse status (PArray data)) w))
     + count_if (has_status St_updated)
         (batchResults (uploadCountry api_countries nulls_largest env sched
                          (SrcResponse status (PArray data)) w))
     + count_if (has_status St_failed)
         (batchResults (uploadCountry api_countries nulls_largest env sched
                          (SrcResponse status (PArray data)) w))
     + count_if is_rejected
         (batchResults (uploadCountry api_countries nulls_largest env sched
                          (SrcResponse status (PArray data)) w))
     = List.length data.
Proof.
  intros Hapi Hstatus.
  destruct (uploadCountry_keeps nulls_largest env sched task_of
              (fun _ => True)) with
    (api_countries := api_countries)
    (src := SrcResponse status (PArray data)) (w := w)
    as (s & _ & _ & _ & _ & Hrs & Hlogs); auto.
  - intros i country t s Ht _. split; [apply task_of_kept; exact Ht | exact Logic.I].
  - intros st d _ country _. apply task_of_start.
  - destruct (uploadCountry_dataset api_countries nulls_largest env sched status
                data w Hapi Hstatus) as (Hcat & _ & _).
    rewrite Hcat in Hrs. apply kept_entries in Hrs.
    destruct (entries_counted _ _ Hrs) as [Hrej Hsum].
    split; [exact Hrs|]. split; [|split; assumption].
    eapply Forall2_impl; [|exact Hlogs].
    intros batch log (rs & Hk & ->). cbn [batchFailed].
    apply kept_entries in Hk. now destruct (entries_counted _ _ Hk).
Qed.

Lemma uploadCountry_rejects_null_items_witness :
  batchResults (uploadCountry (Some Sample.url) true
                  (Sample.faulty SWrite ExTimeout 0) Sample.no_schedule
                  (SrcResponse 200 (PArray [None; Some Sample.aland]))
                  Sample.empty)
  = [rejected (JsError "Cannot read properties of null (reading 'name')");
     fulfilled (result_failed "Aland" (Fault SWrite))]
  /\ Forall2 (fun batch log => batchFailed log = count_if is_null batch)
       (batches (uploadCountry (Some Sample.url) true
                   (Sample.faulty SWrite ExTimeout 0) Sample.no_schedule
                   (SrcResponse 200 (PArray [None; Some Sample.aland]))
                   Sample.empty))
       (batchLogs (uploadCountry (Some Sample.url) true
                     (Sample.faulty SWrite ExTimeout 0) Sample.no_schedule
                     (SrcResponse 200 (PArray [None; Some Sample.aland]))
                     Sample.empty)).
Proof.
  split; [reflexivity|].
  apply (uploadCountry_rejects_null_items (Some Sample.url) true
           (Sample.faulty SWrite ExTimeout 0) Sample.no_schedule 200
           [None; Some Sample.aland] Sample.empty).
  - reflexivity.
  - lia.
Defined.

(** ** Failing and empty runs *)

(** X6. A run returns a value exactly when the URL of the source is
    configured and the source answers with a status in 200..299 and an
    array.  Every other run throws the exception of status 500 with the
    message [Failed to upload countries], whatever went wrong (no URL,
    timeout, network error, error status, a body that is not an array),
    and has written nothing: the store and the cache file are as before
    and no item task has run. *)
Theorem uploadCountry_fails_atomically (api_countries : option string)
  (nulls_largest : bool) (env : nat -> ItemEnv) (sched : nat -> list nat)
  (src : SourceOutcome) (w : World) :
  ((exists obj,
      returned (uploadCountry api_countries nulls_largest env sched src w)
      = Ok obj)
   <-> truthy api_countries = true
       /\ exists status data,
            src = SrcResponse status (PArray data) /\ 200 <= status < 300)
  /\ (forall e,
        returned (uploadCountry api_countries nulls_largest env sched src w)
        = Throw e ->
        e = HttpException "Failed to upload countries" INTERNAL_SERVER_ERROR
        /\ final (uploadCountry api_countries nulls_largest env sched src w) = w
        /\ events (uploadCountry api_countries nulls_largest env sched src w) = []
        /\ batchResults
             (uploadCountry api_countries nulls_largest env sched src w) = []).
Proof.
  split.
  - split.
    + intros [obj Hobj]. eapply uploadCountry_returns. exact Hobj.
    + intros (Hapi & status & data & -> & Hstatus).
      destruct (uploadCountry_loop api_countries nulls_largest env sched status
                  data w Hapi Hstatus) as (l & i & -> & _).
      eexists. reflexivity.
  - intros e. unfold uploadCountry, uploadCountry_try.
    destruct (truthy api_countries); cbn [negb];
      [|simpl; intros [= <-]; auto].
    destruct (fetch src) as [[data|]|e'];
      simpl; intros He; try discriminate; injection He as <-; auto.
Qed.

Lemma uploadCountry_fails_atomically_witness :
  HttpException "Failed to upload countries" INTERNAL_SERVER_ERROR
  = HttpException "Failed to upload countries" INTERNAL_SERVER_ERROR
  /\ final (uploadCountry (Some Sample.url) true (Sample.calm ExTimeout 0)
              Sample.no_schedule SrcTimeout Sample.two_rows) = Sample.two_rows
  /\ events (uploadCountry (Some Sample.url) true (Sample.calm ExTimeout 0)
               Sample.no_schedule SrcTimeout Sample.two_rows) = []
  /\ batchResults (uploadCountry (Some Sample.url) true (Sample.calm ExTimeout 0)
                     Sample.no_schedule SrcTimeout Sample.two_rows) = [].
Proof.
  apply (proj2 (uploadCountry_fails_atomically (Some Sample.url) true
                  (Sample.calm ExTimeout 0) Sample.no_schedule SrcTimeout
                  Sample.two_rows)).
  reflexivity.
Defined.

Lemma stopped_at_lookup_kept (nulls_largest : bool) (e : ItemEnv)
  (country : option Countries.t) (t : Task) (s : RunState) :
  fault e SFind = true -> stopped_at_lookup country t ->
  stopped_at_lookup country (fst (resume nulls_largest e t s))
  /\ snd (resume nulls_largest e t s) = s.
Proof.
  intros Hf Ht. destruct country as [c0|].
  - destruct t as [c| | | | | | | |[[c|c|c e']|r]]; try destruct Ht;
      unfold resume.
    + rewrite Hf. simpl. auto.
    + simpl. auto.
  - destruct Ht as [reason ->]. simpl. eauto.
Qed.

Lemma stopped_result_failed (country : option Countries.t)
  (r : PromiseSettledResult) :
  kept_result (stopped_at_lookup country) r ->
  match country with
  | Some _ => has_status St_failed r = true
  | None => is_rejected r = true
  end.
Proof.
  intros (t & Ht & Hset & ->). destruct country as [c0|].
  - destruct t as [| | | | | | | |[[c|c|c e]|r]]; try discriminate;
      try destruct Ht.
    reflexivity.
  - destruct Ht as [reason ->]. reflexivity.
Qed.

(** X7. When the store cannot be reached, so that the lookup of every
    item fails, the run still returns a value: created 0, updated 0 and
    total the size of the dataset; the task of every record has the
    status failed (that of a [null] item is rejected), and the store and
    the cache file are as before. *)
Theorem uploadCountry_store_unreachable (api_countries : option string)
  (nulls_largest : bool) (env : nat -> ItemEnv) (sched : nat -> list nat)
  (status : nat) (data : list (option Countries.t)) (w : World) :
  truthy api_countries = true -> 200 <= status < 300 ->
  (forall i, fault (env i) SFind = true) ->
  returned (uploadCountry api_countries nulls_largest env sched
              (SrcResponse status (PArray data)) w)
  = Ok [("created", 0); ("updated", 0); ("total", List.length data)]
  /\ final (uploadCountry api_countries nulls_largest env sched
              (SrcResponse status (PArray data)) w) = w
  /\ Forall2
       (fun country r =>
          match country with
          | Some _ => has_status St_failed r = true
          | None => is_rejected r = true
          end)
       data
       (batchResults (uploadCountry api_countries nulls_largest env sched
                        (SrcResponse status (PArray data)) w))
  /\ List.length
       (batchResults (uploadCountry api_countries nulls_largest env sched
                        (SrcResponse status (PArray data)) w))
     = List.length data.
Proof.
  intros Hapi Hstatus Hfault.
  destruct (uploadCountry_keeps nulls_largest env sched stopped_at_lookup
              (fun s => world s = w /\ created s = 0 /\ updated s = 0)) with
    (api_countries := api_countries)
    (src := SrcResponse status (PArray data)) (w := w)
    as (s & Hworld & _ & Hret & (Hw & Hc & Hu) & Hrs & _); auto.
  - intros i country t s Ht Hs.
    destruct (stopped_at_lookup_kept nulls_largest (env i) country t s
                (Hfault i) Ht) as [Ht' ->]. auto.
  - intros st d _ [c|] _; simpl; eauto.
  - destruct (uploadCountry_dataset api_countries nulls_largest env sched status
                data w Hapi Hstatus) as (Hcat & Hlen & Hreturned).
    rewrite Hcat in Hrs.
    destruct (Hret _ Hreturned) as [Hc' Hu'].
    simpl in Hc', Hu'. injection Hc' as Hc'. injection Hu' as Hu'.
    rewrite Hreturned, Hc', Hu', Hc, Hu.
    split; [reflexivity|]. split; [congruence|]. split; [|exact Hlen].
    eapply Forall2_impl; [|exact Hrs]. apply stopped_result_failed.
Qed.

Lemma uploadCountry_store_unreachable_witness :
  returned (uploadCountry (Some Sample.url) true
              (Sample.faulty SFind ExTimeout 0) Sample.lookups_first
              (SrcResponse 200 (PArray Sample.twelve)) Sample.two_rows)
  = Ok [("created", 0); ("updated", 0); ("total", 12)]
  /\ final (uploadCountry (Some Sample.url) true
              (Sample.faulty SFind ExTimeout 0) Sample.lookups_first
              (SrcResponse 200 (PArray Sample.twelve)) Sample.two_rows)
     = Sample.two_rows.
Proof.
  destruct (uploadCountry_store_unreachable (Some Sample.url) true
              (Sample.faulty SFind ExTimeout 0) Sample.lookups_first 200
              Sample.twelve Sample.two_rows) as (H1 & H2 & _).
  - reflexivity.
  - lia.
  - intros i. reflexivity.
  - split; [exact H1 | exact H2].
Defined.

(** X8. On an empty dataset the run returns created 0, updated 0,
    total 0 and renders no report: the store and the cache file are as
    before, so that a report that did not exist still does not exist. *)
Theorem uploadCountry_empty_dataset (api_countries : option string)
  (nulls_largest : bool) (env : nat -> ItemEnv) (sched : nat -> list nat)
  (status : nat) (w : World) :
  truthy api_countries = true -> 200 <= status < 300 ->
  returned (uploadCountry api_countries nulls_largest env sched
              (SrcResponse status (PArray [])) w)
  = Ok [("created", 0); ("updated", 0); ("total", 0)]
  /\ final (uploadCountry api_countries nulls_largest env sched
              (SrcResponse status (PArray [])) w) = w
  /\ getSummaryImage
       (final (uploadCountry api_countries nulls_largest env sched
                 (SrcResponse status (PArray [])) w))
     = getSummaryImage w.
Proof.
  intros Hapi Hstatus. unfold uploadCountry, uploadCountry_try.
  rewrite Hapi, (fetch_ok status _ Hstatus). simpl. auto.
Qed.

Lemma uploadCountry_empty_dataset_witness :
  returned (uploadCountry (Some Sample.url) true (Sample.calm ExTimeout 0)
              Sample.no_schedule (SrcResponse 200 (PArray [])) Sample.empty)
  = Ok [("created", 0); ("updated", 0); ("total", 0)]
  /\ final (uploadCountry (Some Sample.url) true (Sample.calm ExTimeout 0)
              Sample.no_schedule (SrcResponse 200 (PArray [])) Sample.empty)
     = Sample.empty
  /\ getSummaryImage
       (final (uploadCountry (Some Sample.url) true (Sample.calm ExTimeout 0)
                 Sample.no_schedule (SrcResponse 200 (PArray [])) Sample.empty))
     = getSummaryImage Sample.empty.
Proof.
  apply (uploadCountry_empty_dataset (Some Sample.url) true
           (Sample.calm ExTimeout 0) Sample.no_schedule 200 Sample.empty).
  - reflexivity.
  - lia.
Defined.

(** ** The create path and the cached report *)

Lemma generateSummaryImage_report (nulls_largest : bool) (now : nat) (w : World) :
  generateSummaryImage nulls_largest now w
  = Ok (mkWorld (db w) (Some (report_of nulls_largest now (db w)))).
Proof.
  unfold generateSummaryImage. now rewrite findMany_top_five.
Qed.

(** The three awaited calls of the render, when none fails and no other
    task acts in between. *)
Lemma render_steps (nulls_largest : bool) (env : nat -> ItemEnv) (i : nat)
  (c : Countries.t) (st : Written) (s : RunState) :
  fault (env i) SCount = false ->
  fault (env i) STop = false ->
  fault (env i) SFile = false ->
  steps nulls_largest env 3 i (AwaitCount c st) s
  = (Settled (fulfilled (success st (Countries.name c))),
     mkRun (mkWorld (db (world s))
                    (Some (report_of nulls_largest (clock (env i))
                                     (db (world s)))))
           (created s) (updated s)
           (((trace s ++ [Call i SCount]) ++ [Call i STop])
              ++ [Call i SFile; Settle i])).
Proof.
  intros Hc Ht Hf. unfold steps, step, resume.
  rewrite Hc. cbn [record_events stage_of is_settled world db trace created updated].
  rewrite Ht, findMany_top_five.
  cbn [record_events stage_of is_settled world db trace created updated].
  rewrite Hf. reflexivity.
Qed.

Lemma getExchangeRate_total (code : string) (o : ExchangeOutcome) :
  exists rate, getExchangeRate code o = Ok rate.
Proof.
  unfold getExchangeRate. destruct (getExchangeRate_try code o); eauto.
Qed.

(** A code that is not the name of a member of [Object.prototype] is
    resolved to a number or to [null]. *)
Lemma getExchangeRate_plain (code : string) (o : ExchangeOutcome) :
  inherited code = false -> exists rate, getExchangeRate code o = Ok (Rate rate).
Proof.
  intros Hplain. unfold getExchangeRate, getExchangeRate_try, lookup_rate.
  destruct o as [| |[rates|]]; eauto.
  destruct (find (fun kv => String.eqb (fst kv) code) rates) as [kv|];
    [|rewrite Hplain]; simpl; eauto.
Qed.

Lemma resolved_plain (c : Countries.t) (e : ItemEnv) :
  (forall code, first_code c = Some code -> inherited code = false) ->
  exists rate, resolved c e = Rate rate.
Proof.
  intros Hplain. unfold resolved.
  destruct (first_code c) as [code|]; [|eauto].
  destruct (truthy (Some code)); [|eauto].
  destruct (getExchangeRate_plain code (exchange e) (Hplain code eq_refl))
    as [rate ->].
  eauto.
Qed.

(** The lookup misses and the row is created: two awaited calls, three
    when the exchange source is asked. *)
Lemma create_steps (nulls_largest : bool) (env : nat -> ItemEnv) (i : nat)
  (c : Countries.t) (s : RunState) (rate : option Q) :
  fault (env i) SFind = false ->
  fault (env i) SWrite = false ->
  Prisma.findFirst (db (world s)) (lower_name c) = None ->
  resolved c (env i) = Rate rate ->
  exists n tr,
    n <= 3
    /\ steps nulls_largest env n i (AwaitFind c) s
       = (AwaitCount c Was_created,
          mkRun (mkWorld (db (world s) ++ [created_row c (env i) rate])
                         (summary_png (world s)))
                (S (created s)) (updated s) (trace s ++ tr))
    /\ (In (Call i SRate) tr <-> truthy (first_code c) = true)
    /\ Forall (fun e => ev_item e = i) tr.
Proof.
  intros Hfind Hwrite Hmiss Hres.
  assert (Hcreate : forall row,
             Country.name row = lower_name c ->
             Prisma.create (db (world s)) row = Ok (db (world s) ++ [row])).
  { intros row Hn. unfold Prisma.create. now rewrite Hn, Hmiss. }
  unfold created_row. unfold resolved in Hres.
  destruct (first_code c) as [code|] eqn:Hcode.
  - destruct (truthy (Some code)) eqn:Htruthy.
    + exists 3, [Call i SFind; Call i SRate; Call i SWrite].
      split; [lia|]. split; [|split].
      * unfold steps, step, resume. unfold lower_name in Hmiss.
        rewrite Hfind, Hmiss, Hcode, Htruthy.
        cbn [record_events stage_of is_settled world db trace created updated].
        destruct (getExchangeRate_total code (exchange (env i))) as [r Hr].
        rewrite Hr in Hres. subst r. rewrite Hr.
        cbn [record_events stage_of is_settled world db trace created updated].
        rewrite Hwrite, Hcreate by reflexivity.
        cbn [record_events stage_of is_settled world db trace created updated
             summary_png].
        repeat rewrite <- app_assoc. reflexivity.
      * split; [reflexivity|]. intros _. simpl. auto.
      * repeat constructor.
    + injection Hres as <-.
      exists 2, [Call i SFind; Call i SWrite].
      split; [lia|]. split; [|split].
      * unfold steps, step, resume. unfold lower_name in Hmiss.
        rewrite Hfind, Hmiss, Hcode, Htruthy.
        cbn [record_events stage_of is_settled world db trace created updated].
        rewrite Hwrite, Hcreate by reflexivity.
        cbn [record_events stage_of is_settled world db trace created updated
             summary_png].
        repeat rewrite <- app_assoc. reflexivity.
      * split; [|discriminate]. simpl. intuition discriminate.
      * repeat constructor.
  - injection Hres as <-.
    exists 2, [Call i SFind; Call i SWrite].
    split; [lia|]. split; [|split].
    + unfold steps, step, resume. unfold lower_name in Hmiss.
      rewrite Hfind, Hmiss, Hcode.
      cbn [record_events stage_of is_settled world db trace created updated].
      rewrite Hwrite, Hcreate by reflexivity.
      cbn [record_events stage_of is_settled world db trace created updated
           summary_png].
      repeat rewrite <- app_assoc. reflexivity.
    + split; [|discriminate]. simpl. intuition discriminate.
    + repeat constructor.
Qed.

Lemma findFirst_app_new (tb : Prisma.Table) (row : Country.t) (n : string) :
  Prisma.findFirst tb n = None -> Country.name row = n ->
  Prisma.findFirst (tb ++ [row]) n = Some row.
Proof.
  unfold Prisma.findFirst. intros Hnone Hn.
  induction tb as [|r tb IH]; simpl in *.
  - unfold Prisma.has_name. rewrite Hn, String.eqb_refl. reflexivity.
  - destruct (Prisma.has_name n r); [discriminate | auto].
Qed.

Lemma steps_trace_grows (nulls_largest : bool) (env : nat -> ItemEnv) (n i : nat)
  (t : Task) (s : RunState) (e : Event) :
  In e (trace s) -> In e (trace (snd (steps nulls_largest env n i t s))).
Proof.
  intros Hin.
  destruct (steps_progress nulls_largest env n i t s)
    as (_ & _ & _ & _ & (evs & -> & _) & _).
  apply in_or_app. left. exact Hin.
Qed.

(** X9. The create path: when the lower-cased name of the only item has
    no row, the lookup and the write do not fail, and the first currency
    code of the item is not the name of a member of [Object.prototype],
    the run appends one row.  Its name is the lower-cased name of the
    item; its capital, region and population are those of the item; its
    flag is the flag of the item; its currency code is the code of the
    first currency, unknown when there is none.  The counters are
    created 1, updated 0, total 1, and the row is read back under the
    name of the item.  When the first currency has a non-empty code the
    exchange source is asked: the stored rate is the answer of
    [getExchangeRate] and the estimate is
    population x (random x 1000 + 1000) x rate, unknown when the rate
    is.  Otherwise the source is not asked and both are unknown. *)
Theorem uploadCountry_create_path (api_countries : option string)
  (nulls_largest : bool) (env : nat -> ItemEnv) (sched : nat -> list nat)
  (status : nat) (c : Countries.t) (w : World) :
  truthy api_countries = true -> 200 <= status < 300 ->
  fault (env 0) SFind = false ->
  fault (env 0) SWrite = false ->
  Prisma.findFirst (db w) (toLowerCase (Countries.name c)) = None ->
  (forall currency rest,
     Countries.currencies c = Some (currency :: rest) ->
     inherited (CurrencyData.code currency) = false) ->
  exists row,
    db (final (uploadCountry api_countries nulls_largest env sched
                 (SrcResponse status (PArray [Some c])) w))
    = db w ++ [row]
    /\ returned (uploadCountry api_countries nulls_largest env sched
                   (SrcResponse status (PArray [Some c])) w)
       = Ok [("created", 1); ("updated", 0); ("total", 1)]
    /\ Country.name row = toLowerCase (Countries.name c)
    /\ Country.capital row = Countries.capital c
    /\ Country.region row = Countries.region c
    /\ Country.population row = Countries.population c
    /\ Country.flag_url row = Countries.flag c
    /\ Country.currency_code row
       = match Countries.currencies c with
         | Some (currency :: _) => Some (CurrencyData.code currency)
         | _ => None
         end
    /\ CountriesController.getSingleCountry (Countries.name c)
         (final (uploadCountry api_countries nulls_largest env sched
                   (SrcResponse status (PArray [Some c])) w))
       = Ok row
    /\ (forall currency rest,
          Countries.currencies c = Some (currency :: rest) ->
          CurrencyData.code currency <> "" ->
          In (Call 0 SRate)
             (events (uploadCountry api_countries nulls_largest env sched
                        (SrcResponse status (PArray [Some c])) w))
          /\ exists rate,
               getExchangeRate (CurrencyData.code currency) (exchange (env 0))
               = Ok (Rate rate)
               /\ Country.exchange_rate row = rate
               /\ Country.estimated_gdp row
                  = match rate with
                    | Some q =>
                        Some (Countries.population c
                              * (random (env 0%nat) * (2000 - 1000) + 1000)
                              * q)%Q
                    | None => None
                    end)
    /\ ((Countries.currencies c = None \/ Countries.currencies c = Some []
         \/ exists currency rest,
              Countries.currencies c = Some (currency :: rest)
              /\ CurrencyData.code currency = "") ->
        ~ In (Call 0 SRate)
            (events (uploadCountry api_countries nulls_largest env sched
                       (SrcResponse status (PArray [Some c])) w))
        /\ Country.exchange_rate row = None
        /\ Country.estimated_gdp row = None).
Proof.
  intros Hapi Hstatus Hfind Hwrite Hmiss Hplain.
  assert (Hplain' : forall code, first_code c = Some code ->
                                 inherited code = false).
  { intros code Hcode. unfold first_code in Hcode.
    destruct (Countries.currencies c) as [[|currency rest]|] eqn:Hcur;
      try discriminate.
    injection Hcode as <-. eapply Hplain. reflexivity. }
  destruct (resolved_plain c (env 0) Hplain') as [rate Hres].
  rewrite (uploadCountry_single _ _ _ _ _ _ _ Hapi Hstatus). cbv zeta.
  cbn [returned final events].
  destruct (create_steps nulls_largest env 0 c (mkRun w 0 0 []) rate
              Hfind Hwrite Hmiss Hres) as (n & tr & Hn & Hsteps & Hrate & _).
  replace max_actions with (n + (max_actions - n)) by (unfold max_actions; lia).
  rewrite steps_add, Hsteps. cbn [fst snd].
  match goal with
  | |- context [steps nulls_largest env ?m 0 ?t ?s] =>
      destruct (steps_rendering nulls_largest env m 0 t s eq_refl)
        as (Hdb & Hc & Hu & Hback);
      pose proof (fun e => steps_trace_grows nulls_largest env m 0 t s e)
        as Hgrow
  end.
  rewrite Hdb, Hc, Hu. cbn [world db created updated trace] in *.
  exists (created_row c (env 0) rate).
  split; [reflexivity|]. split; [reflexivity|].
  do 5 (split; [reflexivity|]).
  split; [reflexivity|]. split; [|split].
  - unfold CountriesController.getSingleCountry, getSingleCountry.
    cbv zeta. rewrite Hdb. cbn [world db].
    rewrite (findFirst_app_new (db w) (created_row c (env 0) rate)
               (toLowerCase (Countries.name c)) Hmiss eq_refl).
    reflexivity.
  - intros currency rest Hcur Hcode.
    assert (Hfirst : first_code c = Some (CurrencyData.code currency)).
    { unfold first_code. now rewrite Hcur. }
    assert (Htruthy : truthy (first_code c) = true).
    { rewrite Hfirst. now apply truthy_nonempty. }
    split; [apply Hgrow; apply Hrate; exact Htruthy|].
    exists rate. unfold resolved in Hres. rewrite Hfirst in Hres.
    rewrite Hfirst in Htruthy. rewrite Htruthy in Hres.
    destruct (getExchangeRate_total (CurrencyData.code currency)
                (exchange (env 0))) as [r Hr].
    rewrite Hr in Hres. subst r. split; [exact Hr|].
    split; [reflexivity|]. unfold created_row, calculateEstimatedGdp.
    destruct rate; reflexivity.
  - intros Hno.
    assert (Htruthy : truthy (first_code c) = false).
    { unfold first_code.
      destruct Hno as [-> | [-> | (currency & rest & -> & Hcode)]];
        try reflexivity.
      now rewrite Hcode. }
    assert (Hnull : rate = None).
    { unfold resolved in Hres.
      destruct (first_code c) as [code|]; [|now injection Hres].
      rewrite Htruthy in Hres. now injection Hres. }
    subst rate. split; [|split; reflexivity].
    intros Hin. apply Hback in Hin. apply Hrate in Hin. congruence.
Qed.

Lemma uploadCountry_create_path_witness :
  exists row,
    db (final (uploadCountry (Some Sample.url) true
                 (Sample.calm (ExResponse (Some [("EUR", (11 # 10)%Q)])) (1 # 2))
                 Sample.no_schedule
                 (SrcResponse 200 (PArray [Some Sample.aland])) Sample.two_rows))
    = db Sample.two_rows ++ [row]
    /\ Country.name row = "aland"
    /\ Country.capital row = "Mariehamn"
    /\ Country.region row = "Europe"
    /\ Country.population row = (30000 # 1)%Q
    /\ Country.flag_url row = "ax.svg"
    /\ Country.currency_code row = Some "EUR".
Proof.
  destruct (uploadCountry_create_path (Some Sample.url) true
              (Sample.calm (ExResponse (Some [("EUR", (11 # 10)%Q)])) (1 # 2))
              Sample.no_schedule 200 Sample.aland Sample.two_rows)
    as (row & H1 & _ & H3 & H4 & H5 & H6 & H7 & H8 & _).
  - reflexivity.
  - lia.
  - reflexivity.
  - reflexivity.
  - reflexivity.
  - intros currency rest [= <- _]. reflexivity.
  - exists row. repeat (split; [assumption|]). assumption.
Defined.

(** The task of the only item, when nothing fails: it settles with a
    success and leaves, as cache file, the report of the store it
    leaves. *)
Lemma single_item_steps (nulls_largest : bool) (env : nat -> ItemEnv)
  (c : Countries.t) (s : RunState) :
  (forall st, fault (env 0) st = false) ->
  (forall code, first_code c = Some code -> inherited code = false) ->
  exists p s',
    steps nulls_largest env max_actions 0 (AwaitFind c) s
    = (Settled (fulfilled (success p (Countries.name c))), s')
    /\ summary_png (world s')
       = Some (report_of nulls_largest (clock (env 0)) (db (world s'))).
Proof.
  intros Hnone Hplain.
  destruct (Prisma.findFirst (db (world s)) (lower_name c)) as [existing|] eqn:Hf.
  - exists Was_updated. eexists.
    change max_actions with (2 + (3 + 1)).
    rewrite steps_add.
    rewrite (update_two_steps nulls_largest env 0 c existing s
               (Hnone SFind) (Hnone SWrite) Hf).
    cbv zeta. cbn [fst snd]. rewrite steps_add.
    rewrite (render_steps nulls_largest env 0 c Was_updated _
               (Hnone SCount) (Hnone STop) (Hnone SFile)).
    cbn [fst snd steps step resume record_events stage_of].
    split; reflexivity.
  - destruct (resolved_plain c (env 0) Hplain) as [rate Hres].
    destruct (create_steps nulls_largest env 0 c s rate (Hnone SFind)
                (Hnone SWrite) Hf Hres)
      as (n & tr & Hn & Hsteps & _).
    exists Was_created. eexists.
    replace max_actions with (n + (3 + (3 - n)))
      by (unfold max_actions; lia).
    rewrite steps_add, Hsteps. cbn [fst snd]. rewrite steps_add.
    rewrite (render_steps nulls_largest env 0 c Was_created _
               (Hnone SCount) (Hnone STop) (Hnone SFile)).
    cbn [fst snd]. rewrite steps_settled by reflexivity.
    split; reflexivity.
Qed.

(** X10. The cached report after a run over one item in which nothing
    fails (no awaited call fails, and the first currency code of the
    item is not the name of a member of [Object.prototype]) is the
    report of the store the run leaves: reading the report returns it,
    rendering again at the same time changes nothing, and its total is
    the number of rows of the store. *)
Theorem uploadCountry_report_reflects_store (api_countries : option string)
  (nulls_largest : bool) (env : nat -> ItemEnv) (sched : nat -> list nat)
  (status : nat) (c : Countries.t) (w : World) :
  truthy api_countries = true -> 200 <= status < 300 ->
  (forall st, fault (env 0) st = false) ->
  (forall code, first_code c = Some code -> inherited code = false) ->
  getSummaryImage
    (final (uploadCountry api_countries nulls_largest env sched
              (SrcResponse status (PArray [Some c])) w))
  = Ok (report_of nulls_largest (clock (env 0))
          (db (final (uploadCountry api_countries nulls_largest env sched
                        (SrcResponse status (PArray [Some c])) w))))
  /\ generateSummaryImage nulls_largest (clock (env 0))
       (final (uploadCountry api_countries nulls_largest env sched
                 (SrcResponse status (PArray [Some c])) w))
     = Ok (final (uploadCountry api_countries nulls_largest env sched
                    (SrcResponse status (PArray [Some c])) w))
  /\ totalCountries
       (report_of nulls_largest (clock (env 0))
          (db (final (uploadCountry api_countries nulls_largest env sched
                        (SrcResponse status (PArray [Some c])) w))))
     = List.length
         (db (final (uploadCountry api_countries nulls_largest env sched
                       (SrcResponse status (PArray [Some c])) w))).
Proof.
  intros Hapi Hstatus Hnone Hplain.
  rewrite (uploadCountry_single _ _ _ _ _ _ _ Hapi Hstatus). cbv zeta.
  cbn [final].
  destruct (single_item_steps nulls_largest env c (mkRun w 0 0 []) Hnone Hplain)
    as (p & s' & -> & Hpng).
  cbn [snd]. split; [|split].
  - unfold getSummaryImage. now rewrite Hpng.
  - rewrite generateSummaryImage_report. rewrite <- Hpng.
    now destruct (world s').
  - reflexivity.
Qed.

Lemma uploadCountry_report_reflects_store_witness :
  getSummaryImage
    (final (uploadCountry (Some Sample.url) true (Sample.calm ExTimeout (1 # 2))
              Sample.no_schedule
              (SrcResponse 200 (PArray [Some Sample.nigeria_item]))
              Sample.two_rows))
  = Ok (report_of true 0
          (db (final (uploadCountry (Some Sample.url) true
                        (Sample.calm ExTimeout (1 # 2)) Sample.no_schedule
                        (SrcResponse 200 (PArray [Some Sample.nigeria_item]))
                        Sample.two_rows)))).
Proof.
  apply (uploadCountry_report_reflects_store (Some Sample.url) true
           (Sample.calm ExTimeout (1 # 2)) Sample.no_schedule 200
           Sample.nigeria_item Sample.two_rows).
  - reflexivity.
  - lia.
  - intros st. reflexivity.
  - intros code [= <-]. reflexivity.
Defined.

(** ** The report *)

Lemma insert_sorted_perm (le : Country.t -> Country.t -> bool) (c : Country.t)
  (l : list Country.t) :
  Permutation (Prisma.insert_sorted le c l) (c :: l).
Proof.
  induction l as [|d l IH]; simpl; [reflexivity|].
  destruct (le c d); [reflexivity|].
  rewrite IH. apply perm_swap.
Qed.

Lemma sort_rows_perm (le : Country.t -> Country.t -> bool) (l : list Country.t) :
  Permutation (Prisma.sort_rows le l) l.
Proof.
  unfold Prisma.sort_rows. induction l as [|c l IH]; simpl; [reflexivity|].
  rewrite insert_sorted_perm. now rewrite IH.
Qed.

Lemma gdp_le_total (nulls_largest : bool) (a b : option Q) :
  Prisma.gdp_le nulls_largest a b = false ->
  Prisma.gdp_le nulls_largest b a = true.
Proof.
  destruct a as [x|], b as [y|]; simpl; try discriminate.
  - intros H. apply Qle_bool_iff.
    destruct (Qlt_le_dec y x) as [Hlt | Hle]; [now apply Qlt_le_weak|].
    apply Qle_bool_iff in Hle. congruence.
  - now destruct nulls_largest.
  - now destruct nulls_largest.
Qed.

Lemma gdp_le_trans (nulls_largest : bool) (a b c : option Q) :
  Prisma.gdp_le nulls_largest a b = true ->
  Prisma.gdp_le nulls_largest b c = true ->
  Prisma.gdp_le nulls_largest a c = true.
Proof.
  destruct a as [x|], b as [y|], c as [z|]; simpl; auto;
    try (destruct nulls_largest; simpl; congruence).
  intros H1 H2. apply Qle_bool_iff in H1. apply Qle_bool_iff in H2.
  apply Qle_bool_iff. eapply Qle_trans; eassumption.
Qed.

Lemma insert_sorted_sorted (le : Country.t -> Country.t -> bool) (c : Country.t)
  (l : list Country.t) :
  (forall a b, le a b = false -> le b a = true) ->
  Sorted (fun a b => le a b = true) l ->
  Sorted (fun a b => le a b = true) (Prisma.insert_sorted le c l).
Proof.
  intros Htotal. induction l as [|d l IH]; intros Hs; simpl.
  - repeat constructor.
  - destruct (le c d) eqn:Hcd.
    + constructor; [exact Hs|]. constructor. exact Hcd.
    + inversion Hs as [|? ? Hl Hd]; subst.
      constructor; [apply IH; exact Hl|].
      assert (Hdc : le d c = true) by (apply Htotal; exact Hcd).
      destruct l as [|e l]; simpl.
      * constructor. exact Hdc.
      * destruct (le c e); constructor; [exact Hdc|].
        now inversion Hd.
Qed.

Lemma sort_rows_sorted (nulls_largest : bool) (l : list Country.t) :
  StronglySorted (fun a b => Prisma.before nulls_largest Prisma.desc a b = true)
    (Prisma.sort_rows (Prisma.before nulls_largest Prisma.desc) l).
Proof.
  apply Sorted_StronglySorted.
  - intros a b c Hab Hbc. unfold Prisma.before in *.
    eapply gdp_le_trans; eassumption.
  - unfold Prisma.sort_rows. induction l as [|c l IH]; simpl.
    + constructor.
    + apply insert_sorted_sorted; [|exact IH].
      intros a b. unfold Prisma.before. apply gdp_le_total.
Qed.

Lemma StronglySorted_firstn {A} (R : A -> A -> Prop) (n : nat) (l : list A) :
  StronglySorted R l -> StronglySorted R (firstn n l).
Proof.
  intros Hs. revert n. induction Hs as [|a l Hs IH Hall]; intros n.
  - rewrite firstn_nil. constructor.
  - destruct n as [|n]; simpl; [constructor|].
    constructor; [apply IH|].
    apply Forall_forall. intros x Hx. rewrite Forall_forall in Hall.
    apply Hall. rewrite <- (firstn_skipn n l). apply in_or_app. now left.
Qed.

Lemma StronglySorted_split {A} (R : A -> A -> Prop) (l1 l2 : list A) :
  StronglySorted R (l1 ++ l2) ->
  forall a b, In a l1 -> In b l2 -> R a b.
Proof.
  induction l1 as [|x l1 IH]; simpl; intros Hs a b Ha Hb; [destruct Ha|].
  inversion Hs as [|? ? Hs' Hall]; subst.
  destruct Ha as [<- | Ha].
  - rewrite Forall_forall in Hall. apply Hall. apply in_or_app. now right.
  - apply IH; assumption.
Qed.

Lemma countryItems_from_length (index : nat) (l : list TopCountries.t) :
  List.length (countryItems_from index l) = List.length l.
Proof.
  revert index. induction l as [|c l IH]; intros index; simpl; auto.
Qed.

Lemma countryItems_from_nth (l : list TopCountries.t) (index k : nat) (line : Line) :
  nth_error (countryItems_from index l) k = Some line ->
  rank line = index + k + 1
  /\ line_y line = 210 + (index + k) * 40
  /\ exists c, nth_error l k = Some c
               /\ line_name line = TopCountries.name c.
Proof.
  revert index k. induction l as [|c l IH]; intros index k; simpl.
  - destruct k; discriminate.
  - destruct k as [|k]; simpl.
    + intros [= <-]. simpl. rewrite Nat.add_0_r. repeat split; eauto.
    + intros H. destruct (IH _ _ H) as (Hr & Hy & Hc).
      split; [lia | split; [lia | exact Hc]].
Qed.

Lemma countryItems_from_names (index : nat) (l : list Country.t) :
  map line_name (countryItems_from index (map select_top l))
  = map Country.name l.
Proof.
  revert index. induction l as [|a l IH]; intros index; simpl;
    [reflexivity | now rewrite IH].
Qed.

Lemma top_five_length (nulls_largest : bool) (tb : Prisma.Table) :
  List.length (top_five nulls_largest tb) = Nat.min 5 (List.length tb).
Proof.
  unfold top_five. rewrite length_firstn.
  now rewrite (Permutation_length (sort_rows_perm _ tb)).
Qed.

(** X11. The shape of the report.  Rendering never fails by itself; the
    report is 800 wide, shows the number of rows of the store, and lists
    as many lines as the store has rows, at most five; the line at
    position k has rank k + 1 and is drawn at 210 + 40 k; the height is
    310 + 40 per line, hence at most 510. *)
Theorem generateSummaryImage_shape (nulls_largest : bool) (now : nat) (w : World) :
  exists svg,
    generateSummaryImage nulls_largest now w = Ok (mkWorld (db w) (Some svg))
    /\ width svg = 800
    /\ totalCountries svg = List.length (db w)
    /\ timestamp svg = now
    /\ List.length (countryItems svg) = Nat.min 5 (List.length (db w))
    /\ height svg = 310 + 40 * Nat.min 5 (List.length (db w))
    /\ height svg <= 510
    /\ (forall k line,
          nth_error (countryItems svg) k = Some line ->
          rank line = k + 1 /\ line_y line = 210 + 40 * k).
Proof.
  exists (report_of nulls_largest now (db w)).
  split; [apply generateSummaryImage_report|].
  unfold report_of, generateSVG. cbn [width totalCountries timestamp countryItems height].
  rewrite countryItems_from_length, !length_map, top_five_length.
  split; [reflexivity|]. split; [reflexivity|]. split; [reflexivity|].
  split; [reflexivity|]. split; [lia|]. split; [lia|].
  intros k line Hline.
  destruct (countryItems_from_nth _ 0 k line Hline) as (Hr & Hy & _).
  rewrite Hr, Hy. lia.
Qed.

(** X12. The order of the report.  The rows the report lists are rows of
    the store, in descending order of the estimate as the database
    orders it, each line carrying the name of its row; every row of the
    store that is not listed is ordered after every listed row; and on a
    database that orders unknown above every number, when the store has
    a row of unknown estimate the first line is a row of unknown
    estimate. *)
Theorem generateSummaryImage_order (nulls_largest : bool) (now : nat) (w : World) :
  exists top,
    generateSummaryImage nulls_largest now w
    = Ok (mkWorld (db w)
            (Some (generateSVG (List.length (db w)) (map select_top top) now)))
    /\ map line_name (countryItems_from 0 (map select_top top))
       = map Country.name top
    /\ (forall a, In a top -> In a (db w))
    /\ StronglySorted
         (fun a b => Prisma.before nulls_largest Prisma.desc a b = true) top
    /\ (forall b, In b (db w) ->
          In b top
          \/ forall a, In a top ->
               Prisma.before nulls_largest Prisma.desc a b = true)
    /\ (nulls_largest = true ->
        (exists b, In b (db w) /\ Country.estimated_gdp b = None) ->
        exists a rest, top = a :: rest /\ Country.estimated_gdp a = None).
Proof.
  exists (top_five nulls_largest (db w)).
  pose proof (sort_rows_perm (Prisma.before nulls_largest Prisma.desc) (db w))
    as Hperm.
  pose proof (sort_rows_sorted nulls_largest (db w)) as Hsorted.
  assert (Hin : forall a, In a (top_five nulls_largest (db w)) -> In a (db w)).
  { intros a Ha. unfold top_five in Ha.
    apply (Permutation_in _ Hperm).
    rewrite <- (firstn_skipn 5 (Prisma.sort_rows _ (db w))).
    apply in_or_app. now left. }
  assert (Htop : forall b, In b (db w) ->
            In b (top_five nulls_largest (db w))
            \/ forall a, In a (top_five nulls_largest (db w)) ->
                 Prisma.before nulls_largest Prisma.desc a b = true).
  { intros b Hb. apply (Permutation_in _ (Permutation_sym Hperm)) in Hb.
    rewrite <- (firstn_skipn 5 (Prisma.sort_rows _ (db w))) in Hb, Hsorted.
    apply in_app_or in Hb as [Hb | Hb]; [left; exact Hb|].
    right. intros a Ha.
    apply (StronglySorted_split _ _ _ Hsorted a b Ha Hb). }
  assert (Hss : StronglySorted
                  (fun a b => Prisma.before nulls_largest Prisma.desc a b = true)
                  (top_five nulls_largest (db w))).
  { apply StronglySorted_firstn. exact Hsorted. }
  split; [apply generateSummaryImage_report|].
  split.
  { apply countryItems_from_names. }
  split; [exact Hin|]. split; [exact Hss|]. split; [exact Htop|].
  intros -> (b & Hb & Hnull).
  pose proof (top_five_length true (db w)) as Hlen.
  destruct (top_five true (db w)) as [|a rest] eqn:Ht.
  - destruct (db w); [destruct Hb | simpl in Hlen; discriminate].
  - exists a, rest. split; [reflexivity|].
    assert (Hab : Prisma.before true Prisma.desc a b = true).
    { destruct (Htop b Hb) as [[<- | Hrest] | Hall].
      - unfold Prisma.before. rewrite Hnull. reflexivity.
      - inversion Hss as [|? ? _ Hfa]; subst.
        rewrite Forall_forall in Hfa. apply Hfa. exact Hrest.
      - apply Hall. now left. }
    unfold Prisma.before in Hab. rewrite Hnull in Hab.
    destruct (Country.estimated_gdp a); [discriminate | reflexivity].
Qed.

(** ** Listing, reading and deleting *)

Lemma region_wanted (region : option string) (x : Country.t) :
  Prisma.opt_equals
    (match region with
     | Some r => if truthy region then Some (capitalizeFirstWord r) else None
     | None => None
     end) (Some (Country.region x)) = true
  <-> (forall r, region = Some r -> r <> "" ->
         Country.region x = capitalizeFirstWord r).
Proof.
  destruct region as [[|a r]|]; simpl.
  - split; [intros _ r [= <-] H; now destruct H | reflexivity].
  - rewrite String.eqb_eq. split.
    + intros H r' [= <-] _. exact H.
    + intros H. apply (H _ eq_refl). discriminate.
  - split; [intros _ r H; discriminate | reflexivity].
Qed.

Lemma currency_wanted (currency : option string) (x : Country.t) :
  Prisma.opt_equals
    (match currency with
     | Some c => if truthy currency then Some (toUpperCase c) else None
     | None => None
     end) (Country.currency_code x) = true
  <-> (forall c, currency = Some c -> c <> "" ->
         Country.currency_code x = Some (toUpperCase c)).
Proof.
  destruct currency as [[|a c]|]; simpl.
  - split; [intros _ c [= <-] H; now destruct H | reflexivity].
  - destruct (Country.currency_code x) as [y|].
    + rewrite String.eqb_eq. split.
      * intros H c' [= <-] _. now rewrite H.
      * intros H.
        assert (Hne : String a c <> "") by discriminate.
        specialize (H _ eq_refl Hne). now injection H.
    + split; [discriminate|]. intros H.
      assert (Hne : String a c <> "") by discriminate.
      specialize (H _ eq_refl Hne). discriminate.
  - split; [intros _ c H; discriminate | reflexivity].
Qed.

Lemma matches_wanted (region currency : option string) (x : Country.t) :
  Prisma.matches
    (Prisma.mkWhere
       (match region with
        | Some r => if truthy region then Some (capitalizeFirstWord r) else None
        | None => None
        end)
       (match currency with
        | Some c => if truthy currency then Some (toUpperCase c) else None
        | None => None
        end)
       None) x = true
  <-> wanted region currency x.
Proof.
  unfold Prisma.matches, wanted. cbn [Prisma.w_region Prisma.w_currency_code].
  rewrite andb_true_iff, region_wanted, currency_wanted. reflexivity.
Qed.

(** X13. A listing with a region or currency filter (and no GDP sort)
    returns exactly the rows of the store that have the capitalized
    region and the upper-cased currency code asked for, in the order of
    the store; when no row qualifies it fails with the not-found
    exception, never with an empty list. *)
Theorem getAllCountries_exact (nulls_largest : bool)
  (region currency sort : option string) (w : World) :
  sort_filter sort = None ->
  truthy region || truthy currency || truthy sort = true ->
  exists keep,
    (forall x, keep x = true <-> wanted region currency x)
    /\ match filter keep (db w) with
       | [] =>
           getAllCountries nulls_largest region currency sort w
           = Throw (NotFoundException "Country not found")
       | l => getAllCountries nulls_largest region currency sort w = Ok l
       end.
Proof.
  intros Hsort Hany.
  eexists. split; [intros x; apply matches_wanted|].
  unfold getAllCountries.
  assert (Hnot : negb (truthy region) && negb (truthy currency)
                 && negb (truthy sort) = false).
  { destruct (truthy region), (truthy currency), (truthy sort);
      simpl in *; congruence. }
  rewrite Hnot, Hsort. unfold Prisma.findMany.
  cbn [Prisma.w_sort order_of].
  destruct (filter _ (db w)); reflexivity.
Qed.

Lemma getAllCountries_exact_witness :
  exists keep,
    (forall x, keep x = true <-> wanted (Some "africa") (Some "ngn") x)
    /\ match filter keep (db Sample.two_rows) with
       | [] =>
           getAllCountries true (Some "africa") (Some "ngn") None Sample.two_rows
           = Throw (NotFoundException "Country not found")
       | l =>
           getAllCountries true (Some "africa") (Some "ngn") None Sample.two_rows
           = Ok l
       end.
Proof.
  apply (getAllCountries_exact true (Some "africa") (Some "ngn") None
           Sample.two_rows).
  - reflexivity.
  - reflexivity.
Defined.

(** X14. A listing without any filter returns the whole store, also when
    the store is empty: the empty list, not the not-found exception. *)
Theorem getAllCountries_unfiltered (nulls_largest : bool)
  (region currency sort : option string) (w : World) :
  truthy region = false -> truthy currency = false -> truthy sort = false ->
  getAllCountries nulls_largest region currency sort w = Ok (db w).
Proof.
  intros Hr Hc Hs. unfold getAllCountries. rewrite Hr, Hc, Hs. simpl.
  unfold Prisma.findMany. simpl. now rewrite filter_no_filter.
Qed.

Lemma getAllCountries_unfiltered_witness :
  getAllCountries true None (Some "") None Sample.empty = Ok [].
Proof.
  apply (getAllCountries_unfiltered true None (Some "") None Sample.empty);
    reflexivity.
Defined.

(** X15. A listing sorted by GDP never succeeds: the sort direction is
    put into the object passed as [where], the store rejects it, and
    the request fails with the exception of status 500, whatever the
    store and the other filters. *)
Theorem getAllCountries_sorted_fails (nulls_largest : bool)
  (region currency sort : option string) (w : World) :
  sort = Some "gdp_asc" \/ sort = Some "gdp_desc" ->
  getAllCountries nulls_largest region currency sort w
  = Throw (HttpException "Internal server Error" INTERNAL_SERVER_ERROR).
Proof.
  intros [-> | ->]; unfold getAllCountries;
    cbn [truthy negb andb sort_filter String.eqb Ascii.eqb Bool.eqb];
    rewrite !andb_false_r; reflexivity.
Qed.

Lemma getAllCountries_sorted_fails_witness :
  getAllCountries true None None (Some "gdp_desc") Sample.two_rows
  = Throw (HttpException "Internal server Error" INTERNAL_SERVER_ERROR).
Proof.
  apply (getAllCountries_sorted_fails true None None (Some "gdp_desc")
           Sample.two_rows).
  right. reflexivity.
Defined.

Lemma toUpperChar_lower (c : ascii) : toUpperChar (toLowerChar c) = toUpperChar c.
Proof. destruct c as [[] [] [] [] [] [] [] []]; reflexivity. Qed.

Lemma toUpperCase_lower (s : string) : toUpperCase (toLowerCase s) = toUpperCase s.
Proof.
  unfold toUpperCase, toLowerCase. induction s as [|c s IH]; simpl; [reflexivity|].
  now rewrite toUpperChar_lower, IH.
Qed.

Lemma toLowerCase_upper (s : string) : toLowerCase (toUpperCase s) = toLowerCase s.
Proof.
  unfold toUpperCase, toLowerCase. induction s as [|c s IH]; simpl; [reflexivity|].
  now rewrite toLowerChar_upper, IH.
Qed.

Lemma truthy_map_string (f : ascii -> ascii) (s : string) :
  truthy (Some (map_string f s)) = truthy (Some s).
Proof. destruct s; reflexivity. Qed.

Lemma truthy_capitalize (s : string) :
  truthy (Some (capitalizeFirstWord s)) = truthy (Some s).
Proof. destruct s; reflexivity. Qed.

(** X16. The letter case of the filters.  The currency filter is read
    without regard to letter case, and the region filter without regard
    to the case of its first letter: lower-casing the currency, or
    capitalizing the region, gives the same answer for every store. *)
Theorem getAllCountries_letter_case (nulls_largest : bool) (r c : string)
  (region currency sort : option string) (w : World) :
  getAllCountries nulls_largest region (Some (toLowerCase c)) sort w
  = getAllCountries nulls_largest region (Some c) sort w
  /\ getAllCountries nulls_largest (Some (capitalizeFirstWord r)) currency sort w
     = getAllCountries nulls_largest (Some r) currency sort w.
Proof.
  split; unfold getAllCountries.
  - unfold toLowerCase at 1 2. rewrite truthy_map_string.
    fold toLowerCase. now rewrite toUpperCase_lower.
  - rewrite truthy_capitalize. now rewrite capitalizeFirstWord_idem.
Qed.

(** X17. Reading one record.  The controller lower-cases the requested
    name: the answer is the same in every letter case of the request;
    it is the row of the store whose name is the lower-cased request,
    or, when the store has no such name, the not-found exception. *)
Theorem getSingleCountry_by_lower_name (name : string) (w : World) :
  CountriesController.getSingleCountry (toUpperCase name) w
  = CountriesController.getSingleCountry name w
  /\ ((exists row,
         CountriesController.getSingleCountry name w = Ok row
         /\ In row (db w) /\ Country.name row = toLowerCase name)
      \/ (CountriesController.getSingleCountry name w
          = Throw (NotFoundException "Country not Found")
          /\ kindOf (NotFoundException "Country not Found") = NotFound
          /\ ~ In (toLowerCase name) (names (db w)))).
Proof.
  unfold CountriesController.getSingleCountry, getSingleCountry. cbv zeta.
  rewrite toLowerCase_upper. split; [reflexivity|].
  destruct (Prisma.findFirst (db w) (toLowerCase name)) as [row|] eqn:Hf.
  - left. exists row. apply findFirst_some_named in Hf as [Hin Hn]. auto.
  - right. apply findFirst_none_names in Hf. auto.
Qed.

Lemma filter_out_name_length (n : string) (tb : Prisma.Table) :
  NoDup (names tb) -> In n (names tb) ->
  List.length (filter (fun c => negb (Prisma.has_name n c)) tb) + 1
  = List.length tb.
Proof.
  unfold names. induction tb as [|row tb IH]; simpl; intros Hnd Hin;
    [destruct Hin|].
  inversion Hnd as [|? ? Hnotin Hnd']; subst.
  unfold Prisma.has_name at 1.
  destruct (String.eqb_spec (Country.name row) n) as [Heq | Hne]; simpl.
  - subst n.
    assert (Hall : filter (fun c => negb (Prisma.has_name (Country.name row) c)) tb
                   = tb).
    { clear IH Hin Hnd Hnd'. induction tb as [|r tb IH]; simpl; [reflexivity|].
      simpl in Hnotin. unfold Prisma.has_name at 1.
      destruct (String.eqb_spec (Country.name r) (Country.name row)) as [E|E].
      - exfalso. apply Hnotin. left. exact E.
      - simpl. f_equal. apply IH. intros H. apply Hnotin. right. exact H. }
    rewrite Hall. lia.
  - destruct Hin as [Heq | Hin]; [contradiction|].
    rewrite <- (IH Hnd' Hin). lia.
Qed.

Lemma findFirst_filter_other (name other : string) (tb : Prisma.Table) :
  other <> name ->
  Prisma.findFirst (filter (fun c => negb (Prisma.has_name name c)) tb) other
  = Prisma.findFirst tb other.
Proof.
  intros Hother. unfold Prisma.findFirst.
  induction tb as [|r tb IH]; simpl; [reflexivity|].
  destruct (Prisma.has_name name r) eqn:E2; simpl.
  - assert (E1 : Prisma.has_name other r = false).
    { unfold Prisma.has_name in *. apply String.eqb_eq in E2.
      apply String.eqb_neq. congruence. }
    now rewrite E1.
  - destruct (Prisma.has_name other r); [reflexivity | exact IH].
Qed.

(** X18. Deleting a record.  When the delete succeeds, the name is gone:
    reading it fails with the not-found exception and deleting it again
    fails with the exception of status 500; every other name reads as
    before; the cached report is not rendered again; and, the names of
    the store being unique, the store has one row less. *)
Theorem deleteCountry_then_read (name : string) (w w' : World) (message : string) :
  CountriesController.deleteCountry name w = (Ok message, w') ->
  getSingleCountry name w' = Throw (NotFoundException "Country not Found")
  /\ CountriesController.deleteCountry name w'
     = (Throw (HttpException "Internal server Error" INTERNAL_SERVER_ERROR), w')
  /\ (forall other, other <> name ->
        getSingleCountry other w' = getSingleCountry other w)
  /\ summary_png w' = summary_png w
  /\ (NoDup (names (db w)) ->
      Prisma.count (db w') + 1 = Prisma.count (db w)).
Proof.
  unfold CountriesController.deleteCountry, deleteCountry, Prisma.delete.
  destruct (Prisma.findFirst (db w) name) as [row|] eqn:Hf;
    [|unfold rethrow; simpl; discriminate].
  intros [= _ <-]. cbn [db summary_png].
  assert (Hgone : Prisma.findFirst
                    (filter (fun c => negb (Prisma.has_name name c)) (db w))
                    name = None).
  { unfold Prisma.findFirst.
    destruct (find (Prisma.has_name name) (filter _ (db w))) as [x|] eqn:Hx;
      [|reflexivity].
    apply find_some in Hx as [Hin Hn].
    apply filter_In in Hin as [_ Hneg]. rewrite Hn in Hneg. discriminate. }
  split; [|split; [|split; [|split]]].
  - unfold getSingleCountry. cbn [db]. now rewrite Hgone.
  - now rewrite Hgone.
  - intros other Hother. unfold getSingleCountry. cbn [db].
    now rewrite findFirst_filter_other.
  - reflexivity.
  - intros Hnd. unfold Prisma.count. apply filter_out_name_length; [exact Hnd|].
    apply findFirst_some_named in Hf as [Hin Hn].
    unfold names. apply in_map_iff. exists row. auto.
Qed.

Lemma deleteCountry_then_read_witness :
  getSingleCountry "nigeria" (mkWorld [Sample.france] None)
  = Throw (NotFoundException "Country not Found")
  /\ summary_png (mkWorld [Sample.france] None) = summary_png Sample.two_rows.
Proof.
  destruct (deleteCountry_then_read "nigeria" Sample.two_rows
              (mkWorld [Sample.france] None) "Country deleted successfully")
    as (H1 & _ & _ & H4 & _).
  - reflexivity.
  - split; [exact H1 | exact H4].
Defined.

(** X19. Deleting is sensitive to letter case where reading is not.  In
    a store whose names are in lower case, a delete request whose name
    has an upper-case letter deletes nothing and fails with the
    exception of status 500, also when reading the same name finds its
    row. *)
Theorem deleteCountry_letter_case (name : string) (w : World) :
  Forall (fun row => toLowerCase (Country.name row) = Country.name row) (db w) ->
  toLowerCase name <> name ->
  CountriesController.deleteCountry name w
  = (Throw (HttpException "Internal server Error" INTERNAL_SERVER_ERROR), w)
  /\ (In (toLowerCase name) (names (db w)) ->
      exists row, CountriesController.getSingleCountry name w = Ok row).
Proof.
  intros Hlower Hname. split.
  - unfold CountriesController.deleteCountry, deleteCountry, Prisma.delete.
    destruct (Prisma.findFirst (db w) name) as [row|] eqn:Hf; [|reflexivity].
    exfalso. apply findFirst_some_named in Hf as [Hin Hn].
    rewrite Forall_forall in Hlower. specialize (Hlower row Hin).
    rewrite Hn in Hlower. contradiction.
  - intros Hin.
    unfold CountriesController.getSingleCountry, getSingleCountry. cbv zeta.
    destruct (Prisma.findFirst (db w) (toLowerCase name)) as [row|] eqn:Hf;
      [eauto|].
    apply findFirst_none_names in Hf. contradiction.
Qed.

Lemma deleteCountry_letter_case_witness :
  CountriesController.deleteCountry "Nigeria" Sample.two_rows
  = (Throw (HttpException "Internal server Error" INTERNAL_SERVER_ERROR),
     Sample.two_rows)
  /\ exists row, CountriesController.getSingleCountry "Nigeria" Sample.two_rows
                 = Ok row.
Proof.
  destruct (deleteCountry_letter_case "Nigeria" Sample.two_rows) as [H1 H2].
  - repeat constructor.
  - discriminate.
  - split; [exact H1|]. apply H2. simpl. left. reflexivity.
Defined.

(** ** Runs in which nothing fails *)

Lemma in_names_app (n : string) (N extra : list string) :
  ~ In n extra -> (In n (N ++ extra) <-> In n N).
Proof.
  intros Hn. split.
  - intros H. apply in_app_or in H as [H | H]; [exact H | contradiction].
  - intros H. apply in_or_app. now left.
Qed.

Lemma on_track_stable (K : Countries.t -> bool) (N extra : list string)
  (c : Countries.t) (t : Task) :
  ~ In (lower_name c) extra ->
  on_track K N c t -> on_track K (N ++ extra) c t.
Proof.
  intros Hn. pose proof (in_names_app (lower_name c) N extra Hn) as Hiff.
  destruct t as [c'|c' e g|c' code|c' row|c' m|c' p|c' p n|c' p svg|r]; simpl;
    rewrite ?Hiff; auto.
Qed.

Lemma known_spec (tb : Prisma.Table) (c : Countries.t) :
  known tb c = true <-> In (lower_name c) (names tb).
Proof.
  unfold known. pose proof (findFirst_none_names tb (lower_name c)) as H.
  destruct (Prisma.findFirst tb (lower_name c)).
  - split; [|reflexivity]. intros _.
    destruct (in_dec string_dec (lower_name c) (names tb)) as [Hin | Hout];
      [exact Hin|].
    apply H in Hout. discriminate.
  - split; [discriminate|]. intros Hin. exfalso. now apply H.
Qed.

(** One action of a task on track, when none of its calls fails. *)
Lemma resume_on_track (nulls_largest : bool) (e : ItemEnv)
  (K : Countries.t -> bool) (c : Countries.t) (t : Task) (s : RunState) :
  (forall st, fault e st = false) ->
  (forall code, first_code c = Some code -> inherited code = false) ->
  on_track K (names (db (world s))) c t ->
  exists extra,
    names (db (world (snd (resume nulls_largest e t s))))
    = names (db (world s)) ++ extra
    /\ Forall (eq (lower_name c)) extra
    /\ on_track K (names (db (world (snd (resume nulls_largest e t s))))) c
                (fst (resume nulls_largest e t s))
    /\ created (snd (resume nulls_largest e t s)) + created_by t
       = created s + created_by (fst (resume nulls_largest e t s))
    /\ updated (snd (resume nulls_largest e t s)) + updated_by t
       = updated s + updated_by (fst (resume nulls_largest e t s)).
Proof.
  intros Hnone Hplain Ht.
  destruct t as [c'|c' existing g|c' code|c' row|c' m|c' p|c' p n|c' p svg|r];
    unfold resume; rewrite ?Hnone.
  - destruct Ht as [-> Hiff].
    exists []. rewrite app_nil_r.
    destruct (Prisma.findFirst (db (world s)) (toLowerCase (Countries.name c)))
      as [existing|] eqn:Hf.
    + assert (Hin : In (lower_name c) (names (db (world s)))).
      { apply findFirst_some_named in Hf as [Hin Hn].
        unfold names. apply in_map_iff. exists existing. auto. }
      simpl. repeat split; auto. now apply Hiff.
    + assert (Hout : ~ In (lower_name c) (names (db (world s)))).
      { apply findFirst_none_names. exact Hf. }
      assert (HK : K c = false).
      { destruct (K c) eqn:E; [|reflexivity].
        exfalso. apply Hout. now apply Hiff. }
      destruct (first_code c) as [code|] eqn:Hcode.
      * destruct (truthy (Some code)); simpl; repeat split; auto.
      * simpl. repeat split; auto.
  - destruct Ht as (-> & HK & Hin).
    unfold Prisma.update.
    destruct (Prisma.findFirst (db (world s)) (toLowerCase (Countries.name c)))
      eqn:Hf.
    + exists []. rewrite app_nil_r. cbn [fst snd world db created updated].
      fold (overwritten (toLowerCase (Countries.name c)) c existing g
              (db (world s))).
      rewrite names_overwritten. simpl. repeat split; auto; try lia.
    + exfalso. apply findFirst_none_names in Hf. contradiction.
  - destruct Ht as (-> & HK & Hout & Hcode).
    destruct (getExchangeRate_plain code (exchange e) (Hplain code Hcode))
      as [rate ->].
    exists []. rewrite app_nil_r. simpl. repeat split; auto.
  - destruct Ht as (-> & Hname & HK & Hout).
    unfold Prisma.create. rewrite Hname.
    assert (Hf : Prisma.findFirst (db (world s)) (lower_name c) = None).
    { apply findFirst_none_names. exact Hout. }
    rewrite Hf. exists [lower_name c].
    cbn [fst snd world db created updated].
    assert (Hnames : names (db (world s) ++ [row])
                     = names (db (world s)) ++ [lower_name c]).
    { unfold names. rewrite map_app. simpl. now rewrite Hname. }
    rewrite Hnames.
    split; [reflexivity|]. split; [repeat constructor|].
    split; [|split; simpl; lia].
    simpl. split; [reflexivity|]. split.
    + rewrite HK. split; discriminate.
    + apply in_or_app. right. now left.
  - destruct Ht.
  - destruct Ht as (-> & Hp & Hin).
    exists []. rewrite app_nil_r. simpl. repeat split; auto; try apply Hp;
      destruct p; reflexivity.
  - destruct Ht as (-> & Hp & Hin).
    rewrite findMany_top_five.
    exists []. rewrite app_nil_r. simpl. repeat split; auto; try apply Hp;
      destruct p; reflexivity.
  - destruct Ht as (-> & Hp & Hin).
    exists []. rewrite app_nil_r. cbn [fst snd world db created updated].
    split; [reflexivity|]. split; [constructor|]. split.
    + simpl. split; [|exact Hin].
      destruct p; simpl.
      * rewrite (proj1 Hp eq_refl). reflexivity.
      * destruct (K c) eqn:E; [|reflexivity].
        discriminate (proj2 Hp eq_refl).
    + destruct p; simpl; lia.
  - destruct Ht as [Hr Hin].
    exists []. rewrite app_nil_r. simpl. repeat split; auto.
Qed.

Lemma Forall2_on_track_stable (K : Countries.t -> bool) (N extra : list string)
  (cs : list Countries.t) (ts : list Task) :
  (forall c, In c cs -> ~ In (lower_name c) extra) ->
  Forall2 (on_track K N) cs ts -> Forall2 (on_track K (N ++ extra)) cs ts.
Proof.
  intros Hout H. induction H as [|c t cs ts Hct _ IH]; constructor.
  - apply on_track_stable; [apply Hout; now left | exact Hct].
  - apply IH. intros c' Hc'. apply Hout. now right.
Qed.

Lemma advance_refl (K : Countries.t -> bool) (cs : list Countries.t)
  (ts : list Task) (s : RunState) :
  Forall2 (on_track K (names (db (world s)))) cs ts ->
  advance K cs ts s ts s.
Proof.
  intros H. unfold advance. split; [|split; [exact H | split; lia]].
  exists []. split; [now rewrite app_nil_r | constructor].
Qed.

Lemma advance_trans (K : Countries.t -> bool) (cs : list Countries.t)
  (ts ts1 ts2 : list Task) (s s1 s2 : RunState) :
  advance K cs ts s ts1 s1 -> advance K cs ts1 s1 ts2 s2 ->
  advance K cs ts s ts2 s2.
Proof.
  intros ((e1 & Hn1 & He1) & _ & Hc1 & Hu1) ((e2 & Hn2 & He2) & Ht2 & Hc2 & Hu2).
  unfold advance. split; [|split; [exact Ht2 | split; lia]].
  exists (e1 ++ e2). split.
  - rewrite Hn2, Hn1. now rewrite app_assoc.
  - apply Forall_app. split; assumption.
Qed.

Lemma step_advance (nulls_largest : bool) (env : nat -> ItemEnv)
  (K : Countries.t -> bool) (i : nat) (c : Countries.t) (t : Task)
  (s : RunState) :
  (forall j st, fault (env j) st = false) ->
  (forall code, first_code c = Some code -> inherited code = false) ->
  on_track K (names (db (world s))) c t ->
  exists extra,
    names (db (world (snd (step nulls_largest env i t s))))
    = names (db (world s)) ++ extra
    /\ Forall (eq (lower_name c)) extra
    /\ on_track K (names (db (world (snd (step nulls_largest env i t s))))) c
                (fst (step nulls_largest env i t s))
    /\ created (snd (step nulls_largest env i t s)) + created_by t
       = created s + created_by (fst (step nulls_largest env i t s))
    /\ updated (snd (step nulls_largest env i t s)) + updated_by t
       = updated s + updated_by (fst (step nulls_largest env i t s)).
Proof.
  intros Hnone Hplain Ht.
  destruct (resume_on_track nulls_largest (env i) K c t s (Hnone i) Hplain Ht)
    as (extra & Hn & He & Ht' & Hc & Hu).
  unfold step. destruct (resume nulls_largest (env i) t s) as [t' s'].
  cbn [fst snd] in *. exists extra.
  unfold record_events. destruct (stage_of t); cbn [world created updated];
    auto.
Qed.

(** The head of the batch acts. *)
Lemma advance_head (K : Countries.t -> bool) (c : Countries.t)
  (cs : list Countries.t) (t t' : Task) (rest : list Task) (s s' : RunState)
  (extra : list string) :
  NoDup (map lower_name (c :: cs)) ->
  Forall2 (on_track K (names (db (world s)))) cs rest ->
  names (db (world s')) = names (db (world s)) ++ extra ->
  Forall (eq (lower_name c)) extra ->
  on_track K (names (db (world s'))) c t' ->
  created s' + created_by t = created s + created_by t' ->
  updated s' + updated_by t = updated s + updated_by t' ->
  advance K (c :: cs) (t :: rest) s (t' :: rest) s'.
Proof.
  intros Hnd Hrest Hn He Ht' Hc Hu.
  inversion Hnd as [|? ? Hnotin _]; subst.
  unfold advance. split; [|split; [|split; simpl; lia]].
  - exists extra. split; [exact Hn|].
    eapply Forall_impl; [|exact He]. intros n <-. now left.
  - constructor; [exact Ht'|]. rewrite Hn.
    apply Forall2_on_track_stable; [|exact Hrest].
    intros c' Hc' Hin. rewrite Forall_forall in He.
    apply Hnotin. rewrite (He _ Hin). now apply in_map.
Qed.

(** A task of the tail of the batch acts. *)
Lemma advance_tail (K : Countries.t -> bool) (c : Countries.t)
  (cs : list Countries.t) (t : Task) (rest rest' : list Task)
  (s s' : RunState) :
  NoDup (map lower_name (c :: cs)) ->
  on_track K (names (db (world s))) c t ->
  advance K cs rest s rest' s' ->
  advance K (c :: cs) (t :: rest) s (t :: rest') s'.
Proof.
  intros Hnd Ht ((extra & Hn & He) & Hrest & Hc & Hu).
  inversion Hnd as [|? ? Hnotin _]; subst.
  unfold advance. split; [|split; [|split; simpl; lia]].
  - exists extra. split; [exact Hn|].
    eapply Forall_impl; [|exact He]. intros n Hin. now right.
  - constructor; [|exact Hrest]. rewrite Hn.
    apply on_track_stable; [|exact Ht].
    intros Hin. rewrite Forall_forall in He. apply Hnotin. now apply He.
Qed.

Lemma step_at_advance (nulls_largest : bool) (env : nat -> ItemEnv)
  (K : Countries.t -> bool) (cs : list Countries.t) (ts : list Task)
  (k base : nat) (s : RunState) :
  (forall j st, fault (env j) st = false) ->
  plain_codes cs ->
  NoDup (map lower_name cs) ->
  Forall2 (on_track K (names (db (world s)))) cs ts ->
  advance K cs ts s (fst (step_at nulls_largest env k base ts s))
          (snd (step_at nulls_largest env k base ts s)).
Proof.
  intros Hnone Hplain Hnd H. revert k base.
  induction H as [|c t cs ts Hct Hrest IH]; intros k base.
  - simpl. apply advance_refl. constructor.
  - destruct k as [|k']; simpl.
    + destruct (step_advance nulls_largest env K base c t s Hnone
                  (fun code => Hplain c code (or_introl eq_refl)) Hct)
        as (extra & Hn & He & Ht' & Hc & Hu).
      destruct (step nulls_largest env base t s) as [t' s'].
      cbn [fst snd] in *.
      eapply advance_head; eassumption.
    + assert (Hnd' : NoDup (map lower_name cs)) by (now inversion Hnd).
      assert (Hplain' : plain_codes cs).
      { intros c' code Hc'. apply Hplain. now right. }
      specialize (IH Hplain' Hnd' k' (S base)).
      destruct (step_at nulls_largest env k' (S base) ts s) as [rest' s'].
      cbn [fst snd] in *. apply advance_tail; assumption.
Qed.

Lemma advance_on_track (K : Countries.t -> bool) (cs : list Countries.t)
  (ts ts' : list Task) (s s' : RunState) :
  advance K cs ts s ts' s' ->
  Forall2 (on_track K (names (db (world s')))) cs ts'.
Proof. intros (_ & H & _). exact H. Qed.

Lemma run_schedule_advance (nulls_largest : bool) (env : nat -> ItemEnv)
  (K : Countries.t -> bool) (cs : list Countries.t) (schedule : list nat)
  (base : nat) (ts : list Task) (s : RunState) :
  (forall j st, fault (env j) st = false) ->
  plain_codes cs ->
  NoDup (map lower_name cs) ->
  Forall2 (on_track K (names (db (world s)))) cs ts ->
  advance K cs ts s (fst (run_schedule nulls_largest env schedule base ts s))
          (snd (run_schedule nulls_largest env schedule base ts s)).
Proof.
  intros Hnone Hplain Hnd. revert ts s.
  induction schedule as [|k rest IH]; intros ts s H; simpl.
  - apply advance_refl. exact H.
  - pose proof (step_at_advance nulls_largest env K cs ts k base s Hnone
                  Hplain Hnd H) as Hstep.
    destruct (step_at nulls_largest env k base ts s) as [ts' s'].
    cbn [fst snd] in *.
    eapply advance_trans; [exact Hstep|].
    apply IH. eapply advance_on_track. exact Hstep.
Qed.

Lemma steps_advance (nulls_largest : bool) (env : nat -> ItemEnv)
  (K : Countries.t -> bool) (n i : nat) (c : Countries.t) (t : Task)
  (s : RunState) :
  (forall j st, fault (env j) st = false) ->
  (forall code, first_code c = Some code -> inherited code = false) ->
  on_track K (names (db (world s))) c t ->
  exists extra,
    names (db (world (snd (steps nulls_largest env n i t s))))
    = names (db (world s)) ++ extra
    /\ Forall (eq (lower_name c)) extra
    /\ on_track K (names (db (world (snd (steps nulls_largest env n i t s))))) c
                (fst (steps nulls_largest env n i t s))
    /\ created (snd (steps nulls_largest env n i t s)) + created_by t
       = created s + created_by (fst (steps nulls_largest env n i t s))
    /\ updated (snd (steps nulls_largest env n i t s)) + updated_by t
       = updated s + updated_by (fst (steps nulls_largest env n i t s)).
Proof.
  intros Hnone Hplain. revert t s. induction n as [|n IH]; intros t s Ht; simpl.
  - exists []. rewrite app_nil_r. repeat split; auto.
  - destruct (step_advance nulls_largest env K i c t s Hnone Hplain Ht)
      as (e1 & Hn1 & He1 & Ht1 & Hc1 & Hu1).
    destruct (step nulls_largest env i t s) as [t1 s1]. cbn [fst snd] in *.
    destruct (IH t1 s1 Ht1) as (e2 & Hn2 & He2 & Ht2 & Hc2 & Hu2).
    exists (e1 ++ e2). rewrite Hn2, Hn1, app_assoc.
    split; [reflexivity|]. split; [apply Forall_app; auto|].
    split; [|split; lia].
    rewrite Hn2, Hn1 in Ht2. exact Ht2.
Qed.

Lemma drain_advance (nulls_largest : bool) (env : nat -> ItemEnv)
  (K : Countries.t -> bool) (cs : list Countries.t) (ts : list Task)
  (base : nat) (s : RunState) :
  (forall j st, fault (env j) st = false) ->
  plain_codes cs ->
  NoDup (map lower_name cs) ->
  Forall2 (on_track K (names (db (world s)))) cs ts ->
  advance K cs ts s (fst (drain nulls_largest env base ts s))
          (snd (drain nulls_largest env base ts s)).
Proof.
  intros Hnone Hplain Hnd. revert ts base s.
  induction cs as [|c cs IH]; intros ts base s H;
    inversion H as [|? t ? rest Hct Hrest]; subst.
  - simpl. apply advance_refl. constructor.
  - rename rest into ts. rewrite drain_cons. cbn [fst snd].
    destruct (steps_advance nulls_largest env K max_actions base c t s Hnone
                (fun code => Hplain c code (or_introl eq_refl)) Hct)
      as (extra & Hn & He & Ht' & Hc & Hu).
    set (t' := fst (steps nulls_largest env max_actions base t s)) in *.
    set (s1 := snd (steps nulls_largest env max_actions base t s)) in *.
    assert (Hhead : advance K (c :: cs) (t :: ts) s (t' :: ts) s1).
    { eapply advance_head; eassumption. }
    eapply advance_trans; [exact Hhead|].
    pose proof (advance_on_track _ _ _ _ _ _ Hhead) as Hall.
    inversion Hall as [|? ? ? ? Ht1 Hrest1]; subst.
    apply advance_tail; [exact Hnd | exact Ht1|].
    apply IH; [|now inversion Hnd | exact Hrest1].
    intros c' code Hc'. apply Hplain. now right.
Qed.

Lemma settled_on_track (K : Countries.t -> bool) (N : list string)
  (cs : list Countries.t) (ts : list Task) :
  Forall2 (on_track K N) cs ts ->
  Forall (fun t => is_settled t = true) ts ->
  map result_of ts = map (expected_result K) cs
  /\ list_sum (map created_by ts) = count_if (fun c => negb (K c)) cs
  /\ list_sum (map updated_by ts) = count_if K cs
  /\ (forall c, In c cs -> In (lower_name c) N).
Proof.
  unfold count_if.
  induction 1 as [|c t cs ts Hct _ IH]; intros Hall; simpl.
  - repeat split; auto. intros c [].
  - inversion Hall as [|? ? Hset Hrest]; subst.
    destruct (IH Hrest) as (Hr & Hc & Hu & Hin).
    destruct t as [| | | | | | | |r]; try discriminate.
    destruct Hct as [-> Hn]. simpl. unfold expected_result at 1.
    rewrite Hr. split; [reflexivity|].
    destruct (K c); simpl; rewrite Hc, Hu;
      (split; [reflexivity|]; split; [reflexivity|]);
      intros c' [<- | Hc']; auto.
Qed.

Lemma pending_not_counted (batch : list Countries.t) :
  list_sum (map created_by (map AwaitFind batch)) = 0
  /\ list_sum (map updated_by (map AwaitFind batch)) = 0.
Proof. induction batch as [|c batch [IH1 IH2]]; simpl; auto. Qed.

(** A batch in which nothing fails and no two items have the same
    lower-cased name. *)
Lemma allSettled_on_track (nulls_largest : bool) (env : nat -> ItemEnv)
  (sched : nat -> list nat) (K : Countries.t -> bool) (base : nat)
  (batch : list Countries.t) (s : RunState) :
  (forall j st, fault (env j) st = false) ->
  plain_codes batch ->
  NoDup (map lower_name batch) ->
  (forall c, In c batch ->
     (In (lower_name c) (names (db (world s))) <-> K c = true)) ->
  fst (allSettled nulls_largest env sched base (map Some batch) s)
  = map (expected_result K) batch
  /\ (exists extra,
        names (db (world (snd (allSettled nulls_largest env sched base
                                 (map Some batch) s))))
        = names (db (world s)) ++ extra
        /\ Forall (fun n => In n (map lower_name batch)) extra)
  /\ created (snd (allSettled nulls_largest env sched base (map Some batch) s))
     = created s + count_if (fun c => negb (K c)) batch
  /\ updated (snd (allSettled nulls_largest env sched base (map Some batch) s))
     = updated s + count_if K batch
  /\ (forall c, In c batch ->
        In (lower_name c)
           (names (db (world (snd (allSettled nulls_largest env sched base
                                     (map Some batch) s)))))).
Proof.
  intros Hnone Hplain Hnd Hstart. unfold allSettled.
  rewrite map_map.
  change (map (fun x => start (Some x)) batch) with (map AwaitFind batch).
  set (s0 := launched base (map Some batch) s).
  change (names (db (world s))) with (names (db (world s0))).
  change (created s) with (created s0).
  change (updated s) with (updated s0).
  assert (H0 : Forall2 (on_track K (names (db (world s0)))) batch
                       (map AwaitFind batch)).
  { clear Hnd Hplain. induction batch as [|c batch IH]; simpl; constructor.
    - simpl. split; [reflexivity|]. apply Hstart. now left.
    - apply IH. intros c' Hc'. apply Hstart. now right. }
  clearbody s0. clear Hstart.
  pose proof (run_schedule_advance nulls_largest env K batch (sched base) base
                _ s0 Hnone Hplain Hnd H0) as H1.
  destruct (run_schedule nulls_largest env (sched base) base
              (map AwaitFind batch) s0) as [ts s1].
  cbn [fst snd] in H1.
  pose proof (drain_advance nulls_largest env K batch ts base s1 Hnone Hplain
                Hnd (advance_on_track _ _ _ _ _ _ H1)) as H2.
  pose proof (drain_progress nulls_largest env ts base s1) as [_ Hall].
  destruct (drain nulls_largest env base ts s1) as [ts' s2].
  cbn [fst snd] in *.
  destruct (advance_trans _ _ _ _ _ _ _ _ H1 H2) as (Hex & Htrack & Hc & Hu).
  destruct (settled_on_track K _ batch ts' Htrack Hall) as (Hr & Hc' & Hu' & Hin).
  destruct (pending_not_counted batch) as [Hc0 Hu0].
  rewrite Hc0, Hc' in Hc. rewrite Hu0, Hu' in Hu.
  split; [exact Hr|]. split; [exact Hex|].
  split; [lia|]. split; [lia | exact Hin].
Qed.

Lemma slice_map {A B} (f : A -> B) (i j : nat) (l : list A) :
  slice i j (map f l) = map f (slice i j l).
Proof. unfold slice. now rewrite skipn_map, firstn_map. Qed.

Lemma NoDup_map_firstn_skipn {A B} (f : A -> B) (i : nat) (l : list A) (x y : A) :
  NoDup (map f l) -> In x (firstn i l) -> In y (skipn i l) -> f x <> f y.
Proof.
  intros Hnd Hx Hy Heq.
  rewrite <- (firstn_skipn i l), map_app in Hnd.
  revert Hnd. generalize (in_map f _ _ Hx). generalize (in_map f _ _ Hy).
  rewrite Heq. generalize (f y) (map f (firstn i l)) (map f (skipn i l)).
  clear. intros b l1 l2 H2 H1 Hnd.
  induction l1 as [|a l1 IH]; simpl in *; [destruct H1|].
  inversion Hnd as [|? ? Hnotin Hnd']; subst.
  destruct H1 as [-> | H1]; [|auto].
  apply Hnotin. apply in_or_app. now right.
Qed.

Lemma NoDup_map_slice {A B} (f : A -> B) (i j : nat) (l : list A) :
  NoDup (map f l) -> NoDup (map f (slice i j l)).
Proof.
  unfold slice. intros Hnd.
  rewrite <- (firstn_skipn i l), map_app in Hnd.
  apply NoDup_app_remove_l in Hnd.
  rewrite <- (firstn_skipn (j - i) (skipn i l)), map_app in Hnd.
  apply NoDup_app_remove_r in Hnd. exact Hnd.
Qed.

Lemma loop_on_track_start (tb0 : Prisma.Table) (data : list Countries.t)
  (png : option Svg) :
  loop_on_track tb0 data 0 (mkLoop (mkRun (mkWorld tb0 png) 0 0 []) 0 [] [] []).
Proof.
  unfold loop_on_track. simpl. split; [|repeat split; auto].
  - exists []. split; [now rewrite app_nil_r | constructor].
  - intros c [].
Qed.

Lemma loop_on_track_step (nulls_largest : bool) (env : nat -> ItemEnv)
  (sched : nat -> list nat) (tb0 : Prisma.Table) (data : list Countries.t)
  (i : nat) (l : LoopState) :
  (forall j st, fault (env j) st = false) ->
  plain_codes data ->
  NoDup (map lower_name data) ->
  loop_on_track tb0 data i l ->
  loop_on_track tb0 data (i + batchSize)
                (iteration nulls_largest env sched i (map Some data) l).
Proof.
  intros Hnone Hplain Hnd ((extra & Hn & He) & Hres & Hc & Hu & Hin).
  rewrite iteration_eq. cbv zeta. rewrite slice_map.
  destruct (allSettled_on_track nulls_largest env sched (known tb0) i
              (slice i (i + batchSize) data) (run l) Hnone)
    as (Hrs & (extra' & Hn' & He') & Hc' & Hu' & Hin').
  { intros c code Hc0. apply Hplain. eapply slice_incl. exact Hc0. }
  { apply NoDup_map_slice. exact Hnd. }
  { intros c Hc0. rewrite known_spec, Hn. apply in_names_app.
    intros Hx. rewrite Forall_forall in He. specialize (He _ Hx).
    apply in_map_iff in He as (c' & Heq & Hc'').
    rewrite slice_eq in Hc0.
    assert (Hsk : In c (skipn i data)).
    { rewrite <- (firstn_skipn batchSize (skipn i data)).
      apply in_or_app. now left. }
    apply (NoDup_map_firstn_skipn lower_name i data c' c Hnd Hc'' Hsk).
    exact Heq. }
  unfold loop_on_track. cbn [run results].
  rewrite firstn_add_skipn, <- slice_eq.
  split; [|split; [|split; [|split]]].
  - exists (extra ++ extra'). split.
    + rewrite Hn', Hn. now rewrite app_assoc.
    + rewrite map_app. apply Forall_app. split.
      * eapply Forall_impl; [|exact He]. intros n Hx.
        apply in_or_app. now left.
      * eapply Forall_impl; [|exact He']. intros n Hx.
        apply in_or_app. now right.
  - rewrite map_app, Hres, Hrs. reflexivity.
  - rewrite count_if_app. lia.
  - rewrite count_if_app. lia.
  - intros c Hc0. apply in_app_or in Hc0 as [Hc0 | Hc0].
    + rewrite Hn'. apply in_or_app. left. auto.
    + auto.
Qed.

Lemma loop_on_track_loop (nulls_largest : bool) (env : nat -> ItemEnv)
  (sched : nat -> list nat) (tb0 : Prisma.Table) (data : list Countries.t)
  (fuel i : nat) (l : LoopState) :
  (forall j st, fault (env j) st = false) ->
  plain_codes data ->
  NoDup (map lower_name data) ->
  List.length data <= fuel + i ->
  loop_on_track tb0 data i l ->
  exists i', List.length data <= i'
             /\ loop_on_track tb0 data i'
                  (loop nulls_largest env sched fuel i (map Some data) l).
Proof.
  intros Hnone Hplain Hnd. revert i l.
  induction fuel as [|fuel IH]; intros i l Hfuel Hinv; simpl.
  - exists i. split; [lia | exact Hinv].
  - rewrite length_map. destruct (i <? List.length data) eqn:Hlt.
    + apply Nat.ltb_lt in Hlt. apply IH; [unfold batchSize; lia|].
      apply loop_on_track_step; assumption.
    + apply Nat.ltb_ge in Hlt. exists i. split; [exact Hlt | exact Hinv].
Qed.

Lemma count_if_split {A} (p : A -> bool) (l : list A) :
  count_if (fun x => negb (p x)) l + count_if p l = List.length l.
Proof.
  unfold count_if. induction l as [|a l IH]; simpl; [reflexivity|].
  destruct (p a); simpl; lia.
Qed.

(** X20. A run in which nothing fails over a dataset of records in
    which no two items have the same lower-cased name (no awaited call
    fails, and no first currency code is the name of a member of
    [Object.prototype]): under every schedule every item task succeeds;
    an item is updated when its lower-cased name had a row before the
    run and created otherwise; the returned counters are the numbers of
    those items, so that created + updated = total; and after the run
    every item has its row. *)
Theorem uploadCountry_distinct_names (api_countries : option string)
  (nulls_largest : bool) (env : nat -> ItemEnv) (sched : nat -> list nat)
  (status : nat) (data : list Countries.t) (w : World) :
  truthy api_countries = true -> 200 <= status < 300 ->
  (forall j st, fault (env j) st = false) ->
  (forall c code, In c data -> first_code c = Some code ->
                  inherited code = false) ->
  NoDup (map lower_name data) ->
  returned (uploadCountry api_countries nulls_largest env sched
              (SrcResponse status (PArray (map Some data))) w)
  = Ok [("created", count_if (fun c => negb (known (db w) c)) data);
        ("updated", count_if (known (db w)) data);
        ("total", List.length data)]
  /\ count_if (fun c => negb (known (db w) c)) data
     + count_if (known (db w)) data = List.length data
  /\ batchResults (uploadCountry api_countries nulls_largest env sched
                     (SrcResponse status (PArray (map Some data))) w)
     = map (expected_result (known (db w))) data
  /\ (forall c, In c data ->
        In (lower_name c)
           (names (db (final (uploadCountry api_countries nulls_largest env
                                sched
                                (SrcResponse status (PArray (map Some data)))
                                w))))).
Proof.
  intros Hapi Hstatus Hnone Hplain Hnd.
  unfold uploadCountry, uploadCountry_try.
  rewrite Hapi, (fetch_ok status _ Hstatus). cbn [negb].
  destruct w as [tb0 png]. rewrite length_map.
  destruct (loop_on_track_loop nulls_largest env sched tb0 data
              (List.length data) 0
              (mkLoop (mkRun (mkWorld tb0 png) 0 0 []) 0 [] [] [])
              Hnone Hplain Hnd) as (i & Hi & Hinv);
    [lia | apply loop_on_track_start |].
  destruct (loop_inv_loop nulls_largest env sched (map Some data)
              (mkRun (mkWorld tb0 png) 0 0 []) (List.length data) 0
              (mkLoop (mkRun (mkWorld tb0 png) 0 0 []) 0 [] [] []))
    as (i2 & Hi2 & Hinv2);
    [rewrite length_map; lia | apply loop_inv_start |].
  destruct Hinv as (_ & Hres & Hc & Hu & Hin).
  destruct Hinv2 as (_ & _ & _ & Hproc & _).
  rewrite firstn_all2 in Hres, Hc, Hu, Hin by exact Hi.
  rewrite firstn_all2, length_map in Hproc by exact Hi2.
  cbn [returned batchResults final db].
  rewrite Hc, Hu, Hproc.
  split; [reflexivity|]. split; [apply count_if_split|].
  split; [exact Hres | exact Hin].
Qed.

Lemma uploadCountry_distinct_names_witness :
  returned (uploadCountry (Some Sample.url) true (Sample.calm ExTimeout (1 # 2))
              Sample.lookups_first
              (SrcResponse 200
                 (PArray (map Some [Sample.aland; Sample.nigeria_item])))
              Sample.two_rows)
  = Ok [("created", 1); ("updated", 1); ("total", 2)]
  /\ batchResults
       (uploadCountry (Some Sample.url) true (Sample.calm ExTimeout (1 # 2))
          Sample.lookups_first
          (SrcResponse 200
             (PArray (map Some [Sample.aland; Sample.nigeria_item])))
          Sample.two_rows)
     = [fulfilled (result_created "Aland"); fulfilled (result_updated "Nigeria")].
Proof.
  destruct (uploadCountry_distinct_names (Some Sample.url) true
              (Sample.calm ExTimeout (1 # 2)) Sample.lookups_first 200
              [Sample.aland; Sample.nigeria_item] Sample.two_rows)
    as (H1 & _ & H3 & _).
  - reflexivity.
  - lia.
  - intros j st. reflexivity.
  - intros c code [<- | [<- | []]] [= <-]; reflexivity.
  - repeat constructor; simpl; intuition discriminate.
  - split; [exact H1 | exact H3].
Defined.

(** ** Estimates *)

Lemma or_zero_nonneg (rate : option Q) :
  (forall q, rate = Some q -> (0 <= q)%Q) -> (0 <= or_zero rate)%Q.
Proof.
  intros H. destruct rate as [q|]; simpl; [|apply Qle_refl].
  destruct (Qeq_bool q 0); [apply Qle_refl | now apply H].
Qed.

Lemma getExchangeRate_nonneg (code : string) (o : ExchangeOutcome)
  (rate : option Q) (q : Q) :
  nonneg_rates o -> getExchangeRate code o = Ok (Rate rate) -> rate = Some q ->
  (0 <= q)%Q.
Proof.
  unfold getExchangeRate, getExchangeRate_try.
  destruct o as [| |[rates|]]; simpl; intros Hr; try (intros [= <-]; discriminate).
  unfold lookup_rate.
  destruct (find (fun kv => String.eqb (fst kv) code) rates) as [kv|] eqn:Hf.
  - cbn [property_or_null]. intros [= <-]. unfold or_null.
    destruct (Qeq_bool (snd kv) 0); [discriminate|]. intros [= <-].
    apply find_some in Hf as [Hin _]. rewrite Forall_forall in Hr.
    apply (Hr kv Hin).
  - destruct (inherited code); simpl; intros [= <-]. discriminate.
Qed.

Lemma estimate_nonneg (r population : Q) (rate : option Q) (g : Q) :
  (0 <= r)%Q -> (0 <= population)%Q ->
  (forall q, rate = Some q -> (0 <= q)%Q) ->
  calculateEstimatedGdp r rate population = Some g -> (0 <= g)%Q.
Proof.
  intros Hr Hp Hrate. unfold calculateEstimatedGdp.
  destruct rate as [q|]; [|discriminate]. intros [= <-].
  apply Qmult_le_0_compat; [|now apply Hrate].
  apply Qmult_le_0_compat; [exact Hp | lra].
Qed.

Lemma update_estimate_nonneg (r population : Q) (rate : option Q) :
  (0 <= r)%Q -> (0 <= population)%Q ->
  (forall q, rate = Some q -> (0 <= q)%Q) ->
  (0 <= population * or_zero rate
        * inject_Z (Qfloor (r * (2000 - 1000 + 1)) + 1000))%Q.
Proof.
  intros Hr Hp Hrate.
  apply Qmult_le_0_compat.
  - apply Qmult_le_0_compat; [exact Hp | now apply or_zero_nonneg].
  - change 0%Q with (inject_Z 0). rewrite <- Zle_Qle.
    assert (H0 : (0 <= Qfloor (r * (2000 - 1000 + 1)))%Z).
    { change 0%Z with (Qfloor 0). apply Qfloor_resp_le. lra. }
    lia.
Qed.

Lemma nonneg_task_kept (nulls_largest : bool) (e : ItemEnv) (t : Task)
  (s : RunState) :
  (0 <= random e)%Q -> nonneg_rates (exchange e) ->
  Forall nonneg_row (db (world s)) -> nonneg_task t ->
  nonneg_task (fst (resume nulls_largest e t s)).
Proof.
  intros Hr Hx Hs Ht.
  destruct t as [c|c existing gdp|c code|c row|c m|c st|c st n|c st svg|r];
    unfold resume.
  - destruct (fault e SFind); [exact Logic.I|].
    destruct (Prisma.findFirst _ _) as [existing|] eqn:Hf.
    + apply findFirst_some_named in Hf as [Hin _].
      rewrite Forall_forall in Hs. destruct (Hs existing Hin) as [Hrate _].
      simpl. split; [|exact Hrate].
      apply update_estimate_nonneg; assumption.
    + assert (Hnone : nonneg_row
                (newCountry c (first_code c) None
                   (calculateEstimatedGdp (random e) None
                      (Countries.population c)))).
      { split; simpl; intros q Hq; discriminate. }
      destruct (first_code c) as [code|]; [|exact Hnone].
      destruct (truthy (Some code)); [exact Ht | exact Hnone].
  - destruct (fault e SWrite); [exact Logic.I|].
    destruct (Prisma.update _ _ _); exact Logic.I.
  - destruct (getExchangeRate code (exchange e)) as [[rate|m]|err] eqn:Hrate;
      [|exact Logic.I|exact Logic.I].
    simpl. split; simpl.
    + intros q Hq. eapply getExchangeRate_nonneg; eassumption.
    + intros g Hg. eapply estimate_nonneg; [exact Hr | exact Ht | | exact Hg].
      intros q Hq. eapply getExchangeRate_nonneg; eassumption.
  - destruct (fault e SWrite); [exact Logic.I|].
    destruct (Prisma.create _ _); exact Logic.I.
  - destruct (fault e SWrite); exact Logic.I.
  - destruct (fault e SCount); exact Logic.I.
  - destruct (fault e STop); [exact Logic.I|].
    destruct (Prisma.findMany _ _ _ _ _); exact Logic.I.
  - destruct (fault e SFile); exact Logic.I.
  - exact Logic.I.
Qed.

(** X21. Estimates are never negative: when the populations of the
    dataset, the rates the exchange source answers with and the known
    rates and estimates of the store are not negative, the known rates
    and estimates of the store are not negative after the run. *)
Theorem uploadCountry_keeps_estimates_nonneg (api_countries : option string)
  (nulls_largest : bool) (env : nat -> ItemEnv) (sched : nat -> list nat)
  (status : nat) (data : list (option Countries.t)) (w : World) :
  (forall i, (0 <= random (env i))%Q /\ nonneg_rates (exchange (env i))) ->
  (forall c, In (Some c) data -> (0 <= Countries.population c)%Q) ->
  Forall nonneg_row (db w) ->
  Forall nonneg_row
    (db (final (uploadCountry api_countries nulls_largest env sched
                  (SrcResponse status (PArray data)) w))).
Proof.
  intros Henv Hdata Hw.
  destruct (uploadCountry_keeps nulls_largest env sched (fun _ => nonneg_task)
              (fun s => Forall nonneg_row (db (world s)))) with
    (api_countries := api_countries)
    (src := SrcResponse status (PArray data)) (w := w)
    as (s & <- & _ & _ & Hs & _); auto.
  - intros i country t s Ht Hs. destruct (Henv i) as [Hr Hx].
    split; [apply nonneg_task_kept; assumption|].
    destruct (resume_db nulls_largest (env i) t s)
      as [-> | [(c & existing & gdp & -> & ->) | (c & row & -> & _ & ->)]].
    + exact Hs.
    + destruct Ht as [Hgdp Hrate].
      unfold overwritten. apply Forall_forall. intros r Hin.
      apply in_map_iff in Hin as (r0 & <- & Hr0).
      rewrite Forall_forall in Hs. specialize (Hs r0 Hr0).
      destruct (Prisma.has_name (lower_name c) r0); [|exact Hs].
      split; simpl; [exact Hrate | intros g [= <-]; exact Hgdp].
    + apply Forall_app. split; [exact Hs|]. constructor; [exact Ht|constructor].
  - intros st d [= _ <-] [c|] Hc; simpl; [|exact Logic.I].
    apply Hdata. exact Hc.
Qed.

Lemma uploadCountry_keeps_estimates_nonneg_witness :
  Forall nonneg_row
    (db (final (uploadCountry (Some Sample.url) true
                  (Sample.calm (ExResponse (Some [("EUR", (11 # 10)%Q)])) (1 # 2))
                  Sample.lookups_first
                  (SrcResponse 200
                     (PArray [Some Sample.aland; Some Sample.nigeria_item]))
                  Sample.two_rows))).
Proof.
  apply (uploadCountry_keeps_estimates_nonneg (Some Sample.url) true
           (Sample.calm (ExResponse (Some [("EUR", (11 # 10)%Q)])) (1 # 2))
           Sample.lookups_first 200
           [Some Sample.aland; Some Sample.nigeria_item] Sample.two_rows).
  - intros i. split; [discriminate|]. repeat constructor. discriminate.
  - intros c [[= <-] | [[= <-] | []]]; discriminate.
  - repeat constructor; simpl; intros q [= <-]; discriminate.
Defined.

(** ** A currency code that names a member of every object *)

Lemma inherited_truthy (code : string) :
  inherited code = true -> truthy (Some code) = true.
Proof. destruct code; [discriminate | reflexivity]. Qed.

(** X22. An item that has no row, whose first currency code is the name
    of a member of [Object.prototype] ([constructor], [toString], ...)
    and is not a key of the rates the exchange source answers, is not
    created: [getExchangeRate] returns that member instead of a number,
    the client refuses it as exchange rate, and the item fails. In the
    run over that single item the exchange source is asked, the store
    and the cached report stay as they were, the counters are no
    creation, no update and a total of one, and the result of the item
    is a failure (the refusal of the client, or the fault of the write
    when the outside world makes it fail). *)
Theorem uploadCountry_inherited_currency_code (api_countries : option string)
  (nulls_largest : bool) (env : nat -> ItemEnv) (sched : nat -> list nat)
  (status : nat) (c : Countries.t) (w : World) (code : string)
  (rates : list (string * Q)) :
  truthy api_countries = true -> 200 <= status < 300 ->
  Prisma.findFirst (db w) (toLowerCase (Countries.name c)) = None ->
  fault (env 0) SFind = false ->
  first_code c = Some code ->
  inherited code = true ->
  exchange (env 0) = ExResponse (Some rates) ->
  ~ In code (map fst rates) ->
  let o := uploadCountry api_countries nulls_largest env sched
                         (SrcResponse status (PArray [Some c])) w in
  final o = w
  /\ returned o = Ok [("created", 0); ("updated", 0); ("total", 1)]
  /\ In (Call 0 SRate) (events o)
  /\ exists e,
       batchResults o = [fulfilled (result_failed (Countries.name c) e)]
       /\ (e = PrismaValidationError "Invalid value for argument exchange_rate"
           \/ e = Fault SWrite).
Proof.
  intros Hapi Hstatus Hmiss Hfind Hcode Hinh Hex Hout. cbv zeta.
  rewrite (uploadCountry_single _ _ _ _ _ _ _ Hapi Hstatus). cbv zeta.
  cbn [returned final events batchResults].
  assert (Hrate : getExchangeRate code (exchange (env 0)) = Ok (Member code)).
  { rewrite Hex. unfold getExchangeRate, getExchangeRate_try, lookup_rate.
    now rewrite (find_absent_key _ _ Hout), Hinh. }
  change max_actions with (3 + 3). rewrite steps_add.
  assert (Hsteps : exists e,
            steps nulls_largest env 3 0 (AwaitFind c) (mkRun w 0 0 [])
            = (Settled (fulfilled (result_failed (Countries.name c) e)),
               mkRun w 0 0 [Call 0 SFind; Call 0 SRate; Call 0 SWrite; Settle 0])
            /\ (e = PrismaValidationError
                      "Invalid value for argument exchange_rate"
                \/ e = Fault SWrite)).
  { unfold steps, step, resume. cbn [world db].
    rewrite Hfind, Hmiss, Hcode, (inherited_truthy code Hinh).
    cbn [record_events stage_of is_settled world db trace created updated].
    rewrite Hrate.
    cbn [record_events stage_of is_settled world db trace created updated].
    destruct (fault (env 0) SWrite); eexists;
      (split; [reflexivity|]); auto. }
  destruct Hsteps as (e & -> & He). cbn [fst snd].
  rewrite steps_settled by reflexivity.
  cbn [fst snd world created updated trace result_of].
  split; [reflexivity|]. split; [reflexivity|].
  split; [simpl; auto|].
  exists e. split; [reflexivity | exact He].
Qed.

Lemma uploadCountry_inherited_currency_code_witness :
  let o := uploadCountry (Some Sample.url) true
             (Sample.calm (ExResponse (Some [("EUR", (11 # 10)%Q)])) (1 # 2))
             Sample.no_schedule
             (SrcResponse 200 (PArray [Some Sample.oddland])) Sample.two_rows in
  final o = Sample.two_rows
  /\ returned o = Ok [("created", 0); ("updated", 0); ("total", 1)].
Proof.
  cbv zeta.
  destruct (uploadCountry_inherited_currency_code (Some Sample.url) true
              (Sample.calm (ExResponse (Some [("EUR", (11 # 10)%Q)])) (1 # 2))
              Sample.no_schedule 200 Sample.oddland Sample.two_rows
              "constructor" [("EUR", (11 # 10)%Q)])
    as (Hw & Hret & _).
  - reflexivity.
  - lia.
  - reflexivity.
  - reflexivity.
  - reflexivity.
  - reflexivity.
  - reflexivity.
  - simpl. intuition discriminate.
  - split; [exact Hw | exact Hret].
Defined.
